(** * git-commit-share: the artifact generation pipeline of [cli.js]

    A shallow embedding of the command-line tool that turns one git commit
    into a self-contained HTML diff page, and the properties of it that the
    specification states.

    JavaScript strings are sequences of UTF-16 code units; they are modelled
    as lists of [N].  The process's interaction with the outside (subprocesses,
    the library directory, the headless DOM, the clock, the output directory)
    goes through an explicit environment record and an explicit world state. *)

From Stdlib Require Import NArith ZArith Lia Ascii String List Bool.
From stdpp Require Import gmap.
Import ListNotations.

Local Open Scope N_scope.

(** ** Strings *)

Abbreviation code_unit := N.
Abbreviation jsstring := (list N).

(** A string literal of the source, as code units (ASCII text only).  The
    text between the quotes is taken as it is: a backslash is a backslash, so
    [str] of backslash-n is the two characters that the source writes with a
    doubled backslash. *)
Definition str (s : string) : jsstring :=
  map N_of_ascii (list_ascii_of_string s).
Arguments str _%_string.

Definition cu_lt : code_unit := 60.         (* < *)
Definition cu_gt : code_unit := 62.         (* > *)
Definition cu_amp : code_unit := 38.        (* & *)
Definition cu_dquote : code_unit := 34.     (* double quote *)
Definition cu_squote : code_unit := 39.     (* ' *)
Definition cu_backslash : code_unit := 92.  (* \ *)
Definition cu_lf : code_unit := 10.         (* \n *)
Definition cu_cr : code_unit := 13.         (* \r *)
Definition cu_space : code_unit := 32.
Definition cu_dash : code_unit := 45.       (* - *)

Definition jsstring_eqb (a b : jsstring) : bool :=
  if decide (a = b) then true else false.

(** [a || b] on strings: the empty string is falsy. *)
Definition or_else (a b : jsstring) : jsstring :=
  match a with
  | [] => b
  | _ :: _ => a
  end.

(** WhiteSpace and LineTerminator code units, the set [String.prototype.trim]
    strips. *)
Definition is_js_whitespace (c : code_unit) : bool :=
  (c =? 9) || (c =? 10) || (c =? 11) || (c =? 12) || (c =? 13) || (c =? 32)
  || (c =? 160) || (c =? 5760) || ((8192 <=? c) && (c <=? 8202))
  || (c =? 8232) || (c =? 8233) || (c =? 8239) || (c =? 8287)
  || (c =? 12288) || (c =? 65279).

Fixpoint trimStart (s : jsstring) : jsstring :=
  match s with
  | [] => []
  | c :: s' => if is_js_whitespace c then trimStart s' else s
  end.

Definition trimEnd (s : jsstring) : jsstring := rev (trimStart (rev s)).

Definition trim (s : jsstring) : jsstring := trimEnd (trimStart s).

(** [Array.prototype.join]. *)
Fixpoint join (sep : jsstring) (parts : list jsstring) : jsstring :=
  match parts with
  | [] => []
  | [p] => p
  | p :: rest => p ++ sep ++ join sep rest
  end.

(** [s.split(' ')[0]]: the text before the first space (all of [s] when it
    has none). *)
Fixpoint split_space_first (s : jsstring) : jsstring :=
  match s with
  | [] => []
  | c :: s' => if c =? cu_space then [] else c :: split_space_first s'
  end.

Definition startsWith_dash (s : jsstring) : bool :=
  match s with
  | c :: _ => c =? cu_dash
  | [] => false
  end.

(** ** Global regular-expression replacement

    Every [replace] of the source has the shape
    [s.replace(/literal/g, 'text')] or [s.replace(/literal/gi, 'text')]: a
    pattern that is a fixed sequence of characters, and a replacement text
    without [$].  [replace_global] is that operation: scan left to right,
    substitute at each match and resume after the matched text. *)

(** Canonicalize of a non-unicode, ignore-case pattern.  The patterns of this
    program are ASCII, and Canonicalize never maps a code unit above 127 to
    one below 128, so folding ASCII letters is all that can make a match. *)
Definition ascii_upper (c : code_unit) : code_unit :=
  if (97 <=? c) && (c <=? 122) then c - 32 else c.

Definition canonicalize (ignoreCase : bool) (c : code_unit) : code_unit :=
  if ignoreCase then ascii_upper c else c.

Definition char_matches (ignoreCase : bool) (p c : code_unit) : bool :=
  canonicalize ignoreCase p =? canonicalize ignoreCase c.

(** Does the pattern match at the start of [s]? *)
Fixpoint matches_at (ignoreCase : bool) (pat s : jsstring) : bool :=
  match pat, s with
  | [], _ => true
  | _ :: _, [] => false
  | p :: pat', c :: s' => char_matches ignoreCase p c && matches_at ignoreCase pat' s'
  end.

(** [skip] counts the code units of the current match still to be passed
    over. *)
Fixpoint replace_from (ignoreCase : bool) (pat rep : jsstring) (skip : nat)
    (s : jsstring) : jsstring :=
  match s with
  | [] => []
  | c :: s' =>
      match skip with
      | S k => replace_from ignoreCase pat rep k s'
      | O =>
          if matches_at ignoreCase pat s
          then rep ++ replace_from ignoreCase pat rep (Nat.pred (length pat)) s'
          else c :: replace_from ignoreCase pat rep O s'
      end
  end.

Definition replace_global (ignoreCase : bool) (pat rep s : jsstring) : jsstring :=
  replace_from ignoreCase pat rep O s.

(** Does the pattern occur anywhere in [s]? *)
Fixpoint occurs (ignoreCase : bool) (pat s : jsstring) : bool :=
  matches_at ignoreCase pat s
  || match s with
     | [] => false
     | _ :: s' => occurs ignoreCase pat s'
     end.

(** ** Escaping *)

(** [escapeHtml(str)]. *)
Definition escapeHtml (s : jsstring) : jsstring :=
  let s1 := replace_global false [cu_amp] (str "&amp;") s in
  let s2 := replace_global false [cu_lt] (str "&lt;") s1 in
  let s3 := replace_global false [cu_gt] (str "&gt;") s2 in
  let s4 := replace_global false [cu_dquote] (str "&quot;") s3 in
  replace_global false [cu_squote] (str "&#39;") s4.

(** The [escapedDiff] constant of [generateHtml]. *)
Definition escapedDiff (diffOutput : jsstring) : jsstring :=
  let s1 := replace_global false [cu_backslash] [cu_backslash; cu_backslash] diffOutput in
  let s2 := replace_global false [cu_squote] [cu_backslash; cu_squote] s1 in
  let s3 := replace_global false [cu_lf] (str "\n") s2 in
  replace_global false [cu_cr] (str "\r") s3.

(** [safeInline(content, kind)]. *)
Definition safeInline (content kind : jsstring) : jsstring :=
  match content with
  | [] => []
  | _ :: _ =>
      if jsstring_eqb kind (str "script")
      then replace_global true (str "</script>") (str "<\/script>") content
      else if jsstring_eqb kind (str "style")
      then replace_global true (str "</style>") (str "<\/style>") content
      else content
  end.

(** ** Reading the escaped text back

    The two decoders below are not part of [cli.js]: they are the consumers
    the specification names (the script engine reading a single-quoted string
    literal, the HTML parser reading body text), written from the ECMAScript
    and HTML grammars and restricted to the constructs they accept here. *)

(** CharacterEscapeSequence: the value of the character after a backslash.
    Hexadecimal, Unicode and octal escapes and line continuations are not
    accepted by this decoder. *)
Definition escape_value (e : code_unit) : option code_unit :=
  if e =? 98 then Some 8            (* \b *)
  else if e =? 116 then Some 9      (* \t *)
  else if e =? 110 then Some 10     (* \n *)
  else if e =? 118 then Some 11     (* \v *)
  else if e =? 102 then Some 12     (* \f *)
  else if e =? 114 then Some 13     (* \r *)
  else if (e =? 120) || (e =? 117) then None              (* \x \u *)
  else if (48 <=? e) && (e <=? 57) then None              (* \0 .. \9 *)
  else if (e =? 10) || (e =? 13) || (e =? 8232) || (e =? 8233) then None
  else Some e.     (* the quotes, the backslash, and NonEscapeCharacter *)

(** The string value of the body of a single-quoted string literal, or
    [None] when the text is not the body of one (a bare quote or a line
    terminator ends the literal early). *)
Fixpoint decodeSingleQuoted (s : jsstring) : option jsstring :=
  match s with
  | [] => Some []
  | c :: rest =>
      if c =? cu_backslash then
        match rest with
        | [] => None
        | e :: rest' =>
            match escape_value e with
            | Some v => option_map (cons v) (decodeSingleQuoted rest')
            | None => None
            end
        end
      else if (c =? cu_squote) || (c =? cu_lf) || (c =? cu_cr) then None
      else option_map (cons c) (decodeSingleQuoted rest)
  end.

(** The character references [escapeHtml] produces. *)
Definition html_entities : list (jsstring * code_unit) :=
  [ (str "&amp;", cu_amp); (str "&lt;", cu_lt); (str "&gt;", cu_gt);
    (str "&quot;", cu_dquote); (str "&#39;", cu_squote) ].

Fixpoint entity_lookup (table : list (jsstring * code_unit)) (s : jsstring)
    : option (nat * code_unit) :=
  match table with
  | [] => None
  | (name, v) :: table' =>
      if matches_at false name s then Some (length name, v)
      else entity_lookup table' s
  end.

Definition entity_at (s : jsstring) : option (nat * code_unit) :=
  entity_lookup html_entities s.

(** Body text read by an HTML parser: [None] as soon as a [<] would open
    markup, otherwise the text with the character references decoded. *)
Fixpoint parseHtmlText (skip : nat) (s : jsstring) : option jsstring :=
  match s with
  | [] => Some []
  | c :: s' =>
      match skip with
      | S k => parseHtmlText k s'
      | O =>
          if c =? cu_lt then None
          else match entity_at s with
               | Some (len, v) => option_map (cons v) (parseHtmlText (Nat.pred len) s')
               | None => option_map (cons c) (parseHtmlText O s')
               end
      end
  end.

(** The replacement [escapeHtml] makes for one code unit. *)
Definition html_entity (c : code_unit) : jsstring :=
  if c =? cu_amp then str "&amp;"
  else if c =? cu_lt then str "&lt;"
  else if c =? cu_gt then str "&gt;"
  else if c =? cu_dquote then str "&quot;"
  else if c =? cu_squote then str "&#39;"
  else [c].

(** The replacement [escapedDiff] makes for one code unit. *)
Definition diff_escape (c : code_unit) : jsstring :=
  if c =? cu_backslash then [cu_backslash; cu_backslash]
  else if c =? cu_squote then [cu_backslash; cu_squote]
  else if c =? cu_lf then str "\n"
  else if c =? cu_cr then str "\r"
  else [c].

(** Every suffix of [s] satisfies [P]. *)
Fixpoint all_suffixes (P : jsstring -> bool) (s : jsstring) : bool :=
  match s with
  | [] => true
  | _ :: s' => P s && all_suffixes P s'
  end.

(** [escaped_of i pat rep s t]: [t] is [s] with some of the texts that match
    [pat] replaced by [rep], and every other code unit kept as it is. *)
Inductive escaped_of (ignoreCase : bool) (pat rep : jsstring)
    : jsstring -> jsstring -> Prop :=
  | escaped_nil : escaped_of ignoreCase pat rep [] []
  | escaped_keep (c : code_unit) (s t : jsstring) :
      escaped_of ignoreCase pat rep s t ->
      escaped_of ignoreCase pat rep (c :: s) (c :: t)
  | escaped_match (m s t : jsstring) :
      length m = length pat ->
      matches_at ignoreCase pat m = true ->
      escaped_of ignoreCase pat rep s t ->
      escaped_of ignoreCase pat rep (m ++ s) (rep ++ t).

(** Is [a] a subsequence of [b]: the code units of [a], in order, among those
    of [b]? *)
Fixpoint is_subsequence (a b : jsstring) : bool :=
  match b with
  | [] => match a with [] => true | _ :: _ => false end
  | y :: b' =>
      match a with
      | [] => true
      | x :: a' => if x =? y then is_subsequence a' b' else is_subsequence a b'
      end
  end.

(** ** The headless document

    The document that jsdom builds and the scripts of the page change.  Every
    element carries the identity [node_id] of its DOM object: distinct
    elements of one document have distinct identities. *)

#[local] Unset Elimination Schemes.
Inductive node : Type :=
  | Element (node_id : nat) (localName : jsstring)
      (attributes : list (jsstring * jsstring)) (childNodes : list node)
  | Text (data : jsstring)
  | Comment (data : jsstring)
  | Doctype (name : jsstring).
#[local] Set Elimination Schemes.

(** The document: its child nodes, in order. *)
Abbreviation document := (list node).

Definition is_script (name : jsstring) : bool := jsstring_eqb name (str "script").

(** [document.querySelectorAll('script')]: the script elements of the tree, in
    document order, as a static list. *)
Fixpoint script_elements (n : node) : list nat :=
  match n with
  | Element i name _ children =>
      (if is_script name then [i] else []) ++ flat_map script_elements children
  | Text _ | Comment _ | Doctype _ => []
  end.

Definition querySelectorAll_script (d : document) : list nat :=
  flat_map script_elements d.

(** [s.remove()]: the element [s] leaves its parent's child list; its
    subtree goes with it. *)
Fixpoint remove_in (s : nat) (n : node) : list node :=
  match n with
  | Element i name attrs children =>
      if Nat.eqb i s then []
      else [Element i name attrs (flat_map (remove_in s) children)]
  | Text _ | Comment _ | Doctype _ => [n]
  end.

Definition remove (s : nat) (d : document) : document :=
  flat_map (remove_in s) d.

(** [document.querySelectorAll('script').forEach((s) => s.remove())]. *)
Definition stripScripts (d : document) : document :=
  fold_left (fun doc s => remove s doc) (querySelectorAll_script d) d.

Fixpoint attribute (name : jsstring) (attrs : list (jsstring * jsstring))
    : option jsstring :=
  match attrs with
  | [] => None
  | (k, v) :: attrs' => if jsstring_eqb k name then Some v else attribute name attrs'
  end.

Definition is_element (n : node) : bool :=
  match n with
  | Element _ _ _ _ => true
  | Text _ | Comment _ | Doctype _ => false
  end.

(** [document.getElementById(id)]: the child nodes of the first element, in
    document order, that has this id. *)
Fixpoint find_by_id (id : jsstring) (n : node) : option (list node) :=
  match n with
  | Element _ _ attrs children =>
      if match attribute (str "id") attrs with
         | Some v => jsstring_eqb v id
         | None => false
         end
      then Some children
      else (fix first (l : list node) : option (list node) :=
              match l with
              | [] => None
              | c :: l' =>
                  match find_by_id id c with
                  | Some r => Some r
                  | None => first l'
                  end
              end) children
  | Text _ | Comment _ | Doctype _ => None
  end.

Fixpoint getElementById (id : jsstring) (d : document) : option (list node) :=
  match d with
  | [] => None
  | n :: d' =>
      match find_by_id id n with
      | Some r => Some r
      | None => getElementById id d'
      end
  end.

(** [el && el.children && el.children.length > 0] for the diff container. *)
Definition diff_rendered (d : document) : bool :=
  match getElementById (str "diff-container") d with
  | Some children => existsb is_element children
  | None => false
  end.

(** *** Serialization

    [dom.serialize()], after the HTML fragment serialization algorithm: the
    tree is flattened into tags and character data, which are then written
    out. *)

Inductive token : Type :=
  | StartTag (name : jsstring) (attrs : list (jsstring * jsstring))
  | EndTag (name : jsstring)
  | Characters (text : jsstring)
  | CommentToken (data : jsstring)
  | DoctypeToken (name : jsstring).

Definition void_elements : list jsstring :=
  [ str "area"; str "base"; str "basefont"; str "bgsound"; str "br";
    str "col"; str "embed"; str "frame"; str "hr"; str "img"; str "input";
    str "keygen"; str "link"; str "meta"; str "param"; str "source";
    str "track"; str "wbr" ].

Definition raw_text_elements : list jsstring :=
  [ str "style"; str "script"; str "xmp"; str "iframe"; str "noembed";
    str "noframes"; str "plaintext"; str "noscript" ].

Definition name_in (names : list jsstring) (name : jsstring) : bool :=
  existsb (jsstring_eqb name) names.

Definition escape_text (s : jsstring) : jsstring :=
  flat_map (fun c => if c =? cu_amp then str "&amp;"
                     else if c =? 160 then str "&nbsp;"
                     else if c =? cu_lt then str "&lt;"
                     else if c =? cu_gt then str "&gt;"
                     else [c]) s.

Definition escape_attribute (s : jsstring) : jsstring :=
  flat_map (fun c => if c =? cu_amp then str "&amp;"
                     else if c =? 160 then str "&nbsp;"
                     else if c =? cu_dquote then str "&quot;"
                     else [c]) s.

Fixpoint tokens (raw : bool) (n : node) : list token :=
  match n with
  | Element _ name attrs children =>
      StartTag name attrs
      :: (if name_in void_elements name then []
          else flat_map (tokens (name_in raw_text_elements name)) children
               ++ [EndTag name])
  | Text data => [Characters (if raw then data else escape_text data)]
  | Comment data => [CommentToken data]
  | Doctype name => [DoctypeToken name]
  end.

Definition write_attribute (a : jsstring * jsstring) : jsstring :=
  str " " ++ fst a ++ str "=" ++ [cu_dquote] ++ escape_attribute (snd a)
  ++ [cu_dquote].

Definition write_token (t : token) : jsstring :=
  match t with
  | StartTag name attrs =>
      str "<" ++ name ++ flat_map write_attribute attrs ++ str ">"
  | EndTag name => str "</" ++ name ++ str ">"
  | Characters text => text
  | CommentToken data => str "<!--" ++ data ++ str "-->"
  | DoctypeToken name => str "<!DOCTYPE " ++ name ++ str ">"
  end.

Definition document_tokens (d : document) : list token :=
  flat_map (tokens false) d.

Definition serialize (d : document) : jsstring :=
  flat_map write_token (document_tokens d).


(** ** Waiting for the rendering

    The promise of [generateStaticHtml] is settled by [check], which runs as a
    timer callback.  The event loop is modelled with a clock in milliseconds
    that never goes back: a callback runs at its due time or later, by the
    delay the environment gives it. *)

Record Rendering : Type := {
  dom_at : Z -> document;     (* the document, at each instant *)
  load_at : option Z;         (* when the window fires load, if it does *)
  lateness : nat -> N         (* how late the n-th callback runs *)
}.

Inductive check_result : Type :=
  | Resolve
  | Again (delay : Z).

(** [check()], run at the instant [now] on the document [d]. *)
Definition check (start now : Z) (d : document) : check_result :=
  if diff_rendered d then Resolve
  else if (now - start >? 5000)%Z then Resolve
  else Again 25.

Record Loop : Type := {
  now : Z;              (* the clock *)
  timers : list Z;      (* due times of the pending [setTimeout(check, _)] *)
  load : option Z;      (* the pending load event *)
  ran : nat;            (* callbacks run so far *)
  polls : list Z        (* instants of the checks that did not resolve *)
}.

Inductive event : Type :=
  | LoadEvent (due : Z)
  | CheckTimer (due : Z).

Definition earliest (d : Z) (ds : list Z) : Z := fold_right Z.min d ds.

Fixpoint cancel (d : Z) (ds : list Z) : list Z :=
  match ds with
  | [] => []
  | x :: ds' => if (x =? d)%Z then ds' else x :: cancel d ds'
  end.

(** The pending callback that is due first. *)
Definition next_event (l : Loop) : option event :=
  match timers l with
  | [] => option_map LoadEvent (load l)
  | d :: ds =>
      let m := earliest d ds in
      match load l with
      | Some e => if (e <? m)%Z then Some (LoadEvent e) else Some (CheckTimer m)
      | None => Some (CheckTimer m)
      end
  end.

(** Runs callbacks until one resolves the promise; gives the instants of the
    checks before it and the instant of the resolution. *)
Fixpoint run_loop (r : Rendering) (start : Z) (fuel : nat) (l : Loop)
    : option (list Z * Z) :=
  match fuel with
  | O => None
  | S fuel' =>
      match next_event l with
      | None => None
      | Some (LoadEvent due) =>
          (* () => setTimeout(check, 10) *)
          let t := (Z.max (now l) due + Z.of_N (lateness r (ran l)))%Z in
          run_loop r start fuel'
            {| now := t; timers := timers l ++ [(t + 10)%Z]; load := None;
               ran := S (ran l); polls := polls l |}
      | Some (CheckTimer due) =>
          let t := (Z.max (now l) due + Z.of_N (lateness r (ran l)))%Z in
          match check start t (dom_at r t) with
          | Resolve => Some (polls l, t)
          | Again delay =>
              run_loop r start fuel'
                {| now := t; timers := cancel due (timers l) ++ [(t + delay)%Z];
                   load := load l; ran := S (ran l); polls := polls l ++ [t] |}
          end
      end
  end.

(** The promise: [start = Date.now()], the load listener, and the first
    check 20 ms later. *)
Definition initial_loop (r : Rendering) (start : Z) : Loop :=
  {| now := start; timers := [(start + 20)%Z]; load := load_at r;
     ran := O; polls := [] |}.

Definition wait_for_render (r : Rendering) (start : Z) (fuel : nat)
    : option (list Z * Z) :=
  run_loop r start fuel (initial_loop r start).

(** Callbacks within which the promise is settled (see
    [wait_for_render_resolves]). *)
Definition wait_budget : nat := 403.

(** What a pending check timer can still cost: the checks its chain can make
    before one of them finds the 5000 ms over. *)
Definition chain_budget (start due : Z) : nat :=
  if (due - start >? 5000)%Z then 1%nat
  else Z.to_nat ((5000 - (due - start)) / 25 + 2).

Definition loop_budget (start : Z) (l : Loop) : nat :=
  list_sum (map (chain_budget start) (timers l))
  + match load l with Some _ => 202 | None => 0 end.

(** What holds of the loop between two callbacks. *)
Definition loop_ok (r : Rendering) (start : Z) (l : Loop) : Prop :=
  (start <= now l)%Z
  /\ timers l <> []
  /\ (forall p, In p (polls l) ->
        diff_rendered (dom_at r p) = false /\ (p - start <= 5000)%Z).


(** ** The process and its surroundings *)

(** A write that fails.  [fs.writeFileSync] and [fsp.writeFile] open the
    file with the flag [w], which creates it or empties it, and then write
    the data: when the open fails the file is as it was
    ([failure_leaves = None]); when a later step fails the file is there,
    with whatever was written of the data ([failure_leaves = Some text]). *)
Record write_failure : Type := {
  failure_message : jsstring;        (* the message of the error thrown *)
  failure_leaves : option jsstring   (* the file the failed write leaves *)
}.

(** What the run finds around it. *)
Record Env : Type := {
  argv : list jsstring;                       (* process.argv *)
  execSync : jsstring -> jsstring + jsstring; (* stdout, or the error message
                                                 of a failed subprocess *)
  libsDir : jsstring;
  readLib : jsstring -> option jsstring;      (* a file of libsDir, if there *)
  jsdom : jsstring -> Rendering;              (* the page run in jsdom *)
  date_now : Z;                               (* the clock when the wait starts *)
  write_error : jsstring -> option write_failure
    (* how the write of a path fails, if it does *)
}.

(** What the run leaves behind.  [stdout] and [stderr] hold the calls of
    [console.log] and [console.error] that [cli.js] itself makes, one entry
    per call.  They are not the whole of the two streams: [execSync] is called
    without a [stdio] option, so what git writes on its error stream reaches
    the error stream of the process as well, and in static mode the console
    of jsdom forwards what the page reports.  Neither is recorded here. *)
Record World : Type := {
  commands : list jsstring;             (* command lines run, in order *)
  files : gmap jsstring jsstring;       (* the files, by path relative to the
                                           working directory *)
  written : list (jsstring * jsstring); (* the writes of writeFileSync that
                                           returned, in order *)
  stdout : list jsstring;               (* console.log calls of cli.js *)
  stderr : list jsstring                (* console.error calls of cli.js *)
}.

Inductive outcome (A : Type) : Type :=
  | Ret (a : A)                 (* the function returns *)
  | Exit (code : Z)             (* process.exit(code) *)
  | Throw (message : jsstring)  (* an exception, a rejected promise *)
  | Hang.                       (* a promise that is never settled *)
Arguments Ret {A} a.
Arguments Exit {A} code.
Arguments Throw {A} message.
Arguments Hang {A}.

Definition process (A : Type) : Type := World -> outcome A * World.

Definition ret {A : Type} (a : A) : process A := fun w => (Ret a, w).

Definition bind {A B : Type} (m : process A) (k : A -> process B) : process B :=
  fun w =>
    match m w with
    | (Ret a, w') => k a w'
    | (Exit code, w') => (Exit code, w')
    | (Throw message, w') => (Throw message, w')
    | (Hang, w') => (Hang, w')
    end.

Notation "'let!' x ':=' m 'in' k" := (bind m (fun x => k))
  (at level 10, x name, m at level 100, k at level 200).

Definition process_exit {A : Type} (code : Z) : process A :=
  fun w => (Exit code, w).

Definition add_command (cmd : jsstring) (w : World) : World :=
  {| commands := commands w ++ [cmd]; files := files w; written := written w;
     stdout := stdout w; stderr := stderr w |}.

Definition add_stdout (line : jsstring) (w : World) : World :=
  {| commands := commands w; files := files w; written := written w;
     stdout := stdout w ++ [line]; stderr := stderr w |}.

Definition add_stderr (line : jsstring) (w : World) : World :=
  {| commands := commands w; files := files w; written := written w;
     stdout := stdout w; stderr := stderr w ++ [line] |}.

Definition add_file (path data : jsstring) (w : World) : World :=
  {| commands := commands w; files := <[path := data]> (files w);
     written := written w ++ [(path, data)];
     stdout := stdout w; stderr := stderr w |}.

Definition console_log (line : jsstring) : process unit :=
  fun w => (Ret tt, add_stdout line w).

Definition console_error (line : jsstring) : process unit :=
  fun w => (Ret tt, add_stderr line w).

(** [execSync(cmd, { encoding: 'utf8' })] inside [try]: the command is run;
    the result is its output or the error caught. *)
Definition exec (env : Env) (cmd : jsstring) : process (jsstring + jsstring) :=
  fun w => (Ret (execSync env cmd), add_command cmd w).

(** What a failed write leaves at the path. *)
Definition leave_file (path : jsstring) (left : option jsstring) (w : World)
    : World :=
  match left with
  | Some text =>
      {| commands := commands w; files := <[path := text]> (files w);
         written := written w; stdout := stdout w; stderr := stderr w |}
  | None => w
  end.

(** [fs.writeFileSync(path, data)]: creates the file or replaces its
    content; when it throws, the file may have been created or emptied
    already. *)
Definition writeFileSync (env : Env) (path data : jsstring) : process unit :=
  fun w =>
    match write_error env path with
    | Some failure =>
        (Throw (failure_message failure),
         leave_file path (failure_leaves failure) w)
    | None => (Ret tt, add_file path data w)
    end.

(** ** The functions of [cli.js] *)

(** [getLastCommitHash()]. *)
Definition getLastCommitHash (env : Env) : process jsstring :=
  let! result := exec env (str "git log --oneline -1") in
  match result with
  | inr out => ret (trim (split_space_first out))
  | inl message =>
      let! _ := console_error (str "Error getting last commit hash: " ++ message) in
      process_exit 1
  end.

(** The command line of [getCommitMessage]. *)
Definition message_command (commit : jsstring) : jsstring :=
  str "git log -1 --format=%B " ++ commit.

(** [getCommitMessage(commit)]. *)
Definition getCommitMessage (env : Env) (commit : jsstring) : process jsstring :=
  let! result := exec env (message_command commit) in
  match result with
  | inr out => ret (trim out)
  | inl message =>
      let! _ := console_error (str "Error getting commit message: " ++ message) in
      process_exit 1
  end.

(** The [cmd] constant of [getCommitDiff]. *)
Definition diff_command (commit : jsstring) : jsstring :=
  join (str " ")
    [ str "git"; str "--no-pager"; str "show"; str "--no-color";
      str "--no-ext-diff"; str "--unified=3"; str "--diff-algorithm=patience";
      str "-M"; str "-C"; str "--ignore-cr-at-eol"; commit ].

(** [getCommitDiff(commit)]. *)
Definition getCommitDiff (env : Env) (commit : jsstring) : process jsstring :=
  let! result := exec env (diff_command commit) in
  match result with
  | inr out => ret out
  | inl message =>
      let! _ := console_error (str "Error getting commit diff: " ++ message) in
      process_exit 1
  end.

(** [readLibRequired(file)]. *)
Definition readLibRequired (env : Env) (file : jsstring) : process jsstring :=
  match readLib env file with
  | Some text => ret text
  | None =>
      let! _ := console_error
                  (str "Missing required library: " ++ file ++ str " in "
                   ++ libsDir env ++ str "." ++ [cu_lf]
                   ++ str "Run: npm run fetch:libs" ++ [cu_lf]
                   ++ str "or:  node ./scripts/fetch-libs.js") in
      process_exit 1
  end.

(** The text of the page template of [generateHtml], in the pieces its
    placeholders cut it into.  In these texts a backquote stands for the
    double quote of the source. *)
Definition tpl (s : string) : jsstring :=
  map (fun c => if c =? 96 then cu_dquote else c) (str s).
Arguments tpl _%_string.

(** Up to the commit in the title. *)
Definition tpl_head : jsstring := tpl "
<!DOCTYPE html>
<html lang=`en`>
<head>
  <meta charset=`UTF-8`>
  <meta name=`viewport` content=`width=device-width, initial-scale=1.0`>
  <title>Commit ".

(** From the title to the first inlined style sheet. *)
Definition tpl_title_end : jsstring := tpl " Diff</title>
  <style>".

(** Between the two inlined style sheets. *)
Definition tpl_style_sep : jsstring := tpl "</style>
  <style>".

(** The page style, up to the commit in the heading. *)
Definition tpl_page_style : jsstring := tpl "</style>
  <style>
    body {
      font-family: Arial, sans-serif;
      margin: 20px;
    }
    h1 {
      color: #333;
    }
    .commit-meta {
      background: #f6f8fa;
      border: 1px solid #d0d7de;
      border-radius: 6px;
      padding: 12px 16px;
      margin-top: 8px;
      white-space: pre-wrap; /* preserve newlines in message */
    }
    #diff-container {
      margin-top: 20px;
    }
  </style>
</head>
<body>
  <h1>Changes in Commit ".

(** From the heading to the commit message. *)
Definition tpl_message_open : jsstring := tpl "</h1>
  <div class=`commit-meta` id=`commit-message`>".

(** From the commit message to the inlined script. *)
Definition tpl_message_close : jsstring := tpl "</div>
  <div id=`diff-container`></div>
  <script>".

(** The start of the bootstrap script, up to the diff string. *)
Definition tpl_bootstrap_open : jsstring := tpl "</script>
  <script>
    document.addEventListener('DOMContentLoaded', function() {
      const diffString = '".

(** The rest of the bootstrap script and of the page. *)
Definition tpl_bootstrap_rest : jsstring := tpl "'
      const targetElement = document.getElementById('diff-container')
      const configuration = {
        drawFileList: true,
        matching: 'lines',
        outputFormat: 'side-by-side',
        highlight: true,
        synchronisedScroll: true,
        fileListToggle: true,
        fileListStartVisible: false,
        fileContentToggle: true,
        stickyFileHeaders: true,
        colorScheme: 'auto'
      }

      const diff2htmlUi = new Diff2HtmlUI(targetElement, diffString, configuration)
      diff2htmlUi.draw()
      diff2htmlUi.highlightCode()
      diff2htmlUi.synchronisedScroll()
    })
  </script>
</body>
</html>
  ".

(** The template literal of [generateHtml], with the values of its
    placeholders. *)
Definition page_template
    (commit cssHighlight cssDiff2Html message jsDiff2Html diff : jsstring)
    : jsstring :=
  tpl_head ++ commit ++ tpl_title_end ++ cssHighlight ++ tpl_style_sep
  ++ cssDiff2Html ++ tpl_page_style ++ commit ++ tpl_message_open ++ message
  ++ tpl_message_close ++ jsDiff2Html ++ tpl_bootstrap_open ++ diff
  ++ tpl_bootstrap_rest.

(** [generateHtml(commit, commitMessage, diffOutput)]. *)
Definition generateHtml (env : Env) (commit commitMessage diffOutput : jsstring)
    : process jsstring :=
  let escapedDiff := escapedDiff diffOutput in
  let escapedMessage := escapeHtml commitMessage in
  let! cssHighlight := readLibRequired env (str "highlightjs-github.min.css") in
  let! cssDiff2Html := readLibRequired env (str "diff2html.min.css") in
  let! jsDiff2Html := readLibRequired env (str "diff2html-ui.min.js") in
  ret (trim (page_template commit
               (safeInline cssHighlight (str "style"))
               (safeInline cssDiff2Html (str "style"))
               (or_else escapedMessage (str "No commit message"))
               (safeInline jsDiff2Html (str "script"))
               escapedDiff)).

(** [generateStaticHtml(commit, commitMessage, diffOutput)]. *)
Definition generateStaticHtml (env : Env)
    (commit commitMessage diffOutput : jsstring) : process jsstring :=
  let! base := generateHtml env commit commitMessage diffOutput in
  let dom := jsdom env base in
  match wait_for_render dom (date_now env) wait_budget with
  | None => fun w => (Hang, w)
  | Some (_, t) => ret (serialize (stripScripts (dom_at dom t)))
  end.

(** The [isStatic] constant of [main]. *)
Definition main_isStatic (env : Env) : bool :=
  existsb (jsstring_eqb (str "--static")) (skipn 2 (argv env)).

(** The [commit] constant of [main]:
    [positional[0] || getLastCommitHash()]. *)
Definition main_commit (env : Env) : process jsstring :=
  let args := skipn 2 (argv env) in
  let positional := List.filter (fun a => negb (startsWith_dash a)) args in
  match positional with
  | (_ :: _) as first :: _ => ret first
  | [] :: _ | [] => getLastCommitHash env
  end.

(** The [outputFile] constant of [main]. *)
Definition main_outputFile (commit : jsstring) : jsstring :=
  str "commit-" ++ commit ++ str "-diff.html".

(** [main()]. *)
Definition main (env : Env) : process unit :=
  let isStatic := main_isStatic env in
  let! commit := main_commit env in
  let! _ := console_log
              (str "Generating " ++ (if isStatic then str "static " else [])
               ++ str "diff for commit: " ++ commit) in
  let! commitMessage := getCommitMessage env commit in
  let! diffOutput := getCommitDiff env commit in
  let! html :=
    if isStatic
    then generateStaticHtml env commit commitMessage diffOutput
    else generateHtml env commit commitMessage diffOutput in
  let outputFile := main_outputFile commit in
  let! _ := writeFileSync env outputFile html in
  console_log ((if isStatic then str "Static (no JS) " else [])
               ++ str "HTML file created: " ++ outputFile).

(** The run: [main().catch((e) => { console.error(e); process.exit(1) })].
    Gives the exit status, if the process ends. *)
Definition run (env : Env) (w : World) : option Z * World :=
  match main env w with
  | (Ret _, w') => (Some 0%Z, w')
  | (Exit code, w') => (Some code, w')
  | (Throw message, w') => (Some 1%Z, add_stderr message w')
  | (Hang, w') => (None, w')
  end.

(** ** Sample surroundings, for the examples *)

Definition empty_world : World :=
  {| commands := []; files := ∅; written := []; stdout := []; stderr := [] |}.

(** A page that never renders anything, with timers that fire on time. *)
Definition never_rendered : Rendering :=
  {| dom_at := fun _ => []; load_at := None; lateness := fun _ => 0 |}.


(** A page whose container is filled from the start, and that kept its
    scripts. *)
Definition rendered_page : document :=
  [ Doctype (str "html");
    Element 0 (str "html") []
      [ Element 1 (str "body") []
          [ Element 2 (str "div") [(str "id", str "diff-container")]
              [ Element 3 (str "div") [(str "class", str "d2h-wrapper")] [] ];
            Element 4 (str "script") [] [Text (str "draw()")] ] ] ].

(** A repository in which every git command succeeds, with the three
    libraries in place. *)
Definition good_env (args : list jsstring) : Env :=
  {| argv := str "node" :: str "cli.js" :: args;
     execSync := fun cmd =>
       if jsstring_eqb cmd (str "git log --oneline -1")
       then inr (str "abc1234 Fix the parser" ++ [cu_lf])
       else if matches_at false (str "git log ") cmd
       then inr (str "  Fix the parser" ++ [cu_lf; cu_lf])
       else inr (str "diff --git a/x b/x" ++ [cu_lf]);
     libsDir := str "/opt/cli/libs";
     readLib := fun _ => Some (str "/* lib */");
     jsdom := fun _ => {| dom_at := fun _ => rendered_page; load_at := Some 3%Z;
                          lateness := fun _ => 0 |};
     date_now := 1000%Z;
     write_error := fun _ => None |}.

(** A repository in which the reference names no commit. *)
Definition bad_ref_env : Env :=
  {| argv := [str "node"; str "cli.js"; str "nosuchref"];
     execSync := fun _ => inl (str "Command failed");
     libsDir := str "/opt/cli/libs";
     readLib := fun _ => Some (str "/* lib */");
     jsdom := fun _ => never_rendered;
     date_now := 0%Z;
     write_error := fun _ => None |}.

(** The same, with the error message as Node makes it: the command line,
    then what git wrote on its error stream. *)
Definition unknown_revision_env : Env :=
  {| argv := [str "node"; str "cli.js"; str "nosuchref"];
     execSync := fun cmd =>
       inl (str "Command failed: " ++ cmd ++ [cu_lf]
            ++ str "fatal: bad revision 'nosuchref'" ++ [cu_lf]);
     libsDir := str "/opt/cli/libs";
     readLib := fun _ => Some (str "/* lib */");
     jsdom := fun _ => never_rendered;
     date_now := 0%Z;
     write_error := fun _ => None |}.

(** The first and the last piece of the template, as [trim] leaves them. *)
Definition page_first : jsstring := trimStart tpl_head.
Definition page_last : jsstring := trimEnd tpl_bootstrap_rest.

(** The page of [generateHtml], with the values of its placeholders. *)
Definition page
    (commit cssHighlight cssDiff2Html message jsDiff2Html diff : jsstring)
    : jsstring :=
  page_first ++ commit ++ tpl_title_end ++ cssHighlight ++ tpl_style_sep
  ++ cssDiff2Html ++ tpl_page_style ++ commit ++ tpl_message_open ++ message
  ++ tpl_message_close ++ jsDiff2Html ++ tpl_bootstrap_open ++ diff
  ++ page_last.

(** The tags of the page around the commit reference and around the commit
    message. *)
Definition title_element (commit : jsstring) : jsstring :=
  str "<title>Commit " ++ commit ++ str " Diff</title>".

Definition heading_element (commit : jsstring) : jsstring :=
  str "<h1>Changes in Commit " ++ commit ++ str "</h1>".

(** The statement of the bootstrap script that holds the diff text. *)
Definition diff_literal (body : jsstring) : jsstring :=
  str "const diffString = '" ++ body ++ str "'".

Definition message_element (content : jsstring) : jsstring :=
  tpl "<div class=`commit-meta` id=`commit-message`>" ++ content ++ str "</div>".

(** The page of the sample repository, for a commit without message. *)
Definition sample_page (commit : jsstring) : jsstring :=
  page commit (str "/* lib */") (str "/* lib */") (str "No commit message")
    (str "/* lib */") (str "diff").

(** ** Further definitions *)

(** The sample repository with three libraries that differ. *)
Definition labelled_libs_env : Env :=
  {| argv := argv (good_env [str "abc1234"]);
     execSync := execSync (good_env []);
     libsDir := str "/opt/cli/libs";
     readLib := fun file =>
       if jsstring_eqb file (str "diff2html-ui.min.js")
       then Some (str "/* script */ var s = '</SCRIPT>'")
       else if jsstring_eqb file (str "diff2html.min.css")
       then Some (str ".d2h-wrapper{}")
       else if jsstring_eqb file (str "highlightjs-github.min.css")
       then Some (str ".hljs{}")
       else None;
     jsdom := jsdom (good_env []);
     date_now := 1000%Z;
     write_error := fun _ => None |}.

(** Its page, for a commit without message. *)
Definition labelled_page : jsstring :=
  page (str "abc1234") (str ".hljs{}") (str ".d2h-wrapper{}")
    (str "No commit message") (str "/* script */ var s = '<\/script>'")
    (str "diff").

(** The four characters the escaping of the diff text replaces. *)
Definition is_diff_special (c : code_unit) : bool :=
  (c =? cu_backslash) || (c =? cu_squote) || (c =? cu_lf) || (c =? cu_cr).

(** The three files [generateHtml] asks [readLibRequired] for, in the order
    it reads them. *)
Definition required_libs : list jsstring :=
  [ str "highlightjs-github.min.css"; str "diff2html.min.css";
    str "diff2html-ui.min.js" ].

(** The first of them that is not in the library directory. *)
Definition first_missing (env : Env) : option jsstring :=
  List.find (fun file => match readLib env file with
                         | Some _ => false
                         | None => true
                         end) required_libs.

(** The same surroundings with other command-line arguments. *)
Definition with_args (args : list jsstring) (env : Env) : Env :=
  {| argv := nth 0 (argv env) [] :: nth 1 (argv env) [] :: args;
     execSync := execSync env;
     libsDir := libsDir env; readLib := readLib env; jsdom := jsdom env;
     date_now := date_now env; write_error := write_error env |}.

(** The tree without its script elements and what is below them. *)
Fixpoint prune (n : node) : list node :=
  match n with
  | Element i name attrs children =>
      if is_script name then []
      else [Element i name attrs (flat_map prune children)]
  | Text _ | Comment _ | Doctype _ => [n]
  end.

(** The identities of the elements that are not script elements. *)
Fixpoint other_elements (n : node) : list nat :=
  match n with
  | Element i name _ children =>
      (if is_script name then [] else [i]) ++ flat_map other_elements children
  | Text _ | Comment _ | Doctype _ => []
  end.

(** The tree without the elements whose identity is in [l]. *)
Fixpoint remove_all_in (l : list nat) (n : node) : list node :=
  match n with
  | Element i name attrs children =>
      if existsb (Nat.eqb i) l then []
      else [Element i name attrs (flat_map (remove_all_in l) children)]
  | Text _ | Comment _ | Doctype _ => [n]
  end.

(** What [readLibRequired] prints for a missing file. *)
Definition missing_library_message (env : Env) (file : jsstring) : jsstring :=
  str "Missing required library: " ++ file ++ str " in " ++ libsDir env
  ++ str "." ++ [cu_lf] ++ str "Run: npm run fetch:libs" ++ [cu_lf]
  ++ str "or:  node ./scripts/fetch-libs.js".

(** The two lines [main] prints. *)
Definition generating_line (env : Env) (commit : jsstring) : jsstring :=
  str "Generating " ++ (if main_isStatic env then str "static " else [])
  ++ str "diff for commit: " ++ commit.

Definition created_line (env : Env) (commit : jsstring) : jsstring :=
  (if main_isStatic env then str "Static (no JS) " else [])
  ++ str "HTML file created: " ++ main_outputFile commit.

(** The world of [main] once the commit is chosen and both git commands have
    run. *)
Definition after_git (env : Env) (commit : jsstring) (w1 : World) : World :=
  add_command (diff_command commit)
    (add_command (message_command commit)
       (add_stdout (generating_line env commit) w1)).

(** The sample repository without one of its libraries. *)
Definition missing_lib_env : Env :=
  {| argv := argv (good_env [str "abc1234"]);
     execSync := execSync (good_env []);
     libsDir := str "/opt/cli/libs";
     readLib := fun file =>
       if jsstring_eqb file (str "diff2html.min.css") then None
       else Some (str "/* lib */");
     jsdom := jsdom (good_env []);
     date_now := 1000%Z;
     write_error := fun _ => None |}.

(** The sample repository in a directory that cannot be written. *)
Definition read_only_env : Env :=
  {| argv := argv (good_env [str "abc1234"]);
     execSync := execSync (good_env []);
     libsDir := str "/opt/cli/libs";
     readLib := readLib (good_env []);
     jsdom := jsdom (good_env []);
     date_now := 1000%Z;
     write_error := fun _ =>
       Some {| failure_message := str "EACCES: permission denied";
               failure_leaves := None |} |}.

(** The sample repository on a full disk: the output file is opened, and so
    emptied, before the write fails. *)
Definition full_disk_env : Env :=
  {| argv := argv (good_env [str "abc1234"]);
     execSync := execSync (good_env []);
     libsDir := str "/opt/cli/libs";
     readLib := readLib (good_env []);
     jsdom := jsdom (good_env []);
     date_now := 1000%Z;
     write_error := fun _ =>
       Some {| failure_message := str "ENOSPC: no space left on device";
               failure_leaves := Some [] |} |}.

(** A working directory that holds the page of an earlier run and another
    file. *)
Definition earlier_run_world : World :=
  {| commands := [];
     files := <[str "commit-abc1234-diff.html" := str "<!DOCTYPE html>old"]>
                (<[str "notes.txt" := str "keep"]> ∅);
     written := []; stdout := []; stderr := [] |}.


(** ** The script that fetches the libraries ([scripts/fetch-libs.js]) *)

Module FetchLibs.

(** What [fetch(url)] gives: a rejected promise, or a response. *)
Inductive response : Type :=
  | Rejected (message : jsstring)
  | Response (ok : bool) (status statusText body : jsstring).

(** What the script finds around it. *)
Record Env : Type := {
  package_json : option (option jsstring);
    (* package.json of the repository: unreadable, or its
       dependencies.diff2html if it has one *)
  installed_version : option jsstring;
    (* the version in node_modules/diff2html/package.json, if readable *)
  mkdir_error : option jsstring;        (* why libs cannot be created *)
  fetch : jsstring -> response;
  write_error : jsstring -> option write_failure
    (* how the write of a file of libs fails, if it does *)
}.

(** What the script leaves behind. *)
Record World : Type := {
  libs : gmap jsstring jsstring;   (* the files of the libs directory, by name *)
  requests : list jsstring;        (* the urls fetched, in order *)
  stdout : jsstring;               (* the text written on the output stream *)
  stderr : list jsstring;          (* console.error calls, one entry each *)
  exitCode : option Z              (* process.exitCode *)
}.

Inductive result (A : Type) : Type :=
  | Ok (a : A)
  | Thrown (message : jsstring).
Arguments Ok {A} a.
Arguments Thrown {A} message.

Definition write_stdout (text : jsstring) (w : World) : World :=
  {| libs := libs w; requests := requests w; stdout := stdout w ++ text;
     stderr := stderr w; exitCode := exitCode w |}.

Definition console_log (line : jsstring) (w : World) : World :=
  write_stdout (line ++ [cu_lf]) w.

Definition console_error (line : jsstring) (w : World) : World :=
  {| libs := libs w; requests := requests w; stdout := stdout w;
     stderr := stderr w ++ [line]; exitCode := exitCode w |}.

Definition set_exitCode (code : Z) (w : World) : World :=
  {| libs := libs w; requests := requests w; stdout := stdout w;
     stderr := stderr w; exitCode := Some code |}.

(** The three states of the scan for [/^\^|~|>=?\s*/g]: outside a match,
    after the [>] of the third alternative, and in its white space. *)
Inductive scan : Type :=
  | Outside
  | AfterGreater
  | InSpace.

(** Outside a match: is the character the start of one ([^] only as the
    first character of the text), and in which state does it leave? *)
Definition scan_outside (first : bool) (c : code_unit) : bool * scan :=
  if first && (c =? 94) then (true, Outside)          (* ^ *)
  else if c =? 126 then (true, Outside)               (* ~ *)
  else if c =? cu_gt then (true, AfterGreater)
  else (false, Outside).

(** [spec.replace(/^\^|~|>=?\s*/g, '')]. *)
Fixpoint strip_range (first : bool) (state : scan) (s : jsstring) : jsstring :=
  match s with
  | [] => []
  | c :: s' =>
      let step :=
        match state with
        | Outside => scan_outside first c
        | AfterGreater =>
            if c =? 61 then (true, InSpace)            (* = *)
            else if is_js_whitespace c then (true, InSpace)
            else scan_outside false c
        | InSpace =>
            if is_js_whitespace c then (true, InSpace)
            else scan_outside false c
        end in
      (if fst step then [] else [c]) ++ strip_range false (snd step) s'
  end.

(** [getDiff2HtmlVersion()]. *)
Definition getDiff2HtmlVersion (env : Env) : result jsstring :=
  match package_json env with
  | None => Thrown (str "Cannot read package.json")
  | Some dependency =>
      let spec := match dependency with
                  | Some ((_ :: _) as d) => d
                  | Some [] | None => str "latest"
                  end in
      match installed_version env with
      | Some ((_ :: _) as version) => Ok version
      | Some [] | None =>
          Ok (or_else (strip_range true Outside spec) (str "latest"))
      end
  end.

Record asset : Type := { url : jsstring; out : jsstring }.

(** The [assets] constant of [main]; [out] is the name of the file in the
    libs directory. *)
Definition assets (diff2htmlVersion : jsstring) : list asset :=
  [ {| url := str "https://cdn.jsdelivr.net/npm/diff2html@" ++ diff2htmlVersion
              ++ str "/bundles/js/diff2html-ui.min.js";
       out := str "diff2html-ui.min.js" |};
    {| url := str "https://cdn.jsdelivr.net/npm/diff2html@" ++ diff2htmlVersion
              ++ str "/bundles/css/diff2html.min.css";
       out := str "diff2html.min.css" |};
    {| url := str "https://cdnjs.cloudflare.com/ajax/libs/highlight.js/"
              ++ str "11.9.0" ++ str "/styles/github.min.css";
       out := str "highlightjs-github.min.css" |} ].

(** The libs directory after a write under [name]: [Some text] puts the
    file there with that content, [None] leaves the directory as it is. *)
Definition put (name : jsstring) (content : option jsstring)
    (m : gmap jsstring jsstring) : gmap jsstring jsstring :=
  match content with
  | Some text => <[name := text]> m
  | None => m
  end.

(** [download(url, destPath)].  When [fsp.writeFile] fails, the file may
    have been created or emptied already. *)
Definition download (env : Env) (a : asset) (w : World) : result unit * World :=
  let w1 := {| libs := libs w; requests := requests w ++ [url a];
               stdout := stdout w; stderr := stderr w; exitCode := exitCode w |} in
  match fetch env (url a) with
  | Rejected message => (Thrown message, w1)
  | Response false status statusText _ =>
      (Thrown (str "Failed to fetch " ++ url a ++ str ": " ++ status ++ str " "
               ++ statusText), w1)
  | Response true _ _ body =>
      match write_error env (out a) with
      | Some failure =>
          (Thrown (failure_message failure),
           {| libs := put (out a) (failure_leaves failure) (libs w1);
              requests := requests w1; stdout := stdout w1;
              stderr := stderr w1; exitCode := exitCode w1 |})
      | None =>
          (Ok tt,
           {| libs := <[out a := body]> (libs w1); requests := requests w1;
              stdout := stdout w1; stderr := stderr w1; exitCode := exitCode w1 |})
      end
  end.

(** The body of the loop of [main], for one asset. *)
Definition fetch_one (env : Env) (w : World) (a : asset) : World :=
  let w1 := write_stdout (str "- " ++ out a ++ str " <- " ++ url a ++ str " ... ") w in
  match download env a w1 with
  | (Ok _, w2) => console_log (str "OK") w2
  | (Thrown message, w2) =>
      set_exitCode 1 (console_error message (console_log (str "FAIL") w2))
  end.

(** [main()]. *)
Definition main (env : Env) (w : World) : result unit * World :=
  match getDiff2HtmlVersion env with
  | Thrown message => (Thrown message, w)
  | Ok diff2htmlVersion =>
      match mkdir_error env with
      | Some message => (Thrown message, w)
      | None =>
          let w1 := console_log (str "Fetching assets to libs ...") w in
          let w2 := fold_left (fetch_one env) (assets diff2htmlVersion) w1 in
          (Ok tt, console_log (str "Done.") w2)
      end
  end.

(** The run: [main().catch((e) => { console.error(e); process.exit(1) })];
    gives the exit status. *)
Definition run (env : Env) (w : World) : Z * World :=
  match main env w with
  | (Ok _, w') => (match exitCode w' with Some code => code | None => 0%Z end, w')
  | (Thrown message, w') => (1%Z, console_error message w')
  end.

(** What [download] stores for an asset: the body of the response, when
    the response is ok and the file can be written. *)
Definition fetched (env : Env) (a : asset) : option jsstring :=
  match fetch env (url a) with
  | Response true _ _ body =>
      match write_error env (out a) with
      | Some _ => None
      | None => Some body
      end
  | Response false _ _ _ | Rejected _ => None
  end.

(** What the attempt on an asset puts under its name: the body of the
    response when it is stored, what a failed write leaves, and nothing
    ([None]: the file, if any, is as it was) when the response is not ok,
    the fetch is rejected, or the file could not be opened. *)
Definition left_by (env : Env) (a : asset) : option jsstring :=
  match fetch env (url a) with
  | Response true _ _ body =>
      match write_error env (out a) with
      | Some failure => failure_leaves failure
      | None => Some body
      end
  | Response false _ _ _ | Rejected _ => None
  end.

(** The libs directory after the attempt on an asset. *)
Definition store (env : Env) (m : gmap jsstring jsstring) (a : asset)
    : gmap jsstring jsstring :=
  put (out a) (left_by env a) m.

End FetchLibs.

(** The surroundings of the command-line tool when its library directory is
    the one the script filled. *)
Definition env_with_libs (libs : gmap jsstring jsstring) (env : Env) : Env :=
  {| argv := argv env; execSync := execSync env; libsDir := libsDir env;
     readLib := fun file => libs !! file; jsdom := jsdom env;
     date_now := date_now env; write_error := write_error env |}.

(** A network on which everything is found, and one on which the style
    sheet of the diff viewer is not. *)
Definition good_network : FetchLibs.Env :=
  {| FetchLibs.package_json := Some (Some (str "^3.4.48"));
     FetchLibs.installed_version := None;
     FetchLibs.mkdir_error := None;
     FetchLibs.fetch := fun url => FetchLibs.Response true (str "200") (str "OK") url;
     FetchLibs.write_error := fun _ => None |}.

Definition bad_network : FetchLibs.Env :=
  {| FetchLibs.package_json := Some (Some (str ">= 3.4.0"));
     FetchLibs.installed_version := Some (str "3.4.52");
     FetchLibs.mkdir_error := None;
     FetchLibs.fetch := fun url =>
       if occurs false (str "diff2html.min.css") url
       then FetchLibs.Response false (str "404") (str "Not Found") []
       else FetchLibs.Response true (str "200") (str "OK") url;
     FetchLibs.write_error := fun _ => None |}.

Definition empty_libs : FetchLibs.World :=
  {| FetchLibs.libs := ∅; FetchLibs.requests := []; FetchLibs.stdout := [];
     FetchLibs.stderr := []; FetchLibs.exitCode := None |}.

(** A network on which the highlight theme is not found, with a disk that
    fills up while the style sheet of the diff viewer is written: that file
    is opened, and so emptied, before the write fails. *)
Definition flaky_network : FetchLibs.Env :=
  {| FetchLibs.package_json := Some (Some (str "~3.4.48"));
     FetchLibs.installed_version := Some [];
     FetchLibs.mkdir_error := None;
     FetchLibs.fetch := fun url =>
       if occurs false (str "github.min.css") url
       then FetchLibs.Response false (str "404") (str "Not Found") []
       else FetchLibs.Response true (str "200") (str "OK") url;
     FetchLibs.write_error := fun name =>
       if jsstring_eqb name (str "diff2html.min.css")
       then Some {| failure_message := str "ENOSPC: no space left on device";
                    failure_leaves := Some [] |}
       else None |}.

(** A libs directory that holds the three libraries of an earlier fetch and
    a file of its own. *)
Definition earlier_libs : FetchLibs.World :=
  {| FetchLibs.libs :=
       <[str "diff2html-ui.min.js" := str "old script"]>
         (<[str "diff2html.min.css" := str "old style"]>
            (<[str "highlightjs-github.min.css" := str "old theme"]>
               (<[str "README" := str "keep"]> ∅)));
     FetchLibs.requests := []; FetchLibs.stdout := [];
     FetchLibs.stderr := []; FetchLibs.exitCode := None |}.

(** Repositories for the cases of [getDiff2HtmlVersion]: no diff2html among
    the dependencies, and a range of which the cleaning leaves nothing. *)
Definition no_dependency : FetchLibs.Env :=
  {| FetchLibs.package_json := Some None;
     FetchLibs.installed_version := None;
     FetchLibs.mkdir_error := None;
     FetchLibs.fetch := FetchLibs.fetch good_network;
     FetchLibs.write_error := fun _ => None |}.

Definition open_range : FetchLibs.Env :=
  {| FetchLibs.package_json := Some (Some (str ">= "));
     FetchLibs.installed_version := None;
     FetchLibs.mkdir_error := None;
     FetchLibs.fetch := FetchLibs.fetch good_network;
     FetchLibs.write_error := fun _ => None |}.

(** * Properties *)

(** ** Single-character replacements *)

Ltac case_cu c k :=
  let E := fresh "E" in
  destruct (N.eqb_spec c k) as [E | E]; [subst c | ].

Lemma replace_global_single (p : code_unit) (rep s : jsstring) :
  replace_global false [p] rep s
  = flat_map (fun c => if c =? p then rep else [c]) s.
Proof.
  unfold replace_global.
  induction s as [| c s IH]; [reflexivity | ].
  cbn [replace_from matches_at length Nat.pred flat_map].
  unfold char_matches, canonicalize.
  rewrite andb_true_r, (N.eqb_sym p c).
  destruct (c =? p); rewrite IH; reflexivity.
Qed.

Lemma flat_map_compose {A B C : Type} (f : A -> list B) (g : B -> list C)
    (l : list A) :
  flat_map g (flat_map f l) = flat_map (fun x => flat_map g (f x)) l.
Proof.
  induction l as [| x l IH]; [reflexivity | ].
  cbn [flat_map]. rewrite flat_map_app, IH. reflexivity.
Qed.

Lemma escapeHtml_flat_map (s : jsstring) :
  escapeHtml s = flat_map html_entity s.
Proof.
  unfold escapeHtml. cbv zeta.
  rewrite !replace_global_single, !flat_map_compose.
  apply flat_map_ext. intros c. unfold html_entity.
  case_cu c cu_amp; [reflexivity | ].
  case_cu c cu_lt; [reflexivity | ].
  case_cu c cu_gt; [reflexivity | ].
  case_cu c cu_dquote; [reflexivity | ].
  case_cu c cu_squote; [reflexivity | ].
  cbn [flat_map app].
  repeat match goal with
         | H : c <> ?k |- context [c =? ?k] =>
             rewrite (proj2 (N.eqb_neq c k) H); cbn [flat_map app]
         end.
  reflexivity.
Qed.

Lemma escapedDiff_flat_map (d : jsstring) :
  escapedDiff d = flat_map diff_escape d.
Proof.
  unfold escapedDiff. cbv zeta.
  rewrite !replace_global_single, !flat_map_compose.
  apply flat_map_ext. intros c. unfold diff_escape.
  case_cu c cu_backslash; [reflexivity | ].
  case_cu c cu_squote; [reflexivity | ].
  case_cu c cu_lf; [reflexivity | ].
  case_cu c cu_cr; [reflexivity | ].
  cbn [flat_map app].
  repeat match goal with
         | H : c <> ?k |- context [c =? ?k] =>
             rewrite (proj2 (N.eqb_neq c k) H); cbn [flat_map app]
         end.
  reflexivity.
Qed.

Example escapedDiff_sample :
  escapedDiff (str "a\b'c" ++ [cu_lf; cu_cr]) = str "a\\b\'c\n\r".
Proof. reflexivity. Qed.

Example safeInline_sample :
  safeInline (str "x</SCRIPT>y</script>") (str "script")
  = str "x<\/script>y<\/script>".
Proof. reflexivity. Qed.

Example escapeHtml_sample :
  escapeHtml (str "a&b<c>'" ++ [cu_dquote])
  = str "a&amp;b&lt;c&gt;&#39;&quot;".
Proof. reflexivity. Qed.

(** ** The diff text in the script string literal *)

Lemma decodeSingleQuoted_escape (c : code_unit) (rest : jsstring) :
  decodeSingleQuoted (diff_escape c ++ rest)
  = option_map (cons c) (decodeSingleQuoted rest).
Proof.
  unfold diff_escape.
  case_cu c cu_backslash; [reflexivity | ].
  case_cu c cu_squote; [reflexivity | ].
  case_cu c cu_lf; [reflexivity | ].
  case_cu c cu_cr; [reflexivity | ].
  cbn [app decodeSingleQuoted].
  repeat match goal with
         | H : c <> ?k |- context [c =? ?k] => rewrite (proj2 (N.eqb_neq c k) H)
         end.
  reflexivity.
Qed.

Lemma diff_escape_one_line (c x : code_unit) :
  In x (diff_escape c) -> x <> cu_lf /\ x <> cu_cr.
Proof.
  unfold diff_escape.
  case_cu c cu_backslash; [cbn; intuition (subst; discriminate) | ].
  case_cu c cu_squote; [cbn; intuition (subst; discriminate) | ].
  case_cu c cu_lf; [cbn; intuition (subst; discriminate) | ].
  case_cu c cu_cr; [cbn; intuition (subst; discriminate) | ].
  cbn. intros [<- | []]. split; assumption.
Qed.

(** ** The commit message in the page body *)

Definition is_html_meta (c : code_unit) : bool :=
  (c =? cu_amp) || (c =? cu_lt) || (c =? cu_gt) || (c =? cu_dquote)
  || (c =? cu_squote).

(** An ampersand at the head of [t] starts one of the five entities. *)
Definition amp_starts_entity (t : jsstring) : bool :=
  match t with
  | c :: _ => if c =? cu_amp then
                match entity_at t with Some _ => true | None => false end
              else true
  | [] => true
  end.

Lemma all_suffixes_split (P : jsstring -> bool) (pre t : jsstring) :
  all_suffixes P (pre ++ t) = true -> t <> [] -> P t = true.
Proof.
  induction pre as [| c pre IH]; cbn [app].
  - destruct t as [| c t]; [congruence | ].
    cbn [all_suffixes]. intros H _. apply andb_true_iff in H. tauto.
  - cbn [all_suffixes]. intros H Ht. apply andb_true_iff in H. tauto.
Qed.

Lemma html_entity_cases (c : code_unit) :
  (is_html_meta c = false /\ html_entity c = [c])
  \/ (c = cu_amp /\ html_entity c = str "&amp;")
  \/ (c = cu_lt /\ html_entity c = str "&lt;")
  \/ (c = cu_gt /\ html_entity c = str "&gt;")
  \/ (c = cu_dquote /\ html_entity c = str "&quot;")
  \/ (c = cu_squote /\ html_entity c = str "&#39;").
Proof.
  unfold html_entity, is_html_meta.
  case_cu c cu_amp; [tauto | ].
  case_cu c cu_lt; [tauto | ].
  case_cu c cu_gt; [tauto | ].
  case_cu c cu_dquote; [tauto | ].
  case_cu c cu_squote; [tauto | ].
  left.
  repeat match goal with
         | H : c <> ?k |- context [c =? ?k] => rewrite (proj2 (N.eqb_neq c k) H)
         end.
  split; reflexivity.
Qed.

Lemma matches_at_head_ne (i : bool) (p c : code_unit) (pat s : jsstring) :
  char_matches i p c = false -> matches_at i (p :: pat) (c :: s) = false.
Proof. intros H. cbn [matches_at]. rewrite H. reflexivity. Qed.

Lemma entity_at_not_amp (c : code_unit) (rest : jsstring) :
  c <> cu_amp -> entity_at (c :: rest) = None.
Proof.
  intros Hc.
  assert (Hm : char_matches false cu_amp c = false).
  { unfold char_matches, canonicalize. apply N.eqb_neq. congruence. }
  unfold entity_at, html_entities.
  change (str "&amp;") with (cu_amp :: str "amp;").
  change (str "&lt;") with (cu_amp :: str "lt;").
  change (str "&gt;") with (cu_amp :: str "gt;").
  change (str "&quot;") with (cu_amp :: str "quot;").
  change (str "&#39;") with (cu_amp :: str "#39;").
  cbn [entity_lookup].
  rewrite !(matches_at_head_ne false cu_amp c _ rest Hm). reflexivity.
Qed.

Lemma parseHtmlText_entity (c : code_unit) (rest : jsstring) :
  parseHtmlText O (html_entity c ++ rest)
  = option_map (cons c) (parseHtmlText O rest).
Proof.
  destruct (html_entity_cases c) as [[Hm ->] | Hc].
  - unfold is_html_meta in Hm.
    repeat (apply orb_false_iff in Hm as [Hm ?]).
    cbn [app parseHtmlText].
    replace (c =? cu_lt) with false by (symmetry; assumption).
    rewrite entity_at_not_amp by (apply N.eqb_neq; assumption).
    reflexivity.
  - destruct Hc as [[-> ->] | [[-> ->] | [[-> ->] | [[-> ->] | [-> ->]]]]];
      reflexivity.
Qed.

Lemma html_entity_clean (c x : code_unit) :
  In x (html_entity c) ->
  x <> cu_lt /\ x <> cu_gt /\ x <> cu_dquote /\ x <> cu_squote.
Proof.
  destruct (html_entity_cases c) as [[Hm ->] | Hc].
  - intros [<- | []]. unfold is_html_meta in Hm.
    repeat (apply orb_false_iff in Hm as [Hm ?]).
    repeat split; apply N.eqb_neq; assumption.
  - destruct Hc as [[-> ->] | [[-> ->] | [[-> ->] | [[-> ->] | [-> ->]]]]];
      cbn; intuition (subst; discriminate).
Qed.

Lemma all_suffixes_entity (c : code_unit) (rest : jsstring) :
  all_suffixes amp_starts_entity rest = true ->
  all_suffixes amp_starts_entity (html_entity c ++ rest) = true.
Proof.
  intros Hrest.
  destruct (html_entity_cases c) as [[Hm ->] | Hc].
  - unfold is_html_meta in Hm.
    repeat (apply orb_false_iff in Hm as [Hm ?]).
    cbn [app all_suffixes amp_starts_entity]. rewrite Hm, Hrest. reflexivity.
  - destruct Hc as [[-> ->] | [[-> ->] | [[-> ->] | [[-> ->] | [-> ->]]]]];
      cbn; exact Hrest.
Qed.

(** C3.  [escapeHtml] replaces each of the five metacharacters by its entity
    and nothing else, once (the ampersands of the entities are not escaped
    again); what comes out holds no [<], [>], double or single quote, every
    ampersand in it starts one of the five entities, and an HTML parser reads
    it as text and gets the message back. *)
Theorem escapeHtml_literal_text (commitMessage : jsstring) :
  escapeHtml commitMessage = flat_map html_entity commitMessage
  /\ (forall c, In c (escapeHtml commitMessage) ->
        c <> cu_lt /\ c <> cu_gt /\ c <> cu_dquote /\ c <> cu_squote)
  /\ (forall pre post, escapeHtml commitMessage = pre ++ cu_amp :: post ->
        exists len v, entity_at (cu_amp :: post) = Some (len, v))
  /\ parseHtmlText O (escapeHtml commitMessage) = Some commitMessage.
Proof.
  rewrite escapeHtml_flat_map. split; [reflexivity | ]. split; [ | split].
  - intros x Hx. apply in_flat_map in Hx as (c & _ & Hc).
    exact (html_entity_clean c x Hc).
  - intros pre post Heq.
    assert (Hall : all_suffixes amp_starts_entity
                     (flat_map html_entity commitMessage) = true).
    { clear. induction commitMessage as [| c m IH]; [reflexivity | ].
      cbn [flat_map]. apply all_suffixes_entity, IH. }
    rewrite Heq in Hall.
    apply all_suffixes_split in Hall; [ | discriminate].
    unfold amp_starts_entity in Hall. rewrite N.eqb_refl in Hall.
    destruct (entity_at (cu_amp :: post)) as [[len v] | ]; [eauto | discriminate].
  - induction commitMessage as [| c m IH]; [reflexivity | ].
    cbn [flat_map]. rewrite parseHtmlText_entity, IH. reflexivity.
Qed.

(** ** Closing tags inside inlined assets *)

Section ReplaceEscapes.
(** A pattern [p0 :: tail] replaced by [r0 :: rest], where no character of
    the pattern's tail matches [r0], no character of [rest] matches [p0],
    and the pattern does not match the replacement text. *)
Variables (i : bool) (p0 r0 : code_unit) (tail rest : jsstring).
Hypothesis tail_avoids_r0 :
  forallb (fun q => negb (char_matches i q r0)) tail = true.
Hypothesis rest_avoids_p0 :
  forallb (fun r => negb (char_matches i p0 r)) rest = true.
Hypothesis rep_no_match :
  forall t, matches_at i (p0 :: tail) (r0 :: rest ++ t) = false.

Let pat := p0 :: tail.
Let rep := r0 :: rest.

Lemma occurs_skip_prefix (l t : jsstring) :
  forallb (fun r => negb (char_matches i p0 r)) l = true ->
  occurs i pat (l ++ t) = occurs i pat t.
Proof using Type.
  induction l as [| r l IH]; [reflexivity | ].
  cbn [forallb]. intros H. apply andb_true_iff in H as [Hr Hl].
  cbn [app occurs]. rewrite (IH Hl).
  unfold pat. cbn [matches_at].
  apply negb_true_iff in Hr. rewrite Hr. reflexivity.
Qed.

Lemma occurs_rep (t : jsstring) :
  occurs i pat (rep ++ t) = occurs i pat t.
Proof using rest_avoids_p0 rep_no_match.
  unfold rep. cbn [app occurs].
  rewrite (occurs_skip_prefix rest t rest_avoids_p0).
  unfold pat at 1. rewrite rep_no_match. reflexivity.
Qed.

(** What the output starts with, after a kept character, was already in
    the input. *)
Lemma matches_tail_output (q s : jsstring) :
  forallb (fun x => negb (char_matches i x r0)) q = true ->
  matches_at i q (replace_from i pat rep O s) = true ->
  matches_at i q s = true.
Proof using Type.
  revert q. induction s as [| c s IH]; intros q Hq.
  - cbn [replace_from]. trivial.
  - destruct q as [| x q]; [reflexivity | ].
    cbn [forallb] in Hq. apply andb_true_iff in Hq as [Hx Hq].
    apply negb_true_iff in Hx.
    cbn [replace_from].
    destruct (matches_at i pat (c :: s)).
    + unfold rep. cbn [app matches_at]. rewrite Hx. discriminate.
    + cbn [matches_at]. intros H. apply andb_true_iff in H as [Hc Hs].
      rewrite Hc, (IH q Hq Hs). reflexivity.
Qed.

Lemma replace_from_no_occurrence (k : nat) (s : jsstring) :
  occurs i pat (replace_from i pat rep k s) = false.
Proof using tail_avoids_r0 rest_avoids_p0 rep_no_match.
  revert k. induction s as [| c s IH]; intros k.
  - reflexivity.
  - destruct k as [| k]; cbn [replace_from]; [ | apply IH].
    destruct (matches_at i pat (c :: s)) eqn:Hm.
    + rewrite occurs_rep. apply IH.
    + cbn [occurs]. rewrite IH, orb_false_r.
      destruct (matches_at i pat (c :: replace_from i pat rep O s)) eqn:Ho;
        [ | reflexivity].
      unfold pat in Ho, Hm. cbn [matches_at] in Ho, Hm.
      apply andb_true_iff in Ho as [Hc Ho].
      rewrite Hc, (matches_tail_output tail s tail_avoids_r0 Ho) in Hm.
      discriminate.
Qed.
End ReplaceEscapes.

Section ReplaceKeeps.
Variables (i : bool) (p0 : code_unit) (tail rep : jsstring).
Let pat := p0 :: tail.

Lemma matches_at_firstn (q s : jsstring) :
  matches_at i q s = true ->
  length (firstn (length q) s) = length q
  /\ matches_at i q (firstn (length q) s) = true.
Proof using Type.
  revert s. induction q as [| p q IH]; intros s.
  - split; reflexivity.
  - destruct s as [| c s]; [discriminate | ].
    cbn [matches_at length firstn]. intros H.
    apply andb_true_iff in H as [Hc Hs].
    destruct (IH s Hs) as [Hlen Hm].
    rewrite Hlen, Hc, Hm. split; reflexivity.
Qed.

Lemma replace_from_escaped_of (k : nat) (s : jsstring) :
  escaped_of i pat rep (skipn k s) (replace_from i pat rep k s).
Proof using Type.
  revert k. induction s as [| c s IH]; intros k.
  - rewrite skipn_nil. constructor.
  - destruct k as [| k]; cbn [replace_from skipn]; [ | apply IH].
    destruct (matches_at i pat (c :: s)) eqn:Hm.
    + destruct (matches_at_firstn _ _ Hm) as [Hlen Hfirst].
      rewrite <- (firstn_skipn (length pat) (c :: s)) at 1.
      apply escaped_match; [assumption | assumption | ].
      unfold pat. cbn [length skipn Nat.pred]. apply IH.
    + apply escaped_keep, (IH O).
Qed.
End ReplaceKeeps.

Lemma matches_at_upper (pat m : jsstring) :
  length m = length pat ->
  matches_at true pat m = true ->
  map ascii_upper m = map ascii_upper pat.
Proof.
  revert m. induction pat as [| p q IH]; intros [| c m] Hlen Hm;
    try discriminate; [reflexivity | ].
  cbn [matches_at] in Hm. apply andb_true_iff in Hm as [Hc Hm].
  unfold char_matches, canonicalize in Hc. apply N.eqb_eq in Hc.
  cbn [map]. rewrite Hc, (IH m); [reflexivity | | assumption].
  cbn [length] in Hlen. congruence.
Qed.

Lemma escaped_of_sublist (pat rep s t : jsstring) :
  map ascii_upper pat `sublist_of` map ascii_upper rep ->
  escaped_of true pat rep s t ->
  map ascii_upper s `sublist_of` map ascii_upper t.
Proof.
  intros Hrep H. induction H as [| c s t _ IH | m s t Hlen Hm _ IH].
  - constructor.
  - cbn [map]. apply sublist_skip, IH.
  - rewrite !map_app, (matches_at_upper pat m Hlen Hm).
    apply sublist_app; assumption.
Qed.

Lemma is_subsequence_tail (y : code_unit) (a b : jsstring) :
  is_subsequence (y :: a) b = true -> is_subsequence a b = true.
Proof.
  revert y a. induction b as [| x b IH]; intros y a; [discriminate | ].
  cbn [is_subsequence]. intros H.
  destruct a as [| z a]; [reflexivity | ].
  destruct (y =? x); destruct (z =? x); eauto.
Qed.

Lemma sublist_is_subsequence (a b : jsstring) :
  a `sublist_of` b -> is_subsequence a b = true.
Proof.
  induction 1 as [| x a b _ IH | x a b _ IH].
  - reflexivity.
  - cbn [is_subsequence]. rewrite N.eqb_refl. exact IH.
  - destruct a as [| y a]; [reflexivity | ].
    cbn [is_subsequence]. destruct (y =? x); [ | exact IH].
    exact (is_subsequence_tail y a b IH).
Qed.

Ltac sublist_by_scan :=
  vm_compute;
  repeat first [apply sublist_nil | apply sublist_skip | apply sublist_cons].

Lemma safeInline_script (c : code_unit) (content : jsstring) :
  safeInline (c :: content) (str "script")
  = replace_global true (str "</script>") (str "<\/script>") (c :: content).
Proof. reflexivity. Qed.

Lemma safeInline_style (c : code_unit) (content : jsstring) :
  safeInline (c :: content) (str "style")
  = replace_global true (str "</style>") (str "<\/style>") (c :: content).
Proof. reflexivity. Qed.

(** The claim as it is written fails on an upper-case closing tag: the tag is
    matched whatever its case and replaced by the lower-case escaped tag, so
    the asset text [</SCRIPT>] is no longer in the output. *)
Lemma safeInline_lowers_tag_case :
  occurs true (str "</script>") (str "</SCRIPT>") = true
  /\ safeInline (str "</SCRIPT>") (str "script") = str "<\/script>"
  /\ ~ (str "</SCRIPT>" `sublist_of` safeInline (str "</SCRIPT>") (str "script")).
Proof.
  split; [reflexivity | ]. split; [reflexivity | ].
  intros H. apply sublist_is_subsequence in H. vm_compute in H. discriminate.
Qed.

(** C2, amended.  Whatever the asset text, the output of [safeInline] for the
    kind [script] (for the kind [style]) holds no [</script>] (no [</style>]) in
    any letter case; it is the asset text with closing tags replaced by the
    lower-case escaped tag and every other code unit kept, so up to the letter
    case of the replaced tags the whole asset text is still in it, in
    order. *)
Theorem safeInline_no_closing_tag (content : jsstring) :
  (occurs true (str "</script>") (safeInline content (str "script")) = false
   /\ escaped_of true (str "</script>") (str "<\/script>")
        content (safeInline content (str "script"))
   /\ map ascii_upper content
        `sublist_of` map ascii_upper (safeInline content (str "script")))
  /\ (occurs true (str "</style>") (safeInline content (str "style")) = false
      /\ escaped_of true (str "</style>") (str "<\/style>")
           content (safeInline content (str "style"))
      /\ map ascii_upper content
           `sublist_of` map ascii_upper (safeInline content (str "style"))).
Proof.
  destruct content as [| c content].
  { repeat split; try reflexivity; constructor. }
  rewrite safeInline_script, safeInline_style. unfold replace_global.
  split.
  - assert (He : escaped_of true (str "</script>") (str "<\/script>")
                   (c :: content)
                   (replace_from true (str "</script>") (str "<\/script>") O
                      (c :: content))).
    { exact (replace_from_escaped_of true cu_lt (str "/script>")
               (str "<\/script>") O (c :: content)). }
    split; [ | split; [exact He | ]].
    + apply (replace_from_no_occurrence true cu_lt cu_lt (str "/script>")
               (str "\/script>")); try reflexivity.
    + refine (escaped_of_sublist _ _ _ _ _ He). sublist_by_scan.
  - assert (He : escaped_of true (str "</style>") (str "<\/style>")
                   (c :: content)
                   (replace_from true (str "</style>") (str "<\/style>") O
                      (c :: content))).
    { exact (replace_from_escaped_of true cu_lt (str "/style>")
               (str "<\/style>") O (c :: content)). }
    split; [ | split; [exact He | ]].
    + apply (replace_from_no_occurrence true cu_lt cu_lt (str "/style>")
               (str "\/style>")); try reflexivity.
    + refine (escaped_of_sublist _ _ _ _ _ He). sublist_by_scan.
Qed.

(** ** Removing the scripts of the rendered document *)

Lemma node_induction (P : node -> Prop) :
  (forall i name attrs children,
      Forall P children -> P (Element i name attrs children)) ->
  (forall data, P (Text data)) ->
  (forall data, P (Comment data)) ->
  (forall name, P (Doctype name)) ->
  forall n, P n.
Proof.
  intros HE HT HC HD. fix IH 1. intros [i name attrs children | d | d | d].
  - apply HE. induction children as [| c children IHc]; constructor.
    + apply IH.
    + exact IHc.
  - apply HT.
  - apply HC.
  - apply HD.
Qed.









(** ** The wait is bounded *)


Lemma earliest_in (d : Z) (ds : list Z) : In (earliest d ds) (d :: ds).
Proof.
  unfold earliest. induction ds as [| y ds IH]; cbn [fold_right].
  - left. reflexivity.
  - destruct (Z.min_spec y (fold_right Z.min d ds)) as [[_ ->] | [_ ->]].
    + right. left. reflexivity.
    + destruct IH as [IH | IH]; [left; exact IH | right; right; exact IH].
Qed.

Lemma cancel_subset (d x : Z) (ds : list Z) : In x (cancel d ds) -> In x ds.
Proof.
  induction ds as [| y ds IH]; cbn [cancel]; [tauto | ].
  destruct (y =? d)%Z; cbn [In]; tauto.
Qed.

Lemma list_sum_map_cons (f : Z -> nat) (d : Z) (ds : list Z) :
  list_sum (map f (d :: ds)) = (f d + list_sum (map f ds))%nat.
Proof. reflexivity. Qed.

Lemma cancel_budget (f : Z -> nat) (d : Z) (ds : list Z) :
  In d ds ->
  (list_sum (map f (cancel d ds)) + f d = list_sum (map f ds))%nat.
Proof.
  induction ds as [| y ds IH]; [intros [] | ].
  cbn [cancel]. destruct (Z.eqb_spec y d) as [-> | Hne].
  - intros _. rewrite list_sum_map_cons. lia.
  - intros [-> | Hin]; [congruence | ].
    rewrite !list_sum_map_cons. specialize (IH Hin). lia.
Qed.

Lemma chain_budget_positive (start due : Z) : (1 <= chain_budget start due)%nat.
Proof.
  unfold chain_budget. destruct (Z.gtb_spec (due - start) 5000) as [_ | Hin]; [lia | ].
  assert (Ha : (0 <= (5000 - (due - start)) / 25)%Z) by (apply Z.div_pos; lia). lia.
Qed.

(** A check that asks for another one leaves its chain with less to spend. *)
Lemma chain_budget_decreases (start due t : Z) :
  (due <= t)%Z -> (t - start <= 5000)%Z ->
  (chain_budget start (t + 25) < chain_budget start due)%nat.
Proof.
  intros Hdue Ht. unfold chain_budget.
  destruct (Z.gtb_spec (due - start) 5000) as [Hover | _]; [lia | ].
  assert (Ha : (0 <= (5000 - (due - start)) / 25)%Z) by (apply Z.div_pos; lia).
  destruct (Z.gtb_spec (t + 25 - start) 5000) as [_ | Hin]; [lia | ].
  assert (Hb : (0 <= (5000 - (t + 25 - start)) / 25)%Z) by (apply Z.div_pos; lia).
  assert (Hc : ((5000 - (t + 25 - start)) / 25 + 1 <= (5000 - (due - start)) / 25)%Z).
  { replace (5000 - (due - start))%Z
      with ((5000 - (due + 25 - start)) + 1 * 25)%Z by lia.
    rewrite Z.div_add by lia.
    assert ((5000 - (t + 25 - start)) / 25 <= (5000 - (due + 25 - start)) / 25)%Z
      by (apply Z.div_le_mono; lia).
    lia. }
  lia.
Qed.

Lemma chain_budget_after_load (start t : Z) :
  (start <= t)%Z -> (chain_budget start (t + 10) <= 201)%nat.
Proof.
  intros Ht. unfold chain_budget.
  destruct (Z.gtb_spec (t + 10 - start) 5000) as [_ | Hin]; [lia | ].
  assert (Ha : ((5000 - (t + 10 - start)) / 25 <= 4990 / 25)%Z)
    by (apply Z.div_le_mono; lia).
  change (4990 / 25)%Z with 199%Z in Ha.
  assert (Hb : (0 <= (5000 - (t + 10 - start)) / 25)%Z) by (apply Z.div_pos; lia).
  lia.
Qed.

Lemma check_cases (start t : Z) (d : document) :
  (check start t d = Resolve
   /\ (diff_rendered d = true \/ (t - start > 5000)%Z))
  \/ (check start t d = Again 25
      /\ diff_rendered d = false /\ (t - start <= 5000)%Z).
Proof.
  unfold check. destruct (diff_rendered d); [left; tauto | ].
  destruct (Z.gtb_spec (t - start) 5000); [left | right];
    (split; [reflexivity | ]); [right; lia | split; [reflexivity | lia]].
Qed.

Lemma list_sum_map_snoc (f : Z -> nat) (a : list Z) (x : Z) :
  list_sum (map f (a ++ [x])) = (list_sum (map f a) + f x)%nat.
Proof. rewrite map_app, list_sum_app. cbn. lia. Qed.

Section Wait.
Variables (r : Rendering) (start : Z).

Lemma run_loop_settles (fuel : nat) (l : Loop) :
  loop_ok r start l ->
  (loop_budget start l <= fuel)%nat ->
  exists ps t,
    run_loop r start fuel l = Some (ps, t)
    /\ (diff_rendered (dom_at r t) = true \/ (t - start > 5000)%Z)
    /\ (forall p, In p ps ->
          diff_rendered (dom_at r p) = false /\ (p - start <= 5000)%Z).
Proof using Type.
  revert l. induction fuel as [| fuel IH]; intros l (Hnow & Htimers & Hpolls) Hfuel.
  - exfalso. unfold loop_budget in Hfuel.
    destruct (timers l) as [| d ds]; [congruence | ].
    rewrite list_sum_map_cons in Hfuel.
    pose proof (chain_budget_positive start d). lia.
  - cbn [run_loop]. unfold next_event, loop_budget in *.
    destruct (timers l) as [| d ds] eqn:Et; [congruence | ].
    set (m := earliest d ds).
    assert (Hm : In m (d :: ds)) by apply earliest_in.
    pose proof (cancel_budget (chain_budget start) m (d :: ds) Hm) as Hsum.
    assert (Hcheck :
      exists ps t,
        match check start (Z.max (now l) m + Z.of_N (lateness r (ran l)))
                (dom_at r (Z.max (now l) m + Z.of_N (lateness r (ran l))))
        with
        | Resolve => Some (polls l, (Z.max (now l) m + Z.of_N (lateness r (ran l)))%Z)
        | Again delay =>
            run_loop r start fuel
              {| now := (Z.max (now l) m + Z.of_N (lateness r (ran l)))%Z;
                 timers := cancel m (d :: ds)
                           ++ [(Z.max (now l) m + Z.of_N (lateness r (ran l)) + delay)%Z];
                 load := load l; ran := S (ran l);
                 polls := polls l
                          ++ [(Z.max (now l) m + Z.of_N (lateness r (ran l)))%Z] |}
        end = Some (ps, t)
        /\ (diff_rendered (dom_at r t) = true \/ (t - start > 5000)%Z)
        /\ (forall p, In p ps ->
              diff_rendered (dom_at r p) = false /\ (p - start <= 5000)%Z)).
    { set (t := (Z.max (now l) m + Z.of_N (lateness r (ran l)))%Z).
      assert (Ht : (now l <= t /\ m <= t)%Z) by (unfold t; lia).
      destruct (check_cases start t (dom_at r t)) as [[-> Hres] | (-> & Hno & Hle)].
      - exists (polls l), t. auto.
      - apply IH.
        + unfold loop_ok. cbn [now timers polls]. split; [lia | ]. split.
          * intros H. apply app_eq_nil in H as [_ H]. discriminate.
          * intros p Hp. apply in_app_iff in Hp as [Hp | [<- | []]]; auto.
        + cbn [timers load].
          rewrite list_sum_map_snoc.
          pose proof (chain_budget_decreases start m t ltac:(lia) Hle).
          lia. }
    destruct (load l) as [e | ] eqn:El; [ | exact Hcheck].
    destruct (e <? m)%Z; [ | exact Hcheck].
    apply IH.
    + unfold loop_ok. cbn [now timers polls]. split; [lia | ]. split; [ | exact Hpolls].
      intros H. apply app_eq_nil in H as [_ H]. discriminate.
    + cbn [timers load].
      rewrite list_sum_map_snoc.
      pose proof (chain_budget_after_load start
                    (Z.max (now l) e + Z.of_N (lateness r (ran l))) ltac:(lia)).
      lia.
Qed.


Hypothesis on_time : forall n, lateness r n = 0.

End Wait.

Example run_good :
  fst (run (good_env [str "abc1234"]) empty_world) = Some 0%Z
  /\ map fst (written (snd (run (good_env [str "abc1234"]) empty_world)))
     = [str "commit-abc1234-diff.html"].
Proof. vm_compute. split; reflexivity. Qed.

Example run_good_static :
  fst (run (good_env [str "--static"]) empty_world) = Some 0%Z
  /\ commands (snd (run (good_env [str "--static"]) empty_world))
     = [ str "git log --oneline -1";
         str "git log -1 --format=%B abc1234";
         str "git --no-pager show --no-color --no-ext-diff --unified=3 --diff-algorithm=patience -M -C --ignore-cr-at-eol abc1234" ]
  /\ written (snd (run (good_env [str "--static"]) empty_world))
     = [ (str "commit-abc1234-diff.html",
          tpl "<!DOCTYPE html><html><body><div id=`diff-container`><div class=`d2h-wrapper`></div></div></body></html>") ].
Proof. vm_compute. repeat split; reflexivity. Qed.

Example run_bad_ref :
  run bad_ref_env empty_world
  = (Some 1%Z,
     {| commands := [str "git log -1 --format=%B nosuchref"]; files := ∅;
        written := [];
        stdout := [str "Generating diff for commit: nosuchref"];
        stderr := [str "Error getting commit message: Command failed"] |}).
Proof. vm_compute. reflexivity. Qed.


Lemma initial_loop_ok (r : Rendering) (start : Z) :
  loop_ok r start (initial_loop r start).
Proof.
  unfold loop_ok, initial_loop. cbn [now timers polls]. split; [lia | ].
  split; [discriminate | intros p []].
Qed.

Lemma initial_loop_budget (r : Rendering) (start : Z) :
  (loop_budget start (initial_loop r start) <= wait_budget)%nat.
Proof.
  unfold loop_budget, initial_loop. cbn [timers load].
  rewrite list_sum_map_cons. cbn [map list_sum fold_right].
  unfold chain_budget. replace (start + 20 - start)%Z with 20%Z by lia.
  change (20 >? 5000)%Z with false. cbv iota.
  change (Z.to_nat ((5000 - 20) / 25 + 2)) with 201%nat.
  destruct (load_at r); unfold wait_budget; lia.
Qed.


(** The promise is never left pending. *)
Lemma wait_for_render_resolves (r : Rendering) (start : Z) :
  exists polls t, wait_for_render r start wait_budget = Some (polls, t).
Proof.
  destruct (run_loop_settles r start wait_budget (initial_loop r start)
              (initial_loop_ok r start) (initial_loop_budget r start))
    as (ps & t & Hrun & _).
  exists ps, t. exact Hrun.
Qed.



(** ** The page *)

Lemma trimStart_app (a b : jsstring) :
  trimStart a <> [] -> trimStart (a ++ b) = trimStart a ++ b.
Proof.
  induction a as [| c a IH]; cbn [trimStart app]; [congruence | ].
  destruct (is_js_whitespace c); [exact IH | reflexivity].
Qed.

Lemma trimEnd_app (a b : jsstring) :
  trimEnd b <> [] -> trimEnd (a ++ b) = a ++ trimEnd b.
Proof.
  unfold trimEnd. intros Hb.
  rewrite rev_app_distr, trimStart_app, rev_app_distr, rev_involutive;
    [reflexivity | ].
  intros H. apply Hb. rewrite H. reflexivity.
Qed.

Lemma trim_page_template
    (commit cssHighlight cssDiff2Html message jsDiff2Html diff : jsstring) :
  trim (page_template commit cssHighlight cssDiff2Html message jsDiff2Html diff)
  = page commit cssHighlight cssDiff2Html message jsDiff2Html diff.
Proof.
  unfold trim, page_template, page.
  rewrite trimStart_app by (vm_compute; discriminate).
  fold page_first.
  repeat (rewrite (app_assoc _ _ (_ ++ tpl_bootstrap_rest))
          || rewrite (app_assoc _ _ tpl_bootstrap_rest)).
  rewrite trimEnd_app by (vm_compute; discriminate).
  fold page_last. rewrite <- !app_assoc. reflexivity.
Qed.

Lemma readLibRequired_cases (env : Env) (file : jsstring) (w : World) :
  (exists text, readLib env file = Some text
                /\ readLibRequired env file w = (Ret text, w))
  \/ (exists line, readLib env file = None
                   /\ readLibRequired env file w = (Exit 1, add_stderr line w)).
Proof.
  unfold readLibRequired. destruct (readLib env file) as [text | ].
  - left. exists text. split; reflexivity.
  - right. eexists. split; reflexivity.
Qed.

(** [generateHtml] returns the page, when the three libraries are there, and
    ends the process with status 1 when one is missing. *)
Lemma generateHtml_cases (env : Env) (commit commitMessage diffOutput : jsstring)
    (w : World) :
  (exists cssHighlight cssDiff2Html jsDiff2Html,
      readLib env (str "highlightjs-github.min.css") = Some cssHighlight
      /\ readLib env (str "diff2html.min.css") = Some cssDiff2Html
      /\ readLib env (str "diff2html-ui.min.js") = Some jsDiff2Html
      /\ generateHtml env commit commitMessage diffOutput w
         = (Ret (page commit
                   (safeInline cssHighlight (str "style"))
                   (safeInline cssDiff2Html (str "style"))
                   (or_else (escapeHtml commitMessage) (str "No commit message"))
                   (safeInline jsDiff2Html (str "script"))
                   (escapedDiff diffOutput)), w))
  \/ (exists line,
        generateHtml env commit commitMessage diffOutput w
        = (Exit 1, add_stderr line w)).
Proof.
  unfold generateHtml. cbv zeta. unfold bind.
  destruct (readLibRequired_cases env (str "highlightjs-github.min.css") w)
    as [(a & Ha & ->) | (line & _ & ->)]; [ | right; eauto].
  destruct (readLibRequired_cases env (str "diff2html.min.css") w)
    as [(b & Hb & ->) | (line & _ & ->)]; [ | right; eauto].
  destruct (readLibRequired_cases env (str "diff2html-ui.min.js") w)
    as [(c & Hc & ->) | (line & _ & ->)]; [ | right; eauto].
  left. exists a, b, c. unfold ret. rewrite trim_page_template. auto.
Qed.

Lemma escapeHtml_nonempty (commitMessage : jsstring) :
  commitMessage <> [] -> escapeHtml commitMessage <> [].
Proof.
  rewrite escapeHtml_flat_map.
  destruct commitMessage as [| c m]; [congruence | ]. intros _.
  cbn [flat_map].
  destruct (html_entity_cases c) as [[_ ->] | Hc]; [discriminate | ].
  destruct Hc as [[_ ->] | [[_ ->] | [[_ ->] | [[_ ->] | [_ ->]]]]]; discriminate.
Qed.

Lemma or_else_nonempty (a b : jsstring) : a <> [] -> or_else a b = a.
Proof. destruct a; [congruence | reflexivity]. Qed.

(** The page, cut at the element of the commit message. *)
Lemma page_message_element
    (commit cssHighlight cssDiff2Html message jsDiff2Html diff : jsstring) :
  page commit cssHighlight cssDiff2Html message jsDiff2Html diff
  = (page_first ++ commit ++ tpl_title_end ++ cssHighlight ++ tpl_style_sep
     ++ cssDiff2Html ++ tpl_page_style ++ commit ++ str "</h1>" ++ [cu_lf]
     ++ str "  ")
    ++ message_element message
    ++ (skipn 6 tpl_message_close ++ jsDiff2Html ++ tpl_bootstrap_open ++ diff
        ++ page_last).
Proof.
  unfold page, message_element.
  change tpl_message_open
    with ((str "</h1>" ++ [cu_lf] ++ str "  ")
          ++ tpl "<div class=`commit-meta` id=`commit-message`>").
  change tpl_message_close with (str "</div>" ++ skipn 6 tpl_message_close).
  rewrite <- !app_assoc. reflexivity.
Qed.

(** The page, cut at the title and at the heading. *)
Lemma page_commit_elements
    (commit cssHighlight cssDiff2Html message jsDiff2Html diff : jsstring) :
  page commit cssHighlight cssDiff2Html message jsDiff2Html diff
  = firstn 140 page_first
    ++ title_element commit
    ++ (skipn 13 tpl_title_end ++ cssHighlight ++ tpl_style_sep ++ cssDiff2Html
        ++ firstn 432 tpl_page_style)
    ++ heading_element commit
    ++ (skipn 5 tpl_message_open ++ message ++ tpl_message_close ++ jsDiff2Html
        ++ tpl_bootstrap_open ++ diff ++ page_last).
Proof.
  unfold page, title_element, heading_element.
  change page_first with (firstn 140 page_first ++ str "<title>Commit ").
  change tpl_title_end with (str " Diff</title>" ++ skipn 13 tpl_title_end).
  change tpl_page_style
    with (firstn 432 tpl_page_style ++ str "<h1>Changes in Commit ").
  change tpl_message_open with (str "</h1>" ++ skipn 5 tpl_message_open).
  rewrite <- !app_assoc. reflexivity.
Qed.

(** The page, cut at the string literal of the diff text. *)
Lemma page_diff_literal
    (commit cssHighlight cssDiff2Html message jsDiff2Html diff : jsstring) :
  page commit cssHighlight cssDiff2Html message jsDiff2Html diff
  = (page_first ++ commit ++ tpl_title_end ++ cssHighlight ++ tpl_style_sep
     ++ cssDiff2Html ++ tpl_page_style ++ commit ++ tpl_message_open ++ message
     ++ tpl_message_close ++ jsDiff2Html ++ firstn 90 tpl_bootstrap_open)
    ++ diff_literal diff
    ++ skipn 1 page_last.
Proof.
  unfold page, diff_literal.
  change tpl_bootstrap_open
    with (firstn 90 tpl_bootstrap_open ++ str "const diffString = '").
  change page_last with (str "'" ++ skipn 1 page_last).
  rewrite <- !app_assoc. reflexivity.
Qed.

(** C1.  The escaped diff text (backslash, single quote, newline and carriage
    return replaced in that order) is the body of a one-line single-quoted
    string literal, and reading that literal gives back the diff text
    exactly; it is this text that the page holds between the quotes of its
    [diffString] literal. *)
Theorem escapedDiff_roundtrip (diffOutput : jsstring) :
  decodeSingleQuoted (escapedDiff diffOutput) = Some diffOutput
  /\ (forall c, In c (escapedDiff diffOutput) -> c <> cu_lf /\ c <> cu_cr)
  /\ (forall env commit commitMessage w,
        (exists before after,
            generateHtml env commit commitMessage diffOutput w
            = (Ret (before ++ diff_literal (escapedDiff diffOutput) ++ after), w))
        \/ (exists line,
              generateHtml env commit commitMessage diffOutput w
              = (Exit 1, add_stderr line w))).
Proof.
  split; [ | split].
  - rewrite escapedDiff_flat_map.
    induction diffOutput as [| c d IH]; [reflexivity | ].
    cbn [flat_map]. rewrite decodeSingleQuoted_escape, IH. reflexivity.
  - rewrite escapedDiff_flat_map.
    intros x Hx. apply in_flat_map in Hx as (c & _ & Hc).
    exact (diff_escape_one_line c x Hc).
  - intros env commit commitMessage w.
    destruct (generateHtml_cases env commit commitMessage diffOutput w)
      as [(a & b & c & _ & _ & _ & ->) | (line & ->)].
    + left. eexists _, _. rewrite page_diff_literal. reflexivity.
    + right. exists line. reflexivity.
Qed.

Lemma generateHtml_returns (env : Env) (commit commitMessage diffOutput : jsstring)
    (w : World) (html : jsstring) (w' : World) :
  generateHtml env commit commitMessage diffOutput w = (Ret html, w') ->
  w' = w
  /\ exists cssHighlight cssDiff2Html jsDiff2Html,
       readLib env (str "highlightjs-github.min.css") = Some cssHighlight
       /\ readLib env (str "diff2html.min.css") = Some cssDiff2Html
       /\ readLib env (str "diff2html-ui.min.js") = Some jsDiff2Html
       /\ forall commit2 message2 diff2,
            generateHtml env commit2 message2 diff2 w
            = (Ret (page commit2
                      (safeInline cssHighlight (str "style"))
                      (safeInline cssDiff2Html (str "style"))
                      (or_else (escapeHtml message2) (str "No commit message"))
                      (safeInline jsDiff2Html (str "script"))
                      (escapedDiff diff2)), w).
Proof.
  intros H.
  destruct (generateHtml_cases env commit commitMessage diffOutput w)
    as [(a & b & c & Ha & Hb & Hc & Heq) | (line & Heq)];
    rewrite Heq in H; [ | discriminate].
  injection H as _ <-. split; [reflexivity | ].
  exists a, b, c. repeat (split; [assumption | ]).
  intros commit2 message2 diff2.
  destruct (generateHtml_cases env commit2 message2 diff2 w)
    as [(a' & b' & c' & Ha' & Hb' & Hc' & Heq') | (line & Heq')].
  - rewrite Heq'. congruence.
  - exfalso. revert Heq'. unfold generateHtml, readLibRequired, bind, ret.
    cbv zeta. rewrite Ha, Hb, Hc. discriminate.
Qed.

Lemma trim_whitespace (s : jsstring) :
  forallb is_js_whitespace s = true -> trim s = [].
Proof.
  intros H. unfold trim.
  assert (Hs : trimStart s = []).
  { induction s as [| c s IH]; [reflexivity | ].
    cbn [forallb] in H. apply andb_true_iff in H as [Hc Hs].
    cbn [trimStart]. rewrite Hc. exact (IH Hs). }
  rewrite Hs. reflexivity.
Qed.

(** C9.  For an empty commit message the page holds the element of the commit
    message with the text [No commit message] in it; the same place holds
    the escaped message when there is one.  The message is empty whenever git
    prints only white space for it. *)
Theorem empty_message_shows_placeholder (env : Env) (commit diffOutput : jsstring)
    (w : World) (html : jsstring) (w' : World) :
  generateHtml env commit [] diffOutput w = (Ret html, w') ->
  exists before after,
    html = before ++ message_element (str "No commit message") ++ after
    /\ (forall commitMessage, commitMessage <> [] ->
          generateHtml env commit commitMessage diffOutput w
          = (Ret (before ++ message_element (escapeHtml commitMessage) ++ after),
             w'))
    /\ (forall out, execSync env (message_command commit) = inr out ->
          forallb is_js_whitespace out = true ->
          fst (getCommitMessage env commit w) = Ret []).
Proof.
  intros H.
  destruct (generateHtml_returns _ _ _ _ _ _ _ H)
    as (-> & a & b & c & _ & _ & _ & Hpage).
  rewrite Hpage in H. injection H as <-.
  eexists _, _. split; [apply page_message_element | ]. split.
  - intros m Hm. rewrite Hpage, <- page_message_element.
    rewrite (or_else_nonempty _ _ (escapeHtml_nonempty m Hm)). reflexivity.
  - intros out Hout Hws. unfold getCommitMessage, bind, exec, ret.
    rewrite Hout. cbn [fst]. rewrite (trim_whitespace out Hws). reflexivity.
Qed.

(** C9 in the sample repository. *)
Lemma empty_message_shows_placeholder_witness :
  exists before after,
    sample_page (str "abc1234")
    = before ++ message_element (str "No commit message") ++ after
    /\ (forall commitMessage, commitMessage <> [] ->
          generateHtml (good_env []) (str "abc1234") commitMessage (str "diff")
            empty_world
          = (Ret (before ++ message_element (escapeHtml commitMessage) ++ after),
             empty_world))
    /\ (forall out,
          execSync (good_env []) (message_command (str "abc1234")) = inr out ->
          forallb is_js_whitespace out = true ->
          fst (getCommitMessage (good_env []) (str "abc1234") empty_world) = Ret []).
Proof.
  apply (empty_message_shows_placeholder (good_env []) (str "abc1234") (str "diff")
           empty_world (sample_page (str "abc1234")) empty_world).
  vm_compute. reflexivity.
Defined.

(** C10.  The commit reference goes into the title and into the heading of the
    page as it is, whatever its characters: the rest of the page does not
    depend on it, and nothing of it is escaped. *)
Theorem commit_embedded_verbatim (env : Env)
    (commit commitMessage diffOutput : jsstring)
    (w : World) (html : jsstring) (w' : World) :
  generateHtml env commit commitMessage diffOutput w = (Ret html, w') ->
  exists before between after,
    html = before ++ title_element commit ++ between
           ++ heading_element commit ++ after
    /\ (forall other,
          generateHtml env other commitMessage diffOutput w
          = (Ret (before ++ title_element other ++ between
                  ++ heading_element other ++ after), w')).
Proof.
  intros H.
  destruct (generateHtml_returns _ _ _ _ _ _ _ H)
    as (-> & a & b & c & _ & _ & _ & Hpage).
  rewrite Hpage in H. injection H as <-.
  eexists _, _, _. split; [apply page_commit_elements | ].
  intros other. rewrite Hpage, <- page_commit_elements. reflexivity.
Qed.

(** C10 on a reference made of markup. *)
Lemma commit_embedded_verbatim_witness :
  exists before between after,
    sample_page (str "<b>HEAD</b>")
    = before ++ (str "<title>Commit " ++ str "<b>HEAD</b>" ++ str " Diff</title>")
      ++ between
      ++ (str "<h1>Changes in Commit " ++ str "<b>HEAD</b>" ++ str "</h1>")
      ++ after
    /\ (forall other,
          generateHtml (good_env []) other [] (str "diff") empty_world
          = (Ret (before ++ title_element other ++ between
                  ++ heading_element other ++ after), empty_world)).
Proof.
  apply (commit_embedded_verbatim (good_env []) (str "<b>HEAD</b>") [] (str "diff")
           empty_world (sample_page (str "<b>HEAD</b>")) empty_world).
  vm_compute. reflexivity.
Defined.

(** ** The run *)

Lemma bind_ret {A B : Type} (m : process A) (k : A -> process B) (w w1 : World)
    (a : A) :
  m w = (Ret a, w1) -> bind m k w = k a w1.
Proof. unfold bind. intros ->. reflexivity. Qed.

Lemma bind_exit {A B : Type} (m : process A) (k : A -> process B) (w w1 : World)
    (code : Z) :
  m w = (Exit code, w1) -> bind m k w = (Exit code, w1).
Proof. unfold bind. intros ->. reflexivity. Qed.

Lemma getLastCommitHash_cases (env : Env) (w : World) :
  let cmd := str "git log --oneline -1" in
  (exists out, execSync env cmd = inr out
               /\ getLastCommitHash env w
                  = (Ret (trim (split_space_first out)), add_command cmd w))
  \/ (exists message line,
        execSync env cmd = inl message
        /\ getLastCommitHash env w
           = (Exit 1, add_stderr line (add_command cmd w))).
Proof.
  cbv zeta. unfold getLastCommitHash, bind, exec, ret, console_error, process_exit.
  destruct (execSync env _) as [message | out]; [right | left]; eauto.
Qed.

Lemma getCommitMessage_cases (env : Env) (commit : jsstring) (w : World) :
  let cmd := message_command commit in
  (exists out, execSync env cmd = inr out
               /\ getCommitMessage env commit w
                  = (Ret (trim out), add_command cmd w))
  \/ (exists message line,
        execSync env cmd = inl message
        /\ getCommitMessage env commit w
           = (Exit 1, add_stderr line (add_command cmd w))).
Proof.
  cbv zeta. unfold getCommitMessage, bind, exec, ret, console_error, process_exit.
  destruct (execSync env _) as [message | out]; [right | left]; eauto.
Qed.

Lemma getCommitDiff_cases (env : Env) (commit : jsstring) (w : World) :
  let cmd := diff_command commit in
  (exists out, execSync env cmd = inr out
               /\ getCommitDiff env commit w = (Ret out, add_command cmd w))
  \/ (exists message line,
        execSync env cmd = inl message
        /\ getCommitDiff env commit w
           = (Exit 1, add_stderr line (add_command cmd w))).
Proof.
  cbv zeta. unfold getCommitDiff, bind, exec, ret, console_error, process_exit.
  destruct (execSync env _) as [message | out]; [right | left]; eauto.
Qed.

(** Choosing the commit writes no file; it fails only with status 1. *)
Lemma main_commit_cases (env : Env) (w : World) :
  exists w1,
    written w1 = written w /\ files w1 = files w
    /\ ((exists commit, main_commit env w = (Ret commit, w1))
        \/ main_commit env w = (Exit 1, w1)).
Proof.
  unfold main_commit. cbv zeta.
  assert (Hlast : exists w1,
            written w1 = written w /\ files w1 = files w
            /\ ((exists commit, getLastCommitHash env w = (Ret commit, w1))
                \/ getLastCommitHash env w = (Exit 1, w1))).
  { destruct (getLastCommitHash_cases env w)
      as [(out & _ & ->) | (message & line & _ & ->)]; eexists.
    - split; [ | split; [ | left; eexists; reflexivity]]; reflexivity.
    - split; [ | split; [ | right; reflexivity]]; reflexivity. }
  destruct (List.filter _ _) as [| [| c first] rest]; try exact Hlast.
  exists w. unfold ret. split; [reflexivity | ]. split; [reflexivity | ].
  left. eexists. reflexivity.
Qed.

(** The static renderer returns the serialized document, stripped of its
    scripts, or ends the process as [generateHtml] does. *)
Lemma generateStaticHtml_cases (env : Env)
    (commit commitMessage diffOutput : jsstring) (w : World) :
  (exists base polls t,
      generateHtml env commit commitMessage diffOutput w = (Ret base, w)
      /\ wait_for_render (jsdom env base) (date_now env) wait_budget
         = Some (polls, t)
      /\ generateStaticHtml env commit commitMessage diffOutput w
         = (Ret (serialize (stripScripts (dom_at (jsdom env base) t))), w))
  \/ (exists line,
        generateStaticHtml env commit commitMessage diffOutput w
        = (Exit 1, add_stderr line w)).
Proof.
  unfold generateStaticHtml.
  destruct (generateHtml_cases env commit commitMessage diffOutput w)
    as [(a & b & c & _ & _ & _ & Heq) | (line & Heq)].
  - left. rewrite (bind_ret _ _ _ _ _ Heq).
    destruct (wait_for_render_resolves (jsdom env (page commit
                (safeInline a (str "style")) (safeInline b (str "style"))
                (or_else (escapeHtml commitMessage) (str "No commit message"))
                (safeInline c (str "script")) (escapedDiff diffOutput)))
                (date_now env)) as (polls & t & Hwait).
    cbv zeta.
    rewrite Hwait. eexists _, polls, t.
    split; [exact Heq | split; [exact Hwait | reflexivity]].
  - right. rewrite (bind_exit _ _ _ _ _ Heq). eauto.
Qed.

(** What [main] does: either every step succeeds up to the page, which is
    then written (or the write throws); or a step ends the process with
    status 1 and nothing has been written. *)
Lemma main_cases (env : Env) (w : World) :
  (exists commit w1 out_message out_diff html w3,
      main_commit env w = (Ret commit, w1)
      /\ written w3 = written w /\ files w3 = files w
      /\ commands w3
         = commands w1 ++ [message_command commit; diff_command commit]
      /\ execSync env (message_command commit) = inr out_message
      /\ execSync env (diff_command commit) = inr out_diff
      /\ (if main_isStatic env
          then generateStaticHtml env commit (trim out_message) out_diff
          else generateHtml env commit (trim out_message) out_diff) w3
         = (Ret html, w3)
      /\ ((write_error env (main_outputFile commit) = None
           /\ exists line,
                main env w
                = (Ret tt, add_stdout line
                             (add_file (main_outputFile commit) html w3)))
          \/ (exists failure,
                write_error env (main_outputFile commit) = Some failure
                /\ main env w
                   = (Throw (failure_message failure),
                      leave_file (main_outputFile commit)
                        (failure_leaves failure) w3))))
  \/ (exists w',
        main env w = (Exit 1, w')
        /\ written w' = written w /\ files w' = files w).
Proof.
  unfold main. cbv zeta.
  destruct (main_commit_cases env w) as (w1 & Hw1 & Hf1 & [(commit & Hc) | Hc]).
  2: { right. exists w1. rewrite (bind_exit _ _ _ _ _ Hc). auto. }
  rewrite (bind_ret _ _ _ _ _ Hc).
  set (line1 := str "Generating " ++ _).
  rewrite (bind_ret (console_log line1) _ w1 (add_stdout line1 w1) tt eq_refl).
  set (w2 := add_stdout line1 w1).
  destruct (getCommitMessage_cases env commit w2)
    as [(out_message & Hm & Hgm) | (message & line & _ & Hgm)].
  2: { right. eexists. rewrite (bind_exit _ _ _ _ _ Hgm).
       split; [reflexivity | ]. split; assumption. }
  rewrite (bind_ret _ _ _ _ _ Hgm).
  destruct (getCommitDiff_cases env commit (add_command (message_command commit) w2))
    as [(out_diff & Hd & Hgd) | (message & line & _ & Hgd)].
  2: { right. eexists. rewrite (bind_exit _ _ _ _ _ Hgd).
       split; [reflexivity | ]. split; assumption. }
  rewrite (bind_ret _ _ _ _ _ Hgd).
  set (w3 := add_command (diff_command commit)
               (add_command (message_command commit) w2)).
  assert (Hgen :
    (exists html,
        (if main_isStatic env
         then generateStaticHtml env commit (trim out_message) out_diff
         else generateHtml env commit (trim out_message) out_diff) w3
        = (Ret html, w3))
    \/ (exists line,
          (if main_isStatic env
           then generateStaticHtml env commit (trim out_message) out_diff
           else generateHtml env commit (trim out_message) out_diff) w3
          = (Exit 1, add_stderr line w3))).
  { destruct (main_isStatic env).
    - destruct (generateStaticHtml_cases env commit (trim out_message) out_diff w3)
        as [(base & polls & t & _ & _ & ->) | (line & ->)]; eauto.
    - destruct (generateHtml_cases env commit (trim out_message) out_diff w3)
        as [(a & b & c & _ & _ & _ & ->) | (line & ->)]; eauto. }
  destruct Hgen as [(html & Hgen) | (line & Hgen)].
  2: { right. eexists. rewrite (bind_exit _ _ _ _ _ Hgen).
       split; [reflexivity | ]. split; assumption. }
  rewrite (bind_ret _ _ _ _ _ Hgen).
  left. exists commit, w1, out_message, out_diff, html, w3.
  split; [exact Hc | ]. split; [exact Hw1 | ]. split; [exact Hf1 | ].
  split; [unfold w3, w2; cbn [commands add_command add_stdout];
          rewrite <- app_assoc; reflexivity | ].
  split; [exact Hm | ]. split; [exact Hd | ]. split; [exact Hgen | ].
  unfold bind, writeFileSync, console_log.
  destruct (write_error env (main_outputFile commit)) as [failure | ].
  - right. exists failure. split; reflexivity.
  - left. split; [reflexivity | ]. eexists. reflexivity.
Qed.

(** A failed write adds no entry to [written]. *)
Lemma leave_file_written (path : jsstring) (left : option jsstring) (w : World) :
  written (leave_file path left w) = written w
  /\ commands (leave_file path left w) = commands w
  /\ stdout (leave_file path left w) = stdout w
  /\ stderr (leave_file path left w) = stderr w.
Proof. destruct left; repeat split; reflexivity. Qed.

Lemma run_cases (env : Env) (w : World) :
  (exists commit w1 out_message out_diff html w3 line,
      main_commit env w = (Ret commit, w1)
      /\ written w3 = written w /\ files w3 = files w
      /\ commands w3
         = commands w1 ++ [message_command commit; diff_command commit]
      /\ execSync env (message_command commit) = inr out_message
      /\ execSync env (diff_command commit) = inr out_diff
      /\ (if main_isStatic env
          then generateStaticHtml env commit (trim out_message) out_diff
          else generateHtml env commit (trim out_message) out_diff) w3
         = (Ret html, w3)
      /\ run env w
         = (Some 0%Z,
            add_stdout line (add_file (main_outputFile commit) html w3)))
  \/ (exists w',
        run env w = (Some 1%Z, w')
        /\ written w' = written w
        /\ (files w' = files w
            \/ exists commit w1 out_message out_diff failure,
                 main_commit env w = (Ret commit, w1)
                 /\ execSync env (message_command commit) = inr out_message
                 /\ execSync env (diff_command commit) = inr out_diff
                 /\ write_error env (main_outputFile commit) = Some failure)).
Proof.
  unfold run.
  destruct (main_cases env w)
    as [(commit & w1 & om & od & html & w3 & Hc & Hw & Hf & Hcmd & Hm & Hd
         & Hgen & [(_ & line & ->) | (failure & Hfail & ->)]) | (w' & -> & Hw & Hf)].
  - left. exists commit, w1, om, od, html, w3, line. auto 10.
  - right. eexists. split; [reflexivity | ].
    cbn [written add_stderr].
    rewrite (proj1 (leave_file_written _ _ _)).
    split; [exact Hw | ]. right. exists commit, w1, om, od, failure. auto.
  - right. exists w'. auto.
Qed.

(** C5.  When the subprocess that reads the message of the commit, or the one
    that extracts its diff, fails, the run ends with exit status 1 and has
    written no file: the files of the working directory are as they were. *)
Theorem unresolved_reference_writes_nothing (env : Env) (w : World)
    (commit : jsstring) (w1 : World) :
  main_commit env w = (Ret commit, w1) ->
  (exists message, execSync env (message_command commit) = inl message)
  \/ (exists message, execSync env (diff_command commit) = inl message) ->
  fst (run env w) = Some 1%Z
  /\ written (snd (run env w)) = written w
  /\ files (snd (run env w)) = files w.
Proof.
  intros Hc Hfail.
  destruct (run_cases env w)
    as [(commit' & w1' & om & od & html & w3 & line & Hc' & _ & _ & _ & Hm & Hd & _)
       | (w' & -> & Hw & [Hf | (commit' & w1' & om & od & failure & Hc' & Hm & Hd & _)])].
  - exfalso. rewrite Hc in Hc'. injection Hc' as <- _.
    destruct Hfail as [[message H] | [message H]]; congruence.
  - cbn [fst snd]. auto.
  - exfalso. rewrite Hc in Hc'. injection Hc' as <- _.
    destruct Hfail as [[message H] | [message H]]; congruence.
Qed.

(** C5 on a reference that names no commit. *)
Lemma unresolved_reference_writes_nothing_witness :
  fst (run bad_ref_env empty_world) = Some 1%Z
  /\ written (snd (run bad_ref_env empty_world)) = written empty_world
  /\ files (snd (run bad_ref_env empty_world)) = files empty_world.
Proof.
  apply (unresolved_reference_writes_nothing bad_ref_env empty_world
           (str "nosuchref") empty_world).
  - reflexivity.
  - left. exists (str "Command failed"). reflexivity.
Defined.

(** C6, as it is written, fails on the message: what [getCommitMessage]
    returns is not the raw output of the subprocess. *)
Lemma getCommitMessage_is_trimmed :
  execSync (good_env []) (message_command (str "abc1234"))
  = inr (str "  Fix the parser" ++ [cu_lf; cu_lf])
  /\ fst (getCommitMessage (good_env []) (str "abc1234") empty_world)
     = Ret (str "Fix the parser")
  /\ str "Fix the parser" <> str "  Fix the parser" ++ [cu_lf; cu_lf].
Proof. split; [reflexivity | ]. split; [reflexivity | discriminate]. Qed.

(** C6, amended.  [getCommitDiff] runs one command, git show on the commit
    with the flags for no pager, no color, no external diff, three lines of
    context, the patience algorithm, renames, copies, and carriage returns at
    the end of lines ignored, and returns its output as it is.
    [getCommitMessage] runs one command, git log with the format [%B] on the
    commit, and returns its output trimmed of the white space at both ends.
    Each ends the process with status 1 when its command fails. *)
Theorem diff_extractor_commands (env : Env) (commit : jsstring) (w : World) :
  diff_command commit
  = str "git --no-pager show --no-color --no-ext-diff --unified=3 --diff-algorithm=patience -M -C --ignore-cr-at-eol "
    ++ commit
  /\ commands (snd (getCommitDiff env commit w))
     = commands w ++ [diff_command commit]
  /\ (forall out, execSync env (diff_command commit) = inr out ->
        fst (getCommitDiff env commit w) = Ret out)
  /\ (forall message, execSync env (diff_command commit) = inl message ->
        fst (getCommitDiff env commit w) = Exit 1)
  /\ commands (snd (getCommitMessage env commit w))
     = commands w ++ [str "git log -1 --format=%B " ++ commit]
  /\ (forall out, execSync env (message_command commit) = inr out ->
        fst (getCommitMessage env commit w) = Ret (trim out))
  /\ (forall message, execSync env (message_command commit) = inl message ->
        fst (getCommitMessage env commit w) = Exit 1).
Proof.
  split; [reflexivity | ].
  destruct (getCommitDiff_cases env commit w)
    as [(od & Hd & Hgd) | (md & ld & Hd & Hgd)];
    destruct (getCommitMessage_cases env commit w)
      as [(om & Hm & Hgm) | (mm & lm & Hm & Hgm)];
    rewrite Hgd, Hgm; cbn [fst snd commands add_command add_stderr];
    repeat split; try reflexivity; intros x Hx; congruence.
Qed.

(** The amended C6 in the sample repository. *)
Lemma diff_extractor_commands_witness :
  commands (snd (getCommitDiff (good_env []) (str "abc1234") empty_world))
  = [str "git --no-pager show --no-color --no-ext-diff --unified=3 --diff-algorithm=patience -M -C --ignore-cr-at-eol abc1234"]
  /\ fst (getCommitDiff (good_env []) (str "abc1234") empty_world)
     = Ret (str "diff --git a/x b/x" ++ [cu_lf])
  /\ fst (getCommitMessage (good_env []) (str "abc1234") empty_world)
     = Ret (trim (str "  Fix the parser" ++ [cu_lf; cu_lf]))
  /\ fst (getCommitDiff bad_ref_env (str "nosuchref") empty_world) = Exit 1
  /\ fst (getCommitMessage bad_ref_env (str "nosuchref") empty_world) = Exit 1.
Proof.
  destruct (diff_extractor_commands (good_env []) (str "abc1234") empty_world)
    as (_ & Hcmd & Hout & _ & _ & Hmsg & _).
  destruct (diff_extractor_commands bad_ref_env (str "nosuchref") empty_world)
    as (_ & _ & _ & Hfail & _ & _ & Hfailm).
  split; [exact Hcmd | ].
  split; [apply Hout; reflexivity | ].
  split; [apply Hmsg; reflexivity | ].
  split; [apply (Hfail (str "Command failed")); reflexivity | ].
  apply (Hfailm (str "Command failed")); reflexivity.
Defined.







(** * Further properties of [cli.js] *)

(** ** Escaping, continued *)

Lemma html_entity_length (c : code_unit) :
  (1 <= length (html_entity c))%nat
  /\ (is_html_meta c = true -> 4 <= length (html_entity c))%nat
  /\ (is_html_meta c = true -> In cu_amp (html_entity c)).
Proof.
  destruct (html_entity_cases c) as [[Hm ->] | Hc].
  - rewrite Hm. cbn. repeat split; try lia; discriminate.
  - destruct Hc as [[-> ->] | [[-> ->] | [[-> ->] | [[-> ->] | [-> ->]]]]];
      cbn; repeat split; try lia; intros _; left; reflexivity.
Qed.

Lemma escapeHtml_length (s : jsstring) :
  (length s <= length (escapeHtml s))%nat
  /\ (existsb is_html_meta s = true ->
      length s < length (escapeHtml s) /\ In cu_amp (escapeHtml s))%nat.
Proof.
  rewrite escapeHtml_flat_map.
  induction s as [| c s [IHle IHlt]]; [split; [reflexivity | discriminate] | ].
  cbn [flat_map existsb length]. rewrite length_app.
  destruct (html_entity_length c) as (H1 & H4 & Hamp).
  split; [lia | ]. intros H. apply orb_true_iff in H as [H | H].
  - split; [specialize (H4 H); lia | ].
    apply in_app_iff. left. exact (Hamp H).
  - destruct (IHlt H) as [Hlt Hin]. split; [lia | ].
    apply in_app_iff. right. exact Hin.
Qed.

Lemma escapeHtml_clean (s : jsstring) :
  existsb is_html_meta s = false -> escapeHtml s = s.
Proof.
  rewrite escapeHtml_flat_map.
  induction s as [| c s IH]; [reflexivity | ].
  cbn [existsb flat_map]. intros H. apply orb_false_iff in H as [Hc Hs].
  destruct (html_entity_cases c) as [[_ ->] | Hm].
  - cbn [app]. rewrite (IH Hs). reflexivity.
  - exfalso.
    destruct Hm as [[-> _] | [[-> _] | [[-> _] | [[-> _] | [-> _]]]]];
      discriminate.
Qed.

(** X1.  [escapeHtml] works piece by piece: the escaped form of a
    concatenation is the concatenation of the escaped forms.  It never
    shortens its input, and it returns the input unchanged exactly when the
    input holds none of the five metacharacters. *)
Theorem escapeHtml_concat (a b : jsstring) :
  escapeHtml (a ++ b) = escapeHtml a ++ escapeHtml b
  /\ (length a <= length (escapeHtml a))%nat
  /\ (escapeHtml a = a <-> existsb is_html_meta a = false).
Proof.
  split; [ | split].
  - rewrite !escapeHtml_flat_map. apply flat_map_app.
  - apply escapeHtml_length.
  - split; [ | apply escapeHtml_clean].
    intros Heq. destruct (existsb is_html_meta a) eqn:E; [ | reflexivity].
    destruct (escapeHtml_length a) as [_ Hlt]. destruct (Hlt E) as [Hlen _].
    rewrite Heq in Hlen. lia.
Qed.

(** X2.  [escapeHtml] is not idempotent: escaping an escaped message again
    changes it as soon as the message holds a metacharacter (the ampersands of
    the entities are escaped in turn), and only then. *)
Theorem escapeHtml_twice (commitMessage : jsstring) :
  escapeHtml (escapeHtml commitMessage) = escapeHtml commitMessage
  <-> existsb is_html_meta commitMessage = false.
Proof.
  split.
  - intros Heq. destruct (existsb is_html_meta commitMessage) eqn:E; [ | reflexivity].
    destruct (escapeHtml_length commitMessage) as [_ H].
    destruct (H E) as [_ Hamp].
    assert (Hmeta : existsb is_html_meta (escapeHtml commitMessage) = true).
    { apply existsb_exists. exists cu_amp. split; [exact Hamp | reflexivity]. }
    destruct (escapeHtml_length (escapeHtml commitMessage)) as [_ H2].
    destruct (H2 Hmeta) as [Hlt _]. rewrite Heq in Hlt. lia.
  - intros E. rewrite (escapeHtml_clean commitMessage E).
    apply escapeHtml_clean, E.
Qed.

Lemma diff_escape_cases (c : code_unit) :
  (is_diff_special c = false /\ diff_escape c = [c])
  \/ (is_diff_special c = true /\ length (diff_escape c) = 2%nat
      /\ hd 0 (diff_escape c) = cu_backslash).
Proof.
  unfold diff_escape, is_diff_special.
  case_cu c cu_backslash; [right; repeat split | ].
  case_cu c cu_squote; [right; repeat split | ].
  case_cu c cu_lf; [right; repeat split | ].
  case_cu c cu_cr; [right; repeat split | ].
  left.
  repeat match goal with
         | H : c <> ?k |- context [c =? ?k] => rewrite (proj2 (N.eqb_neq c k) H)
         end.
  split; reflexivity.
Qed.

Lemma escapedDiff_length (d : jsstring) :
  length (escapedDiff d)
  = (length d + length (List.filter is_diff_special d))%nat.
Proof.
  rewrite escapedDiff_flat_map.
  induction d as [| c d IH]; [reflexivity | ].
  cbn [flat_map List.filter length]. rewrite length_app, IH.
  destruct (diff_escape_cases c) as [[-> ->] | (-> & -> & _)]; cbn [length]; lia.
Qed.

(** X3.  The escaping of the diff text works piece by piece, and the escaped
    text is longer than the diff text by exactly the number of its
    backslashes, single quotes, line feeds and carriage returns: at most
    twice as long, and the same text when there is none. *)
Theorem escapedDiff_concat (a b : jsstring) :
  escapedDiff (a ++ b) = escapedDiff a ++ escapedDiff b
  /\ length (escapedDiff a)
     = (length a + length (List.filter is_diff_special a))%nat
  /\ (length (escapedDiff a) <= 2 * length a)%nat
  /\ (escapedDiff a = a <-> existsb is_diff_special a = false).
Proof.
  split; [ | split; [apply escapedDiff_length | split]].
  - rewrite !escapedDiff_flat_map. apply flat_map_app.
  - rewrite escapedDiff_length.
    pose proof (List.filter_length_le is_diff_special a). lia.
  - split.
    + intros Heq. pose proof (escapedDiff_length a) as Hlen.
      rewrite Heq in Hlen.
      destruct (existsb is_diff_special a) eqn:E; [ | reflexivity].
      apply existsb_exists in E as (c & Hin & Hc).
      assert (Hf : In c (List.filter is_diff_special a))
        by (apply List.filter_In; split; assumption).
      destruct (List.filter is_diff_special a); [destruct Hf | cbn in Hlen; lia].
    + intros E. rewrite escapedDiff_flat_map.
      induction a as [| c a IH]; [reflexivity | ].
      cbn [existsb flat_map] in *. apply orb_false_iff in E as [Hc Ha].
      destruct (diff_escape_cases c) as [[_ ->] | (Hs & _)]; [ | congruence].
      cbn [app]. rewrite (IH Ha). reflexivity.
Qed.

(** ** Inlined assets, continued *)

Lemma replace_from_without_match (i : bool) (p0 : code_unit)
    (tail rep s : jsstring) :
  occurs i (p0 :: tail) s = false ->
  replace_from i (p0 :: tail) rep O s = s.
Proof.
  induction s as [| c s IH]; [reflexivity | ].
  cbn [occurs replace_from]. intros H. apply orb_false_iff in H as [Hm Hs].
  rewrite Hm, (IH Hs). reflexivity.
Qed.

Lemma safeInline_other_kind (content kind : jsstring) :
  kind <> str "script" -> kind <> str "style" -> safeInline content kind = content.
Proof.
  intros Hs Ht. unfold safeInline, jsstring_eqb.
  destruct content as [| c content]; [reflexivity | ].
  destruct (decide (kind = str "script")); [contradiction | ].
  destruct (decide (kind = str "style")); [contradiction | reflexivity].
Qed.

Lemma safeInline_script_no_occurrence (content : jsstring) :
  occurs true (str "</script>") (safeInline content (str "script")) = false.
Proof.
  destruct content as [| c content]; [reflexivity | ].
  rewrite safeInline_script.
  apply (replace_from_no_occurrence true cu_lt cu_lt (str "/script>")
           (str "\/script>")); reflexivity.
Qed.

Lemma safeInline_style_no_occurrence (content : jsstring) :
  occurs true (str "</style>") (safeInline content (str "style")) = false.
Proof.
  destruct content as [| c content]; [reflexivity | ].
  rewrite safeInline_style.
  apply (replace_from_no_occurrence true cu_lt cu_lt (str "/style>")
           (str "\/style>")); reflexivity.
Qed.

Lemma safeInline_script_unchanged (content : jsstring) :
  occurs true (str "</script>") content = false ->
  safeInline content (str "script") = content.
Proof.
  destruct content as [| c content]; [reflexivity | ].
  rewrite safeInline_script. unfold replace_global.
  apply (replace_from_without_match true cu_lt (str "/script>")).
Qed.

Lemma safeInline_style_unchanged (content : jsstring) :
  occurs true (str "</style>") content = false ->
  safeInline content (str "style") = content.
Proof.
  destruct content as [| c content]; [reflexivity | ].
  rewrite safeInline_style. unfold replace_global.
  apply (replace_from_without_match true cu_lt (str "/style>")).
Qed.

(** X4.  [safeInline] changes an asset only where it has to: for the kind
    [script] (for the kind [style]) the asset comes back unchanged exactly when
    it holds no [</script>] (no [</style>]) in any letter case, and for any
    other kind it always comes back unchanged. *)
Theorem safeInline_unchanged (content kind : jsstring) :
  (safeInline content (str "script") = content
   <-> occurs true (str "</script>") content = false)
  /\ (safeInline content (str "style") = content
      <-> occurs true (str "</style>") content = false)
  /\ (kind <> str "script" -> kind <> str "style" ->
      safeInline content kind = content).
Proof.
  split; [ | split; [ | apply safeInline_other_kind]].
  - split; [ | apply safeInline_script_unchanged].
    intros Heq. rewrite <- Heq. apply safeInline_script_no_occurrence.
  - split; [ | apply safeInline_style_unchanged].
    intros Heq. rewrite <- Heq. apply safeInline_style_no_occurrence.
Qed.

(** X5.  [safeInline] is idempotent, whatever the kind: an asset that went
    through it once goes through it again unchanged, so nothing is escaped
    twice. *)
Theorem safeInline_idempotent (content kind : jsstring) :
  safeInline (safeInline content kind) kind = safeInline content kind.
Proof.
  destruct (decide (kind = str "script")) as [-> | Hs].
  - apply safeInline_script_unchanged, safeInline_script_no_occurrence.
  - destruct (decide (kind = str "style")) as [-> | Ht].
    + apply safeInline_style_unchanged, safeInline_style_no_occurrence.
    + rewrite !(safeInline_other_kind _ kind Hs Ht). reflexivity.
Qed.

(** ** The stripped document, continued *)

Lemma remove_in_one (s : nat) (n : node) :
  remove_in s n = remove_all_in [s] n.
Proof.
  induction n as [i name attrs children IH | d | d | d] using node_induction;
    try reflexivity.
  cbn [remove_in remove_all_in existsb]. rewrite orb_false_r.
  destruct (Nat.eqb i s); [reflexivity | ].
  f_equal. f_equal.
  induction children as [| c children IHc]; [reflexivity | ].
  apply Forall_cons_iff in IH as [Hc Hrest].
  cbn [flat_map]. rewrite Hc, (IHc Hrest). reflexivity.
Qed.

Lemma remove_all_in_twice (l1 l2 : list nat) (n : node) :
  flat_map (remove_all_in l2) (remove_all_in l1 n) = remove_all_in (l1 ++ l2) n.
Proof.
  induction n as [i name attrs children IH | d | d | d] using node_induction;
    try reflexivity.
  cbn [remove_all_in]. rewrite existsb_app.
  destruct (existsb (Nat.eqb i) l1); [reflexivity | ].
  cbn [flat_map remove_all_in orb]. rewrite app_nil_r.
  destruct (existsb (Nat.eqb i) l2); [reflexivity | ].
  f_equal. f_equal. rewrite flat_map_compose.
  induction children as [| c children IHc]; [reflexivity | ].
  apply Forall_cons_iff in IH as [Hc Hrest].
  cbn [flat_map]. rewrite Hc, (IHc Hrest). reflexivity.
Qed.

Lemma remove_all_fold (l acc : list nat) (d : document) :
  fold_left (fun doc s => remove s doc) l (flat_map (remove_all_in acc) d)
  = flat_map (remove_all_in (acc ++ l)) d.
Proof.
  revert acc. induction l as [| s l IH]; intros acc; cbn [fold_left].
  - rewrite app_nil_r. reflexivity.
  - unfold remove at 2. rewrite flat_map_compose.
    replace (flat_map (fun x => flat_map (remove_in s) (remove_all_in acc x)) d)
      with (flat_map (remove_all_in (acc ++ [s])) d).
    + rewrite IH, <- app_assoc. reflexivity.
    + apply flat_map_ext. intros n. rewrite <- remove_all_in_twice.
      apply flat_map_ext. intros m. symmetry. apply remove_in_one.
Qed.

Lemma remove_all_in_nil (d : document) : flat_map (remove_all_in []) d = d.
Proof.
  induction d as [| n d IHd]; [reflexivity | ].
  cbn [flat_map]. rewrite IHd.
  assert (H : remove_all_in [] n = [n]); [ | rewrite H; reflexivity].
  clear. induction n as [i name attrs children IH | d | d | d] using node_induction;
    try reflexivity.
  cbn [remove_all_in existsb]. f_equal. f_equal.
  induction children as [| c children IHc]; [reflexivity | ].
  apply Forall_cons_iff in IH as [Hc Hrest].
  cbn [flat_map]. rewrite Hc, (IHc Hrest). reflexivity.
Qed.

Lemma existsb_nat_in (i : nat) (l : list nat) :
  existsb (Nat.eqb i) l = true <-> In i l.
Proof.
  rewrite existsb_exists. split.
  - intros (x & Hx & Heq). apply Nat.eqb_eq in Heq. subst. exact Hx.
  - intros H. exists i. split; [exact H | apply Nat.eqb_refl].
Qed.

Lemma remove_all_in_prune (l : list nat) (n : node) :
  (forall i, In i (script_elements n) -> In i l) ->
  (forall i, In i (other_elements n) -> ~ In i l) ->
  remove_all_in l n = prune n.
Proof.
  induction n as [i name attrs children IH | d | d | d] using node_induction;
    try reflexivity.
  cbn [script_elements other_elements remove_all_in prune].
  intros Hs Ho. destruct (is_script name).
  - assert (Hi : existsb (Nat.eqb i) l = true).
    { apply existsb_nat_in, Hs. left. reflexivity. }
    rewrite Hi. reflexivity.
  - assert (Hi : existsb (Nat.eqb i) l = false).
    { destruct (existsb (Nat.eqb i) l) eqn:E; [ | reflexivity].
      apply existsb_nat_in in E. exfalso. apply (Ho i); [left; reflexivity | exact E]. }
    rewrite Hi. f_equal. f_equal.
    cbn [app] in Hs, Ho.
    assert (Ho' : forall j, In j (flat_map other_elements children) -> ~ In j l).
    { intros j Hj. apply Ho. right. exact Hj. }
    clear Ho Hi.
    induction children as [| c children IHc]; [reflexivity | ].
    apply Forall_cons_iff in IH as [Hc Hrest].
    cbn [flat_map] in *.
    assert (Hhead : remove_all_in l c = prune c).
    { apply Hc.
      - intros j Hj. apply Hs, in_app_iff. left. exact Hj.
      - intros j Hj. apply Ho', in_app_iff. left. exact Hj. }
    assert (Htail : flat_map (remove_all_in l) children = flat_map prune children).
    { apply IHc.
      - exact Hrest.
      - intros j Hj. apply Hs, in_app_iff. right. exact Hj.
      - intros j Hj. apply Ho', in_app_iff. right. exact Hj. }
    rewrite Hhead, Htail. reflexivity.
Qed.

(** X6.  In a document whose script elements share their identity with no
    other element (as in every DOM, where identities are distinct), the
    stripping removes the script elements with what is below them and
    nothing else: every other node stays where it is, in order. *)
Theorem stripScripts_prunes (d : document) :
  (forall i, In i (querySelectorAll_script d) ->
             ~ In i (flat_map other_elements d)) ->
  stripScripts d = flat_map prune d.
Proof.
  intros Hdisjoint. unfold stripScripts.
  rewrite <- (remove_all_in_nil d) at 2. rewrite remove_all_fold. cbn [app].
  unfold querySelectorAll_script in *.
  assert (H : forall n, In n d -> remove_all_in (flat_map script_elements d) n = prune n).
  { intros n Hn. apply remove_all_in_prune.
    - intros i Hi. apply in_flat_map. exists n. split; assumption.
    - intros i Hi Hin. apply (Hdisjoint i Hin).
      apply in_flat_map. exists n. split; assumption. }
  clear Hdisjoint. revert H. generalize (flat_map script_elements d). intros l H.
  induction d as [| n d IHd]; [reflexivity | ].
  cbn [flat_map]. rewrite (H n (or_introl eq_refl)), IHd; [reflexivity | ].
  intros m Hm. apply H. right. exact Hm.
Qed.

(** X6 on the sample page: only the script element goes. *)
Lemma stripScripts_prunes_witness :
  stripScripts rendered_page = flat_map prune rendered_page.
Proof.
  apply stripScripts_prunes.
  intros i Hi Ho. vm_compute in Hi, Ho.
  destruct Hi as [<- | []].
  repeat (destruct Ho as [Ho | Ho]; [discriminate | ]). exact Ho.
Defined.

(** ** The run, case by case *)

Lemma getCommitMessage_ok (env : Env) (commit out : jsstring) (w : World) :
  execSync env (message_command commit) = inr out ->
  getCommitMessage env commit w
  = (Ret (trim out), add_command (message_command commit) w).
Proof.
  intros H. unfold getCommitMessage, bind, exec, ret. rewrite H. reflexivity.
Qed.

Lemma getCommitMessage_fails (env : Env) (commit e : jsstring) (w : World) :
  execSync env (message_command commit) = inl e ->
  getCommitMessage env commit w
  = (Exit 1, add_stderr (str "Error getting commit message: " ++ e)
               (add_command (message_command commit) w)).
Proof.
  intros H. unfold getCommitMessage, bind, exec, console_error, process_exit.
  rewrite H. reflexivity.
Qed.

Lemma getCommitDiff_ok (env : Env) (commit out : jsstring) (w : World) :
  execSync env (diff_command commit) = inr out ->
  getCommitDiff env commit w = (Ret out, add_command (diff_command commit) w).
Proof.
  intros H. unfold getCommitDiff, bind, exec, ret. rewrite H. reflexivity.
Qed.

Lemma getCommitDiff_fails (env : Env) (commit e : jsstring) (w : World) :
  execSync env (diff_command commit) = inl e ->
  getCommitDiff env commit w
  = (Exit 1, add_stderr (str "Error getting commit diff: " ++ e)
               (add_command (diff_command commit) w)).
Proof.
  intros H. unfold getCommitDiff, bind, exec, console_error, process_exit.
  rewrite H. reflexivity.
Qed.

Lemma first_missing_cases (env : Env) :
  (first_missing env = None
   /\ exists a b c,
        readLib env (str "highlightjs-github.min.css") = Some a
        /\ readLib env (str "diff2html.min.css") = Some b
        /\ readLib env (str "diff2html-ui.min.js") = Some c)
  \/ (exists file,
        first_missing env = Some file
        /\ In file required_libs
        /\ readLib env file = None
        /\ forall commit commitMessage diffOutput w,
             generateHtml env commit commitMessage diffOutput w
             = (Exit 1, add_stderr (missing_library_message env file) w)).
Proof.
  unfold first_missing, required_libs, generateHtml, readLibRequired, bind, ret.
  cbn [find]. cbv zeta.
  destruct (readLib env (str "highlightjs-github.min.css")) as [a | ] eqn:Ea.
  2: { right. eexists. split; [reflexivity | ]. split; [left; reflexivity | ].
       split; [exact Ea | ]. intros. reflexivity. }
  destruct (readLib env (str "diff2html.min.css")) as [b | ] eqn:Eb.
  2: { right. eexists. split; [reflexivity | ].
       split; [right; left; reflexivity | ].
       split; [exact Eb | ]. intros. reflexivity. }
  destruct (readLib env (str "diff2html-ui.min.js")) as [c | ] eqn:Ec.
  2: { right. eexists. split; [reflexivity | ].
       split; [right; right; left; reflexivity | ].
       split; [exact Ec | ]. intros. reflexivity. }
  left. split; [reflexivity | ]. exists a, b, c. auto.
Qed.

(** The page is made, in either mode, exactly when no library is missing. *)
Lemma generation_cases (env : Env) (commit commitMessage diffOutput : jsstring)
    (w : World) :
  (first_missing env = None
   /\ exists html,
        (if main_isStatic env
         then generateStaticHtml env commit commitMessage diffOutput
         else generateHtml env commit commitMessage diffOutput) w
        = (Ret html, w))
  \/ (exists file,
        first_missing env = Some file
        /\ (if main_isStatic env
            then generateStaticHtml env commit commitMessage diffOutput
            else generateHtml env commit commitMessage diffOutput) w
           = (Exit 1, add_stderr (missing_library_message env file) w)).
Proof.
  destruct (first_missing_cases env)
    as [(Hnone & a & b & c & Ha & Hb & Hc) | (file & Hsome & _ & _ & Hgen)].
  - left. split; [exact Hnone | ].
    destruct (generateHtml_cases env commit commitMessage diffOutput w)
      as [(a' & b' & c' & _ & _ & _ & Heq) | (line & Heq)].
    + destruct (main_isStatic env); [ | eauto].
      destruct (generateStaticHtml_cases env commit commitMessage diffOutput w)
        as [(base & polls & t & _ & _ & ->) | (line & Hs)]; [eauto | ].
      exfalso. unfold generateStaticHtml in Hs.
      rewrite (bind_ret _ _ _ _ _ Heq) in Hs. cbv zeta in Hs.
      destruct (wait_for_render _ _ _) as [[ps t] | ]; discriminate.
    + exfalso. revert Heq. unfold generateHtml, readLibRequired, bind, ret.
      cbv zeta. rewrite Ha, Hb, Hc. discriminate.
  - right. exists file. split; [exact Hsome | ].
    destruct (main_isStatic env); [ | apply Hgen].
    unfold generateStaticHtml. apply bind_exit, Hgen.
Qed.

Section RunCases.
Variables (env : Env) (w w1 : World) (commit : jsstring).
Hypothesis chosen : main_commit env w = (Ret commit, w1).

Lemma main_after_commit :
  main env w
  = bind (getCommitMessage env commit)
      (fun commitMessage =>
         bind (getCommitDiff env commit)
           (fun diffOutput =>
              bind (if main_isStatic env
                    then generateStaticHtml env commit commitMessage diffOutput
                    else generateHtml env commit commitMessage diffOutput)
                (fun html =>
                   bind (writeFileSync env (main_outputFile commit) html)
                     (fun _ => console_log (created_line env commit)))))
      (add_stdout (generating_line env commit) w1).
Proof using chosen.
  unfold main. cbv zeta. rewrite (bind_ret _ _ _ _ _ chosen). reflexivity.
Qed.

Lemma run_message_fails (e : jsstring) :
  execSync env (message_command commit) = inl e ->
  run env w
  = (Some 1%Z,
     add_stderr (str "Error getting commit message: " ++ e)
       (add_command (message_command commit)
          (add_stdout (generating_line env commit) w1))).
Proof using chosen.
  intros Hm. unfold run. rewrite main_after_commit.
  rewrite (bind_exit _ _ _ _ _ (getCommitMessage_fails env commit e _ Hm)).
  reflexivity.
Qed.

Lemma run_diff_fails (om e : jsstring) :
  execSync env (message_command commit) = inr om ->
  execSync env (diff_command commit) = inl e ->
  run env w
  = (Some 1%Z,
     add_stderr (str "Error getting commit diff: " ++ e)
       (after_git env commit w1)).
Proof using chosen.
  intros Hm Hd. unfold run. rewrite main_after_commit.
  rewrite (bind_ret _ _ _ _ _ (getCommitMessage_ok env commit om _ Hm)).
  rewrite (bind_exit _ _ _ _ _ (getCommitDiff_fails env commit e _ Hd)).
  reflexivity.
Qed.

Lemma run_library_missing (om od file : jsstring) :
  execSync env (message_command commit) = inr om ->
  execSync env (diff_command commit) = inr od ->
  first_missing env = Some file ->
  run env w
  = (Some 1%Z,
     add_stderr (missing_library_message env file) (after_git env commit w1)).
Proof using chosen.
  intros Hm Hd Hf. unfold run. rewrite main_after_commit.
  rewrite (bind_ret _ _ _ _ _ (getCommitMessage_ok env commit om _ Hm)).
  rewrite (bind_ret _ _ _ _ _ (getCommitDiff_ok env commit od _ Hd)).
  fold (after_git env commit w1).
  destruct (generation_cases env commit (trim om) od (after_git env commit w1))
    as [(Hnone & _) | (file' & Hsome & Hgen)]; [congruence | ].
  rewrite (bind_exit _ _ _ _ _ Hgen). congruence.
Qed.

Lemma run_generated (om od : jsstring) :
  execSync env (message_command commit) = inr om ->
  execSync env (diff_command commit) = inr od ->
  first_missing env = None ->
  exists html,
    (if main_isStatic env
     then generateStaticHtml env commit (trim om) od
     else generateHtml env commit (trim om) od) (after_git env commit w1)
    = (Ret html, after_git env commit w1)
    /\ run env w
       = match write_error env (main_outputFile commit) with
         | Some failure =>
             (Some 1%Z,
              add_stderr (failure_message failure)
                (leave_file (main_outputFile commit) (failure_leaves failure)
                   (after_git env commit w1)))
         | None =>
             (Some 0%Z,
              add_stdout (created_line env commit)
                (add_file (main_outputFile commit) html
                   (after_git env commit w1)))
         end.
Proof using chosen.
  intros Hm Hd Hf. unfold run. rewrite main_after_commit.
  rewrite (bind_ret _ _ _ _ _ (getCommitMessage_ok env commit om _ Hm)).
  rewrite (bind_ret _ _ _ _ _ (getCommitDiff_ok env commit od _ Hd)).
  fold (after_git env commit w1).
  destruct (generation_cases env commit (trim om) od (after_git env commit w1))
    as [(_ & html & Hgen) | (file' & Hsome & _)]; [ | congruence].
  exists html. split; [exact Hgen | ].
  rewrite (bind_ret _ _ _ _ _ Hgen).
  unfold bind, writeFileSync, console_log.
  destruct (write_error env (main_outputFile commit)); reflexivity.
Qed.
End RunCases.

Lemma run_commit_fails (env : Env) (w w1 : World) :
  main_commit env w = (Exit 1, w1) -> run env w = (Some 1%Z, w1).
Proof.
  intros H. unfold run, main. cbv zeta. rewrite (bind_exit _ _ _ _ _ H).
  reflexivity.
Qed.

Lemma after_git_fields (env : Env) (commit : jsstring) (w1 : World) :
  commands (after_git env commit w1)
  = commands w1 ++ [message_command commit; diff_command commit]
  /\ written (after_git env commit w1) = written w1
  /\ files (after_git env commit w1) = files w1
  /\ stderr (after_git env commit w1) = stderr w1
  /\ stdout (after_git env commit w1) = stdout w1 ++ [generating_line env commit].
Proof.
  unfold after_git.
  cbn [commands written files stderr stdout add_command add_stdout].
  rewrite <- app_assoc. repeat split; reflexivity.
Qed.

Lemma main_commit_keeps_files (env : Env) (w w1 : World) (o : outcome jsstring) :
  main_commit env w = (o, w1) ->
  written w1 = written w /\ files w1 = files w /\ stderr w1 = stderr w \/ o = Exit 1.
Proof.
  intros H. unfold main_commit in H. cbv zeta in H.
  assert (Hlast : forall o' w', getLastCommitHash env w = (o', w') ->
            written w' = written w /\ files w' = files w /\ stderr w' = stderr w
            \/ o' = Exit 1).
  { intros o' w' H'.
    destruct (getLastCommitHash_cases env w)
      as [(out & _ & Heq) | (message & line & _ & Heq)];
      rewrite Heq in H'; injection H' as <- <-; [left | right; reflexivity].
    repeat split; reflexivity. }
  destruct (List.filter _ _) as [| [| c first] rest]; try exact (Hlast _ _ H).
  unfold ret in H. injection H as <- <-. left. repeat split; reflexivity.
Qed.

(** X7.  Once the commit is chosen, the run ends with status 0 exactly when
    the two git commands succeed, the three libraries are there and the
    output file can be written; this holds in both modes (the static
    rendering itself cannot make a run fail). *)
Theorem run_succeeds_iff (env : Env) (w w1 : World) (commit : jsstring) :
  main_commit env w = (Ret commit, w1) ->
  fst (run env w) = Some 0%Z
  <-> ((exists out, execSync env (message_command commit) = inr out)
       /\ (exists out, execSync env (diff_command commit) = inr out)
       /\ first_missing env = None
       /\ write_error env (main_outputFile commit) = None).
Proof.
  intros Hc.
  destruct (execSync env (message_command commit)) as [e | om] eqn:Hm.
  { rewrite (run_message_fails env w w1 commit Hc e Hm). cbn [fst].
    split; [discriminate | intros [[out H] _]; discriminate]. }
  destruct (execSync env (diff_command commit)) as [e | od] eqn:Hd.
  { rewrite (run_diff_fails env w w1 commit Hc om e Hm Hd). cbn [fst].
    split; [discriminate | intros (_ & [out H] & _); discriminate]. }
  destruct (first_missing env) as [file | ] eqn:Hf.
  { rewrite (run_library_missing env w w1 commit Hc om od file Hm Hd Hf).
    cbn [fst]. split; [discriminate | intros (_ & _ & H & _); discriminate]. }
  destruct (run_generated env w w1 commit Hc om od Hm Hd Hf) as (html & _ & ->).
  destruct (write_error env (main_outputFile commit)) as [message | ]; cbn [fst].
  - split; [discriminate | intros (_ & _ & _ & H); discriminate].
  - split; [ | reflexivity]. intros _.
    split; [exists om; reflexivity | ].
    split; [exists od; reflexivity | split; reflexivity].
Qed.

(** X7 in the sample repository. *)
Lemma run_succeeds_iff_witness :
  fst (run (good_env [str "abc1234"]) empty_world) = Some 0%Z
  <-> ((exists out, execSync (good_env [str "abc1234"])
                      (message_command (str "abc1234")) = inr out)
       /\ (exists out, execSync (good_env [str "abc1234"])
                         (diff_command (str "abc1234")) = inr out)
       /\ first_missing (good_env [str "abc1234"]) = None
       /\ write_error (good_env [str "abc1234"])
            (main_outputFile (str "abc1234")) = None).
Proof.
  apply (run_succeeds_iff (good_env [str "abc1234"]) empty_world empty_world).
  reflexivity.
Defined.

(** X8.  Every run ends, and its exit status is 0 or 1: [main] never leaves
    its promise pending and never exits with another status. *)
Theorem run_ends (env : Env) (w : World) :
  fst (run env w) = Some 0%Z \/ fst (run env w) = Some 1%Z.
Proof.
  destruct (run_cases env w)
    as [(commit & w1 & om & od & html & w3 & line & _ & _ & _ & _ & _ & _ & _ & ->)
       | (w' & -> & _)]; [left | right]; reflexivity.
Qed.

(** X9.  When a library is missing, the run stops after the two git commands
    with status 1 and writes nothing; it prints one message, for the first
    missing file in the order highlight theme, diff style sheet, diff script,
    naming the file and the library directory and telling how to fetch the
    libraries. *)
Theorem missing_library_stops_run (env : Env) (w w1 : World)
    (commit om od file : jsstring) :
  main_commit env w = (Ret commit, w1) ->
  execSync env (message_command commit) = inr om ->
  execSync env (diff_command commit) = inr od ->
  first_missing env = Some file ->
  fst (run env w) = Some 1%Z
  /\ stderr (snd (run env w))
     = stderr w
       ++ [ str "Missing required library: " ++ file ++ str " in " ++ libsDir env
            ++ str "." ++ [cu_lf] ++ str "Run: npm run fetch:libs" ++ [cu_lf]
            ++ str "or:  node ./scripts/fetch-libs.js" ]
  /\ In file required_libs /\ readLib env file = None
  /\ written (snd (run env w)) = written w
  /\ files (snd (run env w)) = files w
  /\ commands (snd (run env w))
     = commands w1 ++ [message_command commit; diff_command commit].
Proof.
  intros Hc Hm Hd Hf.
  rewrite (run_library_missing env w w1 commit Hc om od file Hm Hd Hf).
  destruct (after_git_fields env commit w1) as (Hcmd & Hw & Hfi & He & _).
  destruct (main_commit_keeps_files env w w1 _ Hc) as [(Hw1 & Hf1 & He1) | H];
    [ | discriminate].
  destruct (first_missing_cases env) as [[Hnone _] | (file' & Hsome & Hin & Hnot & _)];
    [congruence | ].
  assert (file' = file) by congruence. subst file'.
  cbn [fst snd stderr written files commands add_stderr].
  rewrite He, Hw, Hfi, Hcmd, Hw1, Hf1, He1. repeat split; assumption.
Qed.

(** X9 in the sample repository without its diff style sheet. *)
Lemma missing_library_stops_run_witness :
  fst (run missing_lib_env empty_world) = Some 1%Z
  /\ stderr (snd (run missing_lib_env empty_world))
     = stderr empty_world
       ++ [ str "Missing required library: " ++ str "diff2html.min.css"
            ++ str " in " ++ libsDir missing_lib_env
            ++ str "." ++ [cu_lf] ++ str "Run: npm run fetch:libs" ++ [cu_lf]
            ++ str "or:  node ./scripts/fetch-libs.js" ]
  /\ In (str "diff2html.min.css") required_libs
  /\ readLib missing_lib_env (str "diff2html.min.css") = None
  /\ written (snd (run missing_lib_env empty_world)) = written empty_world
  /\ files (snd (run missing_lib_env empty_world)) = files empty_world
  /\ commands (snd (run missing_lib_env empty_world))
     = commands empty_world
       ++ [message_command (str "abc1234"); diff_command (str "abc1234")].
Proof.
  apply (missing_library_stops_run missing_lib_env empty_world empty_world
           (str "abc1234") (str "  Fix the parser" ++ [cu_lf; cu_lf])
           (str "diff --git a/x b/x" ++ [cu_lf]) (str "diff2html.min.css"));
    reflexivity.
Defined.

Lemma leave_file_files (path : jsstring) (left : option jsstring) (w : World) :
  files (leave_file path left w) !! path
  = match left with
    | Some text => Some text
    | None => files w !! path
    end
  /\ (forall other, other <> path ->
        files (leave_file path left w) !! other = files w !! other).
Proof.
  destruct left as [text | ]; cbn [leave_file files].
  - split; [apply lookup_insert_eq | ].
    intros other Hne. apply lookup_insert_ne. congruence.
  - split; reflexivity.
Qed.

(** X10.  When the write of the output file fails, the run ends with status 1
    after both git commands, and the error thrown is the last thing [cli.js]
    passes to [console.error]; in the interactive mode it is the only call.
    No write is recorded as done and no other file is touched.  The output
    file itself is as it was when it could not even be opened; when the
    write failed after the file was opened, the file is there with what the
    failed write left of it, and what it held before is lost. *)
Theorem write_failure_stops_run (env : Env) (w w1 : World)
    (commit om od : jsstring) (failure : write_failure) :
  main_commit env w = (Ret commit, w1) ->
  execSync env (message_command commit) = inr om ->
  execSync env (diff_command commit) = inr od ->
  first_missing env = None ->
  write_error env (main_outputFile commit) = Some failure ->
  fst (run env w) = Some 1%Z
  /\ (exists reported,
        stderr (snd (run env w))
        = stderr w ++ reported ++ [failure_message failure]
        /\ (main_isStatic env = false -> reported = []))
  /\ written (snd (run env w)) = written w
  /\ files (snd (run env w)) !! main_outputFile commit
     = match failure_leaves failure with
       | Some text => Some text
       | None => files w !! main_outputFile commit
       end
  /\ (forall path, path <> main_outputFile commit ->
        files (snd (run env w)) !! path = files w !! path).
Proof.
  intros Hc Hm Hd Hf Hwr.
  destruct (run_generated env w w1 commit Hc om od Hm Hd Hf) as (html & _ & ->).
  rewrite Hwr.
  destruct (after_git_fields env commit w1) as (_ & Hw & Hfi & He & _).
  destruct (main_commit_keeps_files env w w1 _ Hc) as [(Hw1 & Hf1 & He1) | H];
    [ | discriminate].
  destruct (leave_file_written (main_outputFile commit) (failure_leaves failure)
              (after_git env commit w1)) as (Hlw & _ & _ & Hle).
  destruct (leave_file_files (main_outputFile commit) (failure_leaves failure)
              (after_git env commit w1)) as (Hsame & Hother).
  cbn [fst snd stderr written files add_stderr].
  rewrite Hle, Hlw, He, Hw, Hw1, He1, Hsame, Hfi, Hf1.
  split; [reflexivity | ].
  split; [exists []; split; reflexivity | ].
  split; [reflexivity | ]. split; [reflexivity | ].
  intros path Hne. rewrite (Hother path Hne), Hfi, Hf1. reflexivity.
Qed.

(** X10 in a directory that holds the page of an earlier run: on a full
    disk the run empties that page and leaves the other file alone; in a
    directory that cannot be written it leaves the page as it was. *)
Lemma write_failure_stops_run_witness :
  (fst (run full_disk_env earlier_run_world) = Some 1%Z
   /\ (exists reported,
         stderr (snd (run full_disk_env earlier_run_world))
         = stderr earlier_run_world ++ reported
           ++ [str "ENOSPC: no space left on device"]
         /\ (main_isStatic full_disk_env = false -> reported = []))
   /\ written (snd (run full_disk_env earlier_run_world))
      = written earlier_run_world
   /\ files (snd (run full_disk_env earlier_run_world))
        !! main_outputFile (str "abc1234")
      = Some []
   /\ (forall path, path <> main_outputFile (str "abc1234") ->
         files (snd (run full_disk_env earlier_run_world)) !! path
         = files earlier_run_world !! path))
  /\ files (snd (run read_only_env earlier_run_world))
       !! main_outputFile (str "abc1234")
     = files earlier_run_world !! main_outputFile (str "abc1234").
Proof.
  split.
  - apply (write_failure_stops_run full_disk_env earlier_run_world
             earlier_run_world (str "abc1234")
             (str "  Fix the parser" ++ [cu_lf; cu_lf])
             (str "diff --git a/x b/x" ++ [cu_lf])
             {| failure_message := str "ENOSPC: no space left on device";
                failure_leaves := Some [] |});
      reflexivity.
  - destruct (write_failure_stops_run read_only_env earlier_run_world
                earlier_run_world (str "abc1234")
                (str "  Fix the parser" ++ [cu_lf; cu_lf])
                (str "diff --git a/x b/x" ++ [cu_lf])
                {| failure_message := str "EACCES: permission denied";
                   failure_leaves := None |}
                eq_refl eq_refl eq_refl eq_refl eq_refl)
      as (_ & _ & _ & H & _).
    exact H.
Defined.

(** X11.  The two git commands are run in order and the first failure stops
    the run with status 1: when the message cannot be read the diff command
    is never started.  In either case [cli.js] calls [console.error] once,
    with the fixed prefix of the function that failed followed by the
    [message] of the error that [execSync] threw, as it is and however many
    lines it holds.  (What git itself writes on the error stream it inherits
    is no call of [console.error] and is not counted here.) *)
Theorem git_failure_report (env : Env) (w w1 : World) (commit : jsstring) :
  main_commit env w = (Ret commit, w1) ->
  (forall e, execSync env (message_command commit) = inl e ->
     fst (run env w) = Some 1%Z
     /\ commands (snd (run env w)) = commands w1 ++ [message_command commit]
     /\ stderr (snd (run env w))
        = stderr w ++ [str "Error getting commit message: " ++ e])
  /\ (forall om e,
        execSync env (message_command commit) = inr om ->
        execSync env (diff_command commit) = inl e ->
        fst (run env w) = Some 1%Z
        /\ commands (snd (run env w))
           = commands w1 ++ [message_command commit; diff_command commit]
        /\ stderr (snd (run env w))
           = stderr w ++ [str "Error getting commit diff: " ++ e]).
Proof.
  intros Hc.
  destruct (main_commit_keeps_files env w w1 _ Hc) as [(_ & _ & He1) | H];
    [ | discriminate].
  split.
  - intros e Hm. rewrite (run_message_fails env w w1 commit Hc e Hm).
    cbn [fst snd commands stderr add_stderr add_command add_stdout].
    rewrite He1. repeat split; reflexivity.
  - intros om e Hm Hd. rewrite (run_diff_fails env w w1 commit Hc om e Hm Hd).
    destruct (after_git_fields env commit w1) as (Hcmd & _ & _ & He & _).
    cbn [fst snd commands stderr add_stderr]. rewrite Hcmd, He, He1.
    repeat split; reflexivity.
Qed.

(** X11 on a reference that names no commit, where git answers with two
    lines. *)
Lemma git_failure_report_witness :
  fst (run unknown_revision_env empty_world) = Some 1%Z
  /\ commands (snd (run unknown_revision_env empty_world))
     = commands empty_world ++ [message_command (str "nosuchref")]
  /\ stderr (snd (run unknown_revision_env empty_world))
     = stderr empty_world
       ++ [str "Error getting commit message: "
           ++ str "Command failed: git log -1 --format=%B nosuchref" ++ [cu_lf]
           ++ str "fatal: bad revision 'nosuchref'" ++ [cu_lf]].
Proof.
  destruct (git_failure_report unknown_revision_env empty_world empty_world
              (str "nosuchref") eq_refl) as [H _].
  apply H. reflexivity.
Defined.

(** ** Choosing the commit *)

Lemma filter_first {A : Type} (f : A -> bool) (l : list A) :
  match List.filter f l with
  | [] => forallb (fun a => negb (f a)) l = true
  | x :: _ =>
      exists pre post,
        l = pre ++ x :: post /\ f x = true
        /\ forallb (fun a => negb (f a)) pre = true
  end.
Proof.
  induction l as [| a l IH]; [reflexivity | ].
  cbn [List.filter]. destruct (f a) eqn:Ha.
  - exists [], l. repeat split; assumption.
  - destruct (List.filter f l) as [| x r].
    + cbn [forallb]. rewrite Ha, IH. reflexivity.
    + destruct IH as (pre & post & -> & Hx & Hpre).
      exists (a :: pre), post. cbn [forallb app]. rewrite Ha, Hpre.
      repeat split; assumption.
Qed.

Lemma forallb_negb_negb {A : Type} (f : A -> bool) (l : list A) :
  forallb (fun a => negb (negb (f a))) l = forallb f l.
Proof.
  induction l as [| a l IH]; [reflexivity | ].
  cbn [forallb]. rewrite negb_involutive, IH. reflexivity.
Qed.

(** X12.  The commit is the first command-line argument that does not start
    with a dash, taken as it is and without running any command, wherever it
    stands among the switches.  When there is no such argument, or when the
    first one is the empty string (even if others follow it), the commit is
    the one [getLastCommitHash] gives. *)
Theorem main_commit_choice (env : Env) (w : World) :
  (exists flags commit rest,
      skipn 2 (argv env) = flags ++ commit :: rest
      /\ forallb startsWith_dash flags = true
      /\ startsWith_dash commit = false /\ commit <> []
      /\ main_commit env w = (Ret commit, w))
  \/ ((forallb startsWith_dash (skipn 2 (argv env)) = true
       \/ exists flags rest,
            skipn 2 (argv env) = flags ++ [] :: rest
            /\ forallb startsWith_dash flags = true)
      /\ main_commit env w = getLastCommitHash env w).
Proof.
  unfold main_commit. cbv zeta.
  pose proof (filter_first (fun a => negb (startsWith_dash a)) (skipn 2 (argv env)))
    as H.
  destruct (List.filter _ _) as [| [| c first] rest].
  - right. rewrite forallb_negb_negb in H. split; [left; exact H | reflexivity].
  - right. destruct H as (pre & post & Heq & _ & Hpre).
    rewrite forallb_negb_negb in Hpre.
    split; [right; exists pre, post; split; assumption | reflexivity].
  - left. destruct H as (pre & post & Heq & Hx & Hpre).
    rewrite forallb_negb_negb in Hpre. apply negb_true_iff in Hx.
    exists pre, (c :: first), post.
    split; [exact Heq | ]. split; [exact Hpre | ]. split; [exact Hx | ].
    split; [discriminate | reflexivity].
Qed.

Lemma main_commit_static_switch (env : Env) (pre post : list jsstring) (w : World) :
  main_commit (with_args (pre ++ str "--static" :: post) env) w
  = main_commit (with_args (pre ++ post) env) w.
Proof.
  unfold main_commit. cbv zeta. cbn [argv with_args skipn].
  rewrite !skipn_O, !List.filter_app.
  change (List.filter (fun a => negb (startsWith_dash a)) (str "--static" :: post))
    with (List.filter (fun a => negb (startsWith_dash a)) post).
  reflexivity.
Qed.

Lemma main_isStatic_switch (env : Env) (pre post : list jsstring) :
  main_isStatic (with_args (pre ++ str "--static" :: post) env) = true.
Proof.
  unfold main_isStatic. cbn [argv with_args skipn].
  rewrite skipn_O, existsb_app. apply orb_true_iff. right. reflexivity.
Qed.

(** X13.  The static switch changes the rendering and not the course of the
    run: wherever it is put among the arguments, the run chooses the same
    commit, runs the same commands, ends with the same status and writes to
    the same path as the run with that argument taken out.  (What the two
    runs print is not compared: the lines of [main] differ, and in static
    mode jsdom reports what the page logs.) *)
Theorem static_switch_keeps_run (env : Env) (pre post : list jsstring) (w : World) :
  main_isStatic (with_args (pre ++ str "--static" :: post) env) = true
  /\ main_commit (with_args (pre ++ str "--static" :: post) env) w
     = main_commit (with_args (pre ++ post) env) w
  /\ fst (run (with_args (pre ++ str "--static" :: post) env) w)
     = fst (run (with_args (pre ++ post) env) w)
  /\ commands (snd (run (with_args (pre ++ str "--static" :: post) env) w))
     = commands (snd (run (with_args (pre ++ post) env) w))
  /\ map fst (written (snd (run (with_args (pre ++ str "--static" :: post) env) w)))
     = map fst (written (snd (run (with_args (pre ++ post) env) w))).
Proof.
  split; [apply main_isStatic_switch | ].
  pose proof (main_commit_static_switch env pre post w) as Hsame.
  split; [exact Hsame | ].
  set (e2 := with_args (pre ++ str "--static" :: post) env) in *.
  set (e1 := with_args (pre ++ post) env) in *.
  destruct (main_commit_cases e1 w) as (w1 & _ & _ & [(commit & Hc1) | Hc1]).
  2: { rewrite (run_commit_fails e1 w w1 Hc1).
       rewrite Hc1 in Hsame. rewrite (run_commit_fails e2 w w1 Hsame).
       repeat split; reflexivity. }
  assert (Hc2 : main_commit e2 w = (Ret commit, w1)) by (rewrite Hsame; exact Hc1).
  destruct (execSync env (message_command commit)) as [e | om] eqn:Hm.
  { rewrite (run_message_fails e1 w w1 commit Hc1 e Hm),
            (run_message_fails e2 w w1 commit Hc2 e Hm).
    repeat split; reflexivity. }
  destruct (execSync env (diff_command commit)) as [e | od] eqn:Hd.
  { rewrite (run_diff_fails e1 w w1 commit Hc1 om e Hm Hd),
            (run_diff_fails e2 w w1 commit Hc2 om e Hm Hd).
    repeat split; reflexivity. }
  destruct (first_missing env) as [file | ] eqn:Hf.
  { rewrite (run_library_missing e1 w w1 commit Hc1 om od file Hm Hd Hf),
            (run_library_missing e2 w w1 commit Hc2 om od file Hm Hd Hf).
    repeat split; reflexivity. }
  destruct (run_generated e1 w w1 commit Hc1 om od Hm Hd Hf) as (h1 & _ & ->).
  destruct (run_generated e2 w w1 commit Hc2 om od Hm Hd Hf) as (h2 & _ & ->).
  change (write_error e1) with (write_error env).
  change (write_error e2) with (write_error env).
  destruct (write_error env (main_outputFile commit)) as [failure | ];
    cbn [fst snd].
  - cbn [commands written add_stderr].
    rewrite !(proj1 (leave_file_written _ _ _)).
    rewrite !(proj1 (proj2 (leave_file_written _ _ _))).
    repeat split; reflexivity.
  - cbn [commands written add_stdout add_file after_git add_command].
    rewrite !map_app. repeat split; reflexivity.
Qed.

(** ** The last commit *)

Lemma split_space_first_no_space (s : jsstring) :
  ~ In cu_space (split_space_first s).
Proof.
  induction s as [| c s IH]; [intros [] | ].
  cbn [split_space_first]. destruct (N.eqb_spec c cu_space) as [-> | Hne];
    [intros [] | ].
  intros [H | H]; [congruence | exact (IH H)].
Qed.

Lemma trimStart_In (c : code_unit) (s : jsstring) :
  In c (trimStart s) -> In c s.
Proof.
  induction s as [| x s IH]; [intros [] | ].
  cbn [trimStart]. destruct (is_js_whitespace x); [ | tauto].
  intros H. right. exact (IH H).
Qed.

Lemma trim_In (c : code_unit) (s : jsstring) : In c (trim s) -> In c s.
Proof.
  unfold trim, trimEnd. intros H.
  apply in_rev, trimStart_In in H. apply in_rev in H.
  exact (trimStart_In c s H).
Qed.

Lemma trimStart_whitespace_prefix (a b : jsstring) :
  forallb is_js_whitespace a = true -> trimStart (a ++ b) = trimStart b.
Proof.
  induction a as [| c a IH]; [reflexivity | ].
  cbn [forallb app trimStart]. intros H. apply andb_true_iff in H as [-> Ha].
  exact (IH Ha).
Qed.

Lemma trimStart_head (s : jsstring) :
  forallb (fun c => negb (is_js_whitespace c)) s = true -> trimStart s = s.
Proof.
  destruct s as [| c s]; [reflexivity | ].
  cbn [forallb trimStart]. intros H. apply andb_true_iff in H as [Hc _].
  apply negb_true_iff in Hc. rewrite Hc. reflexivity.
Qed.

Lemma forallb_rev {A : Type} (f : A -> bool) (l : list A) :
  forallb f (rev l) = forallb f l.
Proof.
  induction l as [| a l IH]; [reflexivity | ].
  cbn [rev]. rewrite forallb_app, IH. cbn [forallb].
  rewrite andb_true_r. apply andb_comm.
Qed.

Lemma trim_hash (hash ws : jsstring) :
  forallb (fun c => negb (is_js_whitespace c)) hash = true ->
  forallb is_js_whitespace ws = true ->
  trim (hash ++ ws) = hash.
Proof.
  intros Hh Hws. destruct hash as [| c h].
  { apply trim_whitespace. exact Hws. }
  unfold trim, trimEnd.
  rewrite trimStart_app; rewrite (trimStart_head _ Hh); [ | discriminate].
  rewrite rev_app_distr, trimStart_whitespace_prefix
    by (rewrite forallb_rev; exact Hws).
  rewrite trimStart_head, rev_involutive; [reflexivity | ].
  rewrite forallb_rev. exact Hh.
Qed.

Lemma split_space_first_hash (hash ws tail : jsstring) :
  forallb (fun c => negb (is_js_whitespace c)) hash = true ->
  forallb is_js_whitespace ws = true ->
  tail = [] \/ (exists rest, tail = cu_space :: rest) ->
  exists ws',
    split_space_first (hash ++ ws ++ tail) = hash ++ ws'
    /\ forallb is_js_whitespace ws' = true.
Proof.
  intros Hh Hws Htail. induction hash as [| c h IH].
  - cbn [app]. clear Hh. induction ws as [| c ws IHw].
    + exists []. split; [ | reflexivity].
      destruct Htail as [-> | [rest ->]]; reflexivity.
    + cbn [forallb] in Hws. apply andb_true_iff in Hws as [Hc Hr].
      cbn [app split_space_first]. destruct (c =? cu_space).
      * exists []. split; reflexivity.
      * destruct (IHw Hr) as (ws' & -> & Hws').
        exists (c :: ws'). cbn [forallb]. rewrite Hc, Hws'. split; reflexivity.
  - cbn [forallb] in Hh. apply andb_true_iff in Hh as [Hc Hr].
    destruct (IH Hr) as (ws' & Heq & Hws'). exists ws'.
    split; [ | exact Hws']. cbn [app split_space_first].
    destruct (N.eqb_spec c cu_space) as [-> | _]; [discriminate | ].
    rewrite Heq. reflexivity.
Qed.

(** X14.  When git prints the abbreviated hash followed by a space and the
    subject, or the hash followed by white space only, [getLastCommitHash]
    returns the hash itself; one command is run for it. *)
Theorem getLastCommitHash_returns_hash (env : Env) (w : World)
    (hash ws tail : jsstring) :
  forallb (fun c => negb (is_js_whitespace c)) hash = true ->
  forallb is_js_whitespace ws = true ->
  tail = [] \/ (exists rest, tail = cu_space :: rest) ->
  execSync env (str "git log --oneline -1") = inr (hash ++ ws ++ tail) ->
  getLastCommitHash env w
  = (Ret hash, add_command (str "git log --oneline -1") w).
Proof.
  intros Hh Hws Htail Hout.
  unfold getLastCommitHash, bind, exec, ret. rewrite Hout.
  destruct (split_space_first_hash hash ws tail Hh Hws Htail) as (ws' & -> & Hws').
  rewrite (trim_hash hash ws' Hh Hws'). reflexivity.
Qed.

(** X14 in the sample repository. *)
Lemma getLastCommitHash_returns_hash_witness :
  getLastCommitHash (good_env []) empty_world
  = (Ret (str "abc1234"), add_command (str "git log --oneline -1") empty_world).
Proof.
  apply (getLastCommitHash_returns_hash (good_env []) empty_world
           (str "abc1234") [] (str " Fix the parser" ++ [cu_lf])).
  - reflexivity.
  - reflexivity.
  - right. eexists. reflexivity.
  - reflexivity.
Defined.

(** X15.  Whatever git prints, the reference [getLastCommitHash] returns holds
    no space; and when git fails while no commit was given on the command
    line, the run ends with status 1 before any other step: that one command
    was run, [cli.js] has called [console.error] once, with the fixed prefix
    and the [message] of the error that [execSync] threw, it has not called
    [console.log], and it has written no file.  (What git itself writes on
    the error stream it inherits is no call of [console.error] and is not
    counted here.) *)
Theorem last_commit_edge_cases (env : Env) (w : World) :
  (forall commit w1, getLastCommitHash env w = (Ret commit, w1) ->
     ~ In cu_space commit)
  /\ (forall e,
        forallb startsWith_dash (skipn 2 (argv env)) = true ->
        execSync env (str "git log --oneline -1") = inl e ->
        run env w
        = (Some 1%Z,
           add_stderr (str "Error getting last commit hash: " ++ e)
             (add_command (str "git log --oneline -1") w))).
Proof.
  split.
  - intros commit w1 H Hin.
    destruct (getLastCommitHash_cases env w)
      as [(out & _ & Heq) | (message & line & _ & Heq)];
      rewrite Heq in H; [ | discriminate].
    injection H as <- _. apply trim_In in Hin.
    exact (split_space_first_no_space out Hin).
  - intros e Hflags Hfail. apply run_commit_fails.
    unfold main_commit. cbv zeta.
    pose proof (filter_first (fun a => negb (startsWith_dash a))
                  (skipn 2 (argv env))) as H.
    destruct (List.filter _ _) as [| x r].
    + unfold getLastCommitHash, bind, exec, console_error, process_exit.
      rewrite Hfail. reflexivity.
    + exfalso. destruct H as (pre & post & Heq & Hx & _).
      rewrite Heq, forallb_app in Hflags.
      apply andb_true_iff in Hflags as [_ Hflags]. cbn [forallb] in Hflags.
      apply andb_true_iff in Hflags as [Hd _].
      rewrite Hd in Hx. discriminate.
Qed.

(** X15 in the sample repository, and in a repository without commits. *)
Lemma last_commit_edge_cases_witness :
  ~ In cu_space (str "abc1234")
  /\ run (with_args [str "--static"] bad_ref_env) empty_world
     = (Some 1%Z,
        add_stderr (str "Error getting last commit hash: " ++ str "Command failed")
          (add_command (str "git log --oneline -1") empty_world)).
Proof.
  split.
  - destruct (last_commit_edge_cases (good_env []) empty_world) as [H _].
    apply (H (str "abc1234") (add_command (str "git log --oneline -1") empty_world)).
    reflexivity.
  - destruct (last_commit_edge_cases (with_args [str "--static"] bad_ref_env)
                empty_world) as [_ H].
    apply H; reflexivity.
Defined.

(** ** The page and its static form, continued *)

(** X16.  The page [generateHtml] returns is a whole document: it starts with
    the doctype and ends with the closing [html] tag, so the final [trim]
    only ever cuts white space of the template, never of the commit, the
    message or the diff.  It is the template filled with the commit, with
    the three files of the library directory, each in its own place and
    passed through [safeInline] with its kind, with the escaped message or
    the placeholder, and with the escaped diff.  Making it changes nothing in
    the world. *)
Theorem generateHtml_whole_document (env : Env)
    (commit commitMessage diffOutput : jsstring) (w : World)
    (html : jsstring) (w' : World) :
  generateHtml env commit commitMessage diffOutput w = (Ret html, w') ->
  w' = w
  /\ (exists middle, html = str "<!DOCTYPE html>" ++ middle ++ str "</html>")
  /\ exists cssHighlight cssDiff2Html jsDiff2Html,
       readLib env (str "highlightjs-github.min.css") = Some cssHighlight
       /\ readLib env (str "diff2html.min.css") = Some cssDiff2Html
       /\ readLib env (str "diff2html-ui.min.js") = Some jsDiff2Html
       /\ html = page commit (safeInline cssHighlight (str "style"))
                   (safeInline cssDiff2Html (str "style"))
                   (or_else (escapeHtml commitMessage) (str "No commit message"))
                   (safeInline jsDiff2Html (str "script"))
                   (escapedDiff diffOutput).
Proof.
  intros H.
  destruct (generateHtml_returns _ _ _ _ _ _ _ H)
    as (-> & a & b & c & Ha & Hb & Hc & Hpage).
  rewrite Hpage in H. injection H as <-.
  split; [reflexivity | ].
  split; [ | exists a, b, c; repeat split; assumption].
  unfold page.
  assert (Hfirst : page_first = str "<!DOCTYPE html>" ++ skipn 15 page_first)
    by (vm_compute; reflexivity).
  assert (Hlast : page_last = firstn 633 page_last ++ str "</html>")
    by (vm_compute; reflexivity).
  rewrite Hfirst, Hlast.
  generalize (skipn 15 page_first) (firstn 633 page_last). intros f l.
  exists (f ++ commit ++ tpl_title_end ++ safeInline a (str "style")
          ++ tpl_style_sep ++ safeInline b (str "style") ++ tpl_page_style
          ++ commit ++ tpl_message_open
          ++ or_else (escapeHtml commitMessage) (str "No commit message")
          ++ tpl_message_close ++ safeInline c (str "script")
          ++ tpl_bootstrap_open ++ escapedDiff diffOutput ++ l).
  rewrite <- !app_assoc. reflexivity.
Qed.

(** X16 with three libraries that differ, one of them holding a closing
    tag: each is found in its own place of the page. *)
Lemma generateHtml_whole_document_witness :
  empty_world = empty_world
  /\ (exists middle,
        labelled_page = str "<!DOCTYPE html>" ++ middle ++ str "</html>")
  /\ exists cssHighlight cssDiff2Html jsDiff2Html,
       readLib labelled_libs_env (str "highlightjs-github.min.css")
       = Some cssHighlight
       /\ readLib labelled_libs_env (str "diff2html.min.css") = Some cssDiff2Html
       /\ readLib labelled_libs_env (str "diff2html-ui.min.js") = Some jsDiff2Html
       /\ labelled_page
          = page (str "abc1234") (safeInline cssHighlight (str "style"))
              (safeInline cssDiff2Html (str "style"))
              (or_else (escapeHtml []) (str "No commit message"))
              (safeInline jsDiff2Html (str "script")) (escapedDiff (str "diff")).
Proof.
  apply (generateHtml_whole_document labelled_libs_env (str "abc1234") []
           (str "diff") empty_world).
  vm_compute. reflexivity.
Defined.

(** X17.  The static renderer works on the very page [generateHtml] makes: it
    fails exactly when [generateHtml] fails, with the same status and the
    same message, and otherwise returns the serialization of the stripped
    document that jsdom holds for that page when the wait ends; it never
    leaves its promise pending and changes nothing in the world. *)
Theorem generateStaticHtml_follows (env : Env)
    (commit commitMessage diffOutput : jsstring) (w : World) :
  (exists base polls t,
      generateHtml env commit commitMessage diffOutput w = (Ret base, w)
      /\ wait_for_render (jsdom env base) (date_now env) wait_budget
         = Some (polls, t)
      /\ generateStaticHtml env commit commitMessage diffOutput w
         = (Ret (serialize (stripScripts (dom_at (jsdom env base) t))), w))
  \/ (exists line,
        generateHtml env commit commitMessage diffOutput w
        = (Exit 1, add_stderr line w)
        /\ generateStaticHtml env commit commitMessage diffOutput w
           = (Exit 1, add_stderr line w)).
Proof.
  destruct (generateHtml_cases env commit commitMessage diffOutput w)
    as [(a & b & c & _ & _ & _ & Heq) | (line & Heq)].
  - left. unfold generateStaticHtml. rewrite (bind_ret _ _ _ _ _ Heq). cbv zeta.
    destruct (wait_for_render_resolves (jsdom env (page commit
                (safeInline a (str "style")) (safeInline b (str "style"))
                (or_else (escapeHtml commitMessage) (str "No commit message"))
                (safeInline c (str "script")) (escapedDiff diffOutput)))
                (date_now env)) as (polls & t & Hwait).
    rewrite Hwait. eexists _, polls, t.
    split; [exact Heq | split; [exact Hwait | reflexivity]].
  - right. exists line. split; [exact Heq | ].
    unfold generateStaticHtml. apply bind_exit, Heq.
Qed.

(** ** The wait, continued *)

Section WaitBounds.
Variables (r : Rendering) (start k : Z).

Lemma run_loop_not_before (fuel : nat) (l : Loop) (ps : list Z) (t : Z) :
  (start <= now l)%Z ->
  (forall d, In d (timers l) -> (start + k <= d)%Z) ->
  (load l = None \/ (k <= 10)%Z) ->
  run_loop r start fuel l = Some (ps, t) ->
  (start + k <= t)%Z.
Proof using Type.
  revert l. induction fuel as [| fuel IH]; intros l Hnow Hdue Hload;
    [discriminate | ].
  cbn [run_loop]. unfold next_event.
  destruct (timers l) as [| d ds] eqn:Et.
  - destruct (load l) as [e | ] eqn:El; [ | discriminate].
    cbn [option_map]. apply IH; cbn [now timers load].
    + lia.
    + intros x [<- | []]. destruct Hload as [H | H]; [discriminate | lia].
    + left. reflexivity.
  - set (m := earliest d ds).
    assert (Hm : (start + k <= m)%Z) by (apply Hdue, earliest_in).
    assert (Hcheck :
      match check start (Z.max (now l) m + Z.of_N (lateness r (ran l)))
              (dom_at r (Z.max (now l) m + Z.of_N (lateness r (ran l)))) with
      | Resolve => Some (polls l, (Z.max (now l) m + Z.of_N (lateness r (ran l)))%Z)
      | Again delay =>
          run_loop r start fuel
            {| now := (Z.max (now l) m + Z.of_N (lateness r (ran l)))%Z;
               timers := cancel m (d :: ds)
                         ++ [(Z.max (now l) m + Z.of_N (lateness r (ran l)) + delay)%Z];
               load := load l; ran := S (ran l);
               polls := polls l
                        ++ [(Z.max (now l) m + Z.of_N (lateness r (ran l)))%Z] |}
      end = Some (ps, t) -> (start + k <= t)%Z).
    { set (t0 := (Z.max (now l) m + Z.of_N (lateness r (ran l)))%Z).
      assert (Ht0 : (now l <= t0 /\ m <= t0)%Z) by (unfold t0; lia).
      destruct (check_cases start t0 (dom_at r t0)) as [[-> _] | (-> & _ & _)].
      - intros [= _ <-]. lia.
      - apply IH; cbn [now timers load].
        + lia.
        + intros x Hx. apply in_app_iff in Hx as [Hx | [<- | []]]; [ | lia].
          apply Hdue, (cancel_subset m x), Hx.
        + exact Hload. }
    destruct (load l) as [e | ] eqn:El; [ | exact Hcheck].
    destruct (e <? m)%Z; [ | exact Hcheck].
    apply IH; cbn [now timers load].
    + lia.
    + intros x Hx. apply in_app_iff in Hx as [Hx | [<- | []]].
      * apply Hdue. exact Hx.
      * destruct Hload as [H | H]; [discriminate | lia].
    + left. reflexivity.
Qed.

Lemma run_loop_first_check (fuel : nat) (l : Loop) (ps : list Z) (t : Z) :
  (forall x, diff_rendered (dom_at r x) = true) ->
  run_loop r start fuel l = Some (ps, t) ->
  ps = polls l.
Proof using Type.
  intros Hr. revert l. induction fuel as [| fuel IH]; intros l; [discriminate | ].
  cbn [run_loop]. destruct (next_event l) as [[due | due] | ]; [ | | discriminate].
  - intros H. apply IH in H. exact H.
  - unfold check. rewrite Hr. intros [= <- _]. reflexivity.
Qed.
End WaitBounds.

Lemma wait_for_render_unfold (r : Rendering) (start : Z) (fuel : nat) :
  wait_for_render r start fuel = run_loop r start fuel (initial_loop r start).
Proof. reflexivity. Qed.

(** X18.  The wait never ends before its first timers: the promise is
    resolved 10 ms after the start at the earliest, and 20 ms at the
    earliest when the window fires no load event.  When the diff container
    already has its content at every check, the first check resolves the
    promise and no other check is made. *)
Theorem wait_for_render_not_before (r : Rendering) (start : Z) :
  exists polls t,
    wait_for_render r start wait_budget = Some (polls, t)
    /\ (start + 10 <= t)%Z
    /\ (load_at r = None -> (start + 20 <= t)%Z)
    /\ ((forall x, diff_rendered (dom_at r x) = true) -> polls = []).
Proof.
  destruct (wait_for_render_resolves r start) as (ps & t & Hwait).
  exists ps, t. split; [exact Hwait | ].
  rewrite wait_for_render_unfold in Hwait.
  assert (Hnow : (start <= now (initial_loop r start))%Z) by (cbn; lia).
  split; [ | split].
  - apply (run_loop_not_before r start 10 wait_budget (initial_loop r start) ps t
             Hnow); [ | right; lia | exact Hwait].
    intros d [<- | []]. lia.
  - intros Hnone.
    apply (run_loop_not_before r start 20 wait_budget (initial_loop r start) ps t
             Hnow); [ | left; exact Hnone | exact Hwait].
    intros d [<- | []]. lia.
  - intros Hr.
    exact (run_loop_first_check r start wait_budget (initial_loop r start) ps t
             Hr Hwait).
Qed.

(** X18 on a page rendered from the start, without load event. *)
Lemma wait_for_render_not_before_witness :
  exists polls t,
    wait_for_render
      {| dom_at := fun _ => rendered_page; load_at := None;
         lateness := fun _ => 0 |} 0 wait_budget = Some (polls, t)
    /\ (0 + 10 <= t)%Z /\ (0 + 20 <= t)%Z /\ polls = [].
Proof.
  destruct (wait_for_render_not_before
              {| dom_at := fun _ => rendered_page; load_at := None;
                 lateness := fun _ => 0 |} 0) as (ps & t & H1 & H2 & H3 & H4).
  exists ps, t. split; [exact H1 | ]. split; [exact H2 | ].
  split; [apply H3; reflexivity | apply H4; intros x; reflexivity].
Defined.

(** * Properties of [scripts/fetch-libs.js] *)

Example strip_range_samples :
  FetchLibs.strip_range true FetchLibs.Outside (str "^3.4.48") = str "3.4.48"
  /\ FetchLibs.strip_range true FetchLibs.Outside (str "~3.4") = str "3.4"
  /\ FetchLibs.strip_range true FetchLibs.Outside (str ">= 3.4.0") = str "3.4.0"
  /\ FetchLibs.strip_range true FetchLibs.Outside (str ">3 <4") = str "3 <4"
  /\ FetchLibs.strip_range true FetchLibs.Outside (str "1.0 || ^2.0") = str "1.0 || ^2.0".
Proof. repeat split; reflexivity. Qed.

Example fetch_run_samples :
  fst (FetchLibs.run good_network empty_libs) = 0%Z
  /\ FetchLibs.requests (snd (FetchLibs.run good_network empty_libs))
     = [ str "https://cdn.jsdelivr.net/npm/diff2html@3.4.48/bundles/js/diff2html-ui.min.js";
         str "https://cdn.jsdelivr.net/npm/diff2html@3.4.48/bundles/css/diff2html.min.css";
         str "https://cdnjs.cloudflare.com/ajax/libs/highlight.js/11.9.0/styles/github.min.css" ]
  /\ fst (FetchLibs.run bad_network empty_libs) = 1%Z
  /\ FetchLibs.stderr (snd (FetchLibs.run bad_network empty_libs))
     = [ str "Failed to fetch https://cdn.jsdelivr.net/npm/diff2html@3.4.52/bundles/css/diff2html.min.css: 404 Not Found" ].
Proof. vm_compute. repeat split; reflexivity. Qed.

(** ** The version of the diff viewer *)

Lemma scan_outside_kept (first : bool) (c : code_unit) :
  fst (FetchLibs.scan_outside first c) = false -> c <> 126 /\ c <> cu_gt.
Proof.
  unfold FetchLibs.scan_outside.
  destruct (first && (c =? 94)); [discriminate | ].
  destruct (N.eqb_spec c 126); [discriminate | ].
  destruct (N.eqb_spec c cu_gt); [discriminate | ].
  intros _. split; assumption.
Qed.

Lemma strip_range_kept (first : bool) (state : FetchLibs.scan) (s : jsstring)
    (x : code_unit) :
  In x (FetchLibs.strip_range first state s) -> x <> 126 /\ x <> cu_gt.
Proof.
  revert first state. induction s as [| c s IH]; intros first state; [intros [] | ].
  cbn [FetchLibs.strip_range]. cbv zeta. rewrite in_app_iff.
  intros [H | H]; [ | exact (IH _ _ H)].
  destruct state.
  - destruct (fst (FetchLibs.scan_outside first c)) eqn:E; [destruct H | ].
    destruct H as [<- | []]. exact (scan_outside_kept first c E).
  - destruct (c =? 61); [destruct H | ].
    destruct (is_js_whitespace c); [destruct H | ].
    destruct (fst (FetchLibs.scan_outside false c)) eqn:E; [destruct H | ].
    destruct H as [<- | []]. exact (scan_outside_kept false c E).
  - destruct (is_js_whitespace c); [destruct H | ].
    destruct (fst (FetchLibs.scan_outside false c)) eqn:E; [destruct H | ].
    destruct H as [<- | []]. exact (scan_outside_kept false c E).
Qed.

Lemma strip_range_plain (v : jsstring) :
  forallb (fun c => negb ((c =? 126) || (c =? cu_gt))) v = true ->
  FetchLibs.strip_range false FetchLibs.Outside v = v.
Proof.
  induction v as [| c v IH]; [reflexivity | ].
  cbn [forallb]. intros H. apply andb_true_iff in H as [Hc Hv].
  apply negb_true_iff, orb_false_iff in Hc as [Ht Hg].
  cbn [FetchLibs.strip_range]. unfold FetchLibs.scan_outside.
  cbn [andb]. rewrite Ht, Hg. cbn [fst snd app]. rewrite (IH Hv). reflexivity.
Qed.

(** X19.  The cleaning of the version range never leaves a tilde or a [>] in
    the version, and it turns a caret range or a tilde range into the bare
    version: for a version [v] with no tilde and no [>] in it, both [^v] and
    [~v] give [v], and [v] itself is kept unless it starts with a caret. *)
Theorem strip_range_version (s v : jsstring) :
  (forall x, In x (FetchLibs.strip_range true FetchLibs.Outside s) ->
     x <> 126 /\ x <> cu_gt)
  /\ (forallb (fun c => negb ((c =? 126) || (c =? cu_gt))) v = true ->
      FetchLibs.strip_range true FetchLibs.Outside (94 :: v) = v
      /\ FetchLibs.strip_range true FetchLibs.Outside (126 :: v) = v
      /\ (hd 0 v <> 94 -> FetchLibs.strip_range true FetchLibs.Outside v = v)).
Proof.
  split; [intros x; apply strip_range_kept | ].
  intros Hv. split; [ | split].
  - cbn [FetchLibs.strip_range]. cbn. apply strip_range_plain, Hv.
  - cbn [FetchLibs.strip_range]. cbn. apply strip_range_plain, Hv.
  - destruct v as [| c v]; [reflexivity | ]. cbn [hd]. intros Hc.
    pose proof (strip_range_plain (c :: v) Hv) as H.
    cbn [FetchLibs.strip_range] in *. unfold FetchLibs.scan_outside in *.
    rewrite (proj2 (N.eqb_neq c 94) Hc), andb_false_r. exact H.
Qed.

(** X20.  When package.json can be read, [getDiff2HtmlVersion] returns, and
    never the empty string, so the urls built from it always name a version.
    It returns the installed version when there is one that is not empty.
    Otherwise it returns the range of package.json cleaned by the
    replacement, when something is left of it, and [latest] when nothing is
    left of it or when package.json has no diff2html among its
    dependencies. *)
Theorem getDiff2HtmlVersion_never_empty (env : FetchLibs.Env)
    (dependency : option jsstring) :
  FetchLibs.package_json env = Some dependency ->
  exists version,
    FetchLibs.getDiff2HtmlVersion env = FetchLibs.Ok version
    /\ version <> []
    /\ (forall installed, FetchLibs.installed_version env = Some installed ->
          installed <> [] -> version = installed)
    /\ (FetchLibs.installed_version env = None
        \/ FetchLibs.installed_version env = Some [] ->
        (forall range, dependency = Some range ->
           FetchLibs.strip_range true FetchLibs.Outside range <> [] ->
           version = FetchLibs.strip_range true FetchLibs.Outside range)
        /\ (forall range, dependency = Some range ->
              FetchLibs.strip_range true FetchLibs.Outside range = [] ->
              version = str "latest")
        /\ (dependency = None -> version = str "latest")).
Proof.
  intros Hp. unfold FetchLibs.getDiff2HtmlVersion. rewrite Hp. cbv zeta.
  assert (Hrange :
    forall version,
      version = or_else (FetchLibs.strip_range true FetchLibs.Outside
                           match dependency with
                           | Some ((_ :: _) as d) => d
                           | Some [] | None => str "latest"
                           end) (str "latest") ->
      version <> []
      /\ (forall range, dependency = Some range ->
            FetchLibs.strip_range true FetchLibs.Outside range <> [] ->
            version = FetchLibs.strip_range true FetchLibs.Outside range)
      /\ (forall range, dependency = Some range ->
            FetchLibs.strip_range true FetchLibs.Outside range = [] ->
            version = str "latest")
      /\ (dependency = None -> version = str "latest")).
  { intros version ->. split; [ | split; [ | split]].
    - destruct (FetchLibs.strip_range _ _ _); discriminate.
    - intros range -> Hleft.
      destruct range as [| c range]; [exfalso; apply Hleft; reflexivity | ].
      apply or_else_nonempty, Hleft.
    - intros range -> Hnone. destruct range as [| c range]; [reflexivity | ].
      rewrite Hnone. reflexivity.
    - intros ->. reflexivity. }
  destruct (FetchLibs.installed_version env) as [[| c i] | ].
  - eexists. split; [reflexivity | ].
    destruct (Hrange _ eq_refl) as (Hne & Hrest).
    split; [exact Hne | ]. split; [intros i [= <-] H; congruence | ].
    intros _. exact Hrest.
  - exists (c :: i). split; [reflexivity | ]. split; [discriminate | ].
    split; [intros i' [= <-] _; reflexivity | ].
    intros [H | H]; discriminate.
  - eexists. split; [reflexivity | ].
    destruct (Hrange _ eq_refl) as (Hne & Hrest).
    split; [exact Hne | ]. split; [discriminate | ].
    intros _. exact Hrest.
Qed.

(** X20 on five repositories: the viewer installed; a caret range and
    nothing installed; an installed package without version and a tilde
    range; a range of which nothing is left; no such dependency. *)
Lemma getDiff2HtmlVersion_never_empty_witness :
  FetchLibs.getDiff2HtmlVersion bad_network = FetchLibs.Ok (str "3.4.52")
  /\ FetchLibs.getDiff2HtmlVersion good_network = FetchLibs.Ok (str "3.4.48")
  /\ FetchLibs.getDiff2HtmlVersion flaky_network = FetchLibs.Ok (str "3.4.48")
  /\ FetchLibs.getDiff2HtmlVersion open_range = FetchLibs.Ok (str "latest")
  /\ FetchLibs.getDiff2HtmlVersion no_dependency = FetchLibs.Ok (str "latest").
Proof.
  split; [ | split; [ | split; [ | split]]].
  - destruct (getDiff2HtmlVersion_never_empty bad_network
                (Some (str ">= 3.4.0")) eq_refl)
      as (version & -> & _ & Hinstalled & _).
    rewrite (Hinstalled (str "3.4.52") eq_refl); [reflexivity | discriminate].
  - destruct (getDiff2HtmlVersion_never_empty good_network
                (Some (str "^3.4.48")) eq_refl)
      as (version & -> & _ & _ & Hrest).
    destruct (Hrest (or_introl eq_refl)) as (Hrange & _).
    rewrite (Hrange (str "^3.4.48") eq_refl); [reflexivity | discriminate].
  - destruct (getDiff2HtmlVersion_never_empty flaky_network
                (Some (str "~3.4.48")) eq_refl)
      as (version & -> & _ & _ & Hrest).
    destruct (Hrest (or_intror eq_refl)) as (Hrange & _).
    rewrite (Hrange (str "~3.4.48") eq_refl); [reflexivity | discriminate].
  - destruct (getDiff2HtmlVersion_never_empty open_range
                (Some (str ">= ")) eq_refl)
      as (version & -> & _ & _ & Hrest).
    destruct (Hrest (or_introl eq_refl)) as (_ & Hnone & _).
    rewrite (Hnone (str ">= ") eq_refl); reflexivity.
  - destruct (getDiff2HtmlVersion_never_empty no_dependency None eq_refl)
      as (version & -> & _ & _ & Hrest).
    destruct (Hrest (or_introl eq_refl)) as (_ & _ & Hnone).
    rewrite (Hnone eq_refl). reflexivity.
Defined.

(** ** Fetching the assets *)

Lemma fetch_one_fields (env : FetchLibs.Env) (w : FetchLibs.World)
    (a : FetchLibs.asset) :
  FetchLibs.requests (FetchLibs.fetch_one env w a)
  = FetchLibs.requests w ++ [FetchLibs.url a]
  /\ FetchLibs.libs (FetchLibs.fetch_one env w a)
     = FetchLibs.store env (FetchLibs.libs w) a
  /\ FetchLibs.exitCode (FetchLibs.fetch_one env w a)
     = match FetchLibs.fetched env a with
       | Some _ => FetchLibs.exitCode w
       | None => Some 1%Z
       end
  /\ length (FetchLibs.stderr (FetchLibs.fetch_one env w a))
     = (length (FetchLibs.stderr w)
        + match FetchLibs.fetched env a with Some _ => 0 | None => 1 end)%nat
  /\ exists text,
       FetchLibs.stdout (FetchLibs.fetch_one env w a) = FetchLibs.stdout w ++ text.
Proof.
  unfold FetchLibs.fetch_one, FetchLibs.download, FetchLibs.store,
    FetchLibs.left_by, FetchLibs.fetched.
  cbv zeta.
  destruct (FetchLibs.fetch env (FetchLibs.url a)) as [m | [] st tx body].
  - cbn. rewrite length_app. cbn [length].
    repeat split; try reflexivity. eexists. rewrite <- app_assoc. reflexivity.
  - destruct (FetchLibs.write_error env (FetchLibs.out a)) as [m | ].
    + cbn. rewrite length_app. cbn [length].
      repeat split; try reflexivity. eexists. rewrite <- app_assoc. reflexivity.
    + cbn. rewrite Nat.add_0_r.
      repeat split; try reflexivity. eexists. rewrite <- app_assoc. reflexivity.
  - cbn. rewrite length_app. cbn [length].
    repeat split; try reflexivity. eexists. rewrite <- app_assoc. reflexivity.
Qed.

Lemma fetch_all_fields (env : FetchLibs.Env) (l : list FetchLibs.asset)
    (w : FetchLibs.World) :
  FetchLibs.requests (fold_left (FetchLibs.fetch_one env) l w)
  = FetchLibs.requests w ++ map FetchLibs.url l
  /\ FetchLibs.libs (fold_left (FetchLibs.fetch_one env) l w)
     = fold_left (FetchLibs.store env) l (FetchLibs.libs w)
  /\ FetchLibs.exitCode (fold_left (FetchLibs.fetch_one env) l w)
     = (if forallb (fun a => match FetchLibs.fetched env a with
                             | Some _ => true
                             | None => false
                             end) l
        then FetchLibs.exitCode w else Some 1%Z)
  /\ length (FetchLibs.stderr (fold_left (FetchLibs.fetch_one env) l w))
     = (length (FetchLibs.stderr w)
        + length (List.filter (fun a => match FetchLibs.fetched env a with
                                        | Some _ => false
                                        | None => true
                                        end) l))%nat
  /\ exists text,
       FetchLibs.stdout (fold_left (FetchLibs.fetch_one env) l w)
       = FetchLibs.stdout w ++ text.
Proof.
  revert w. induction l as [| a l IH]; intros w; cbn [fold_left map forallb List.filter].
  - rewrite app_nil_r, Nat.add_0_r. repeat split; try reflexivity.
    exists []. rewrite app_nil_r. reflexivity.
  - destruct (IH (FetchLibs.fetch_one env w a)) as (Hr & Hl & He & Hs & text & Ho).
    destruct (fetch_one_fields env w a) as (Hr1 & Hl1 & He1 & Hs1 & text1 & Ho1).
    rewrite Hr, Hl, He, Hs, Ho, Hr1, Hl1, He1, Hs1, Ho1, <- !app_assoc.
    destruct (FetchLibs.fetched env a); cbn [andb length].
    + repeat split; try reflexivity; [ | eexists; reflexivity].
      lia.
    + repeat split; try reflexivity; [ | | eexists; reflexivity].
      * destruct (forallb _ l); reflexivity.
      * lia.
Qed.

(** X21.  Once the version is known and the directory is there, the script
    requests the three assets, in the order diff script, diff style sheet,
    highlight theme, whether or not the earlier ones failed.  Started without
    an exit code, it ends with status 0 exactly when all three were fetched
    and stored, and with status 1 otherwise; it prints one error per asset
    that failed. *)
Theorem fetch_attempts_every_asset (env : FetchLibs.Env) (w : FetchLibs.World)
    (version : jsstring) :
  FetchLibs.getDiff2HtmlVersion env = FetchLibs.Ok version ->
  FetchLibs.mkdir_error env = None ->
  FetchLibs.exitCode w = None ->
  FetchLibs.requests (snd (FetchLibs.run env w))
  = FetchLibs.requests w ++ map FetchLibs.url (FetchLibs.assets version)
  /\ (fst (FetchLibs.run env w) = 0%Z \/ fst (FetchLibs.run env w) = 1%Z)
  /\ (fst (FetchLibs.run env w) = 0%Z
      <-> forall a, In a (FetchLibs.assets version) ->
            exists body, FetchLibs.fetched env a = Some body)
  /\ length (FetchLibs.stderr (snd (FetchLibs.run env w)))
     = (length (FetchLibs.stderr w)
        + length (List.filter (fun a => match FetchLibs.fetched env a with
                                        | Some _ => false
                                        | None => true
                                        end) (FetchLibs.assets version)))%nat.
Proof.
  intros Hv Hmk Hcode. unfold FetchLibs.run, FetchLibs.main.
  rewrite Hv, Hmk. cbv zeta.
  destruct (fetch_all_fields env (FetchLibs.assets version)
              (FetchLibs.console_log (str "Fetching assets to libs ...") w))
    as (Hr & _ & He & Hs & _).
  cbn [fst snd FetchLibs.requests FetchLibs.exitCode FetchLibs.stderr
       FetchLibs.console_log FetchLibs.write_stdout] in *.
  rewrite Hr, He, Hs, Hcode.
  split; [reflexivity | ].
  destruct (forallb _ (FetchLibs.assets version)) eqn:Hall.
  - split; [left; reflexivity | ]. split; [ | reflexivity].
    split; [ | reflexivity]. intros _ a Ha.
    rewrite forallb_forall in Hall. specialize (Hall a Ha).
    destruct (FetchLibs.fetched env a) as [body | ]; [eauto | discriminate].
  - split; [right; reflexivity | ]. split; [ | reflexivity].
    split; [discriminate | ]. intros H. exfalso.
    assert (Htrue : forallb (fun a => match FetchLibs.fetched env a with
                                      | Some _ => true
                                      | None => false
                                      end) (FetchLibs.assets version) = true).
    { apply forallb_forall. intros a Ha. destruct (H a Ha) as [body ->]. reflexivity. }
    congruence.
Qed.

(** X21 on the network that lacks one style sheet. *)
Lemma fetch_attempts_every_asset_witness :
  FetchLibs.requests (snd (FetchLibs.run bad_network empty_libs))
  = FetchLibs.requests empty_libs
    ++ map FetchLibs.url (FetchLibs.assets (str "3.4.52"))
  /\ (fst (FetchLibs.run bad_network empty_libs) = 0%Z
      \/ fst (FetchLibs.run bad_network empty_libs) = 1%Z)
  /\ (fst (FetchLibs.run bad_network empty_libs) = 0%Z
      <-> forall a, In a (FetchLibs.assets (str "3.4.52")) ->
            exists body, FetchLibs.fetched bad_network a = Some body)
  /\ length (FetchLibs.stderr (snd (FetchLibs.run bad_network empty_libs)))
     = (length (FetchLibs.stderr empty_libs)
        + length (List.filter
                    (fun a => match FetchLibs.fetched bad_network a with
                              | Some _ => false
                              | None => true
                              end) (FetchLibs.assets (str "3.4.52"))))%nat.
Proof.
  apply (fetch_attempts_every_asset bad_network empty_libs (str "3.4.52"));
    reflexivity.
Defined.

Lemma store_lookup (env : FetchLibs.Env) (m : gmap jsstring jsstring)
    (a : FetchLibs.asset) (name : jsstring) :
  (name = FetchLibs.out a ->
   FetchLibs.store env m a !! name
   = match FetchLibs.left_by env a with
     | Some text => Some text
     | None => m !! name
     end)
  /\ (name <> FetchLibs.out a -> FetchLibs.store env m a !! name = m !! name).
Proof.
  unfold FetchLibs.store, FetchLibs.put. split.
  - intros ->. destruct (FetchLibs.left_by env a); [ | reflexivity].
    apply lookup_insert_eq.
  - intros Hne. destruct (FetchLibs.left_by env a); [ | reflexivity].
    apply lookup_insert_ne. congruence.
Qed.

Lemma fetched_left_by (env : FetchLibs.Env) (a : FetchLibs.asset)
    (body : jsstring) :
  FetchLibs.fetched env a = Some body -> FetchLibs.left_by env a = Some body.
Proof.
  unfold FetchLibs.fetched, FetchLibs.left_by.
  destruct (FetchLibs.fetch env (FetchLibs.url a)) as [m | [] st tx b];
    [discriminate | | discriminate].
  destruct (FetchLibs.write_error env (FetchLibs.out a)); [discriminate | ].
  intros H. exact H.
Qed.

Lemma store_assets_lookup (env : FetchLibs.Env) (m : gmap jsstring jsstring)
    (version : jsstring) :
  (forall a, In a (FetchLibs.assets version) ->
     fold_left (FetchLibs.store env) (FetchLibs.assets version) m !! FetchLibs.out a
     = match FetchLibs.left_by env a with
       | Some text => Some text
       | None => m !! FetchLibs.out a
       end)
  /\ (forall name,
        ~ In name (map FetchLibs.out (FetchLibs.assets version)) ->
        fold_left (FetchLibs.store env) (FetchLibs.assets version) m !! name
        = m !! name).
Proof.
  unfold FetchLibs.assets. cbn [fold_left map].
  set (a1 := {| FetchLibs.url := _; FetchLibs.out := str "diff2html-ui.min.js" |}).
  set (a2 := {| FetchLibs.url := _; FetchLibs.out := str "diff2html.min.css" |}).
  set (a3 := {| FetchLibs.url := _; FetchLibs.out := str "highlightjs-github.min.css" |}).
  assert (H12 : FetchLibs.out a1 <> FetchLibs.out a2) by discriminate.
  assert (H13 : FetchLibs.out a1 <> FetchLibs.out a3) by discriminate.
  assert (H23 : FetchLibs.out a2 <> FetchLibs.out a3) by discriminate.
  split.
  - intros a [<- | [<- | [<- | []]]].
    + rewrite (proj2 (store_lookup env _ a3 _) H13).
      rewrite (proj2 (store_lookup env _ a2 _) H12).
      exact (proj1 (store_lookup env _ a1 _) eq_refl).
    + rewrite (proj2 (store_lookup env _ a3 _) H23).
      rewrite (proj1 (store_lookup env _ a2 _) eq_refl).
      destruct (FetchLibs.left_by env a2); [reflexivity | ].
      apply (proj2 (store_lookup env _ a1 _)). congruence.
    + rewrite (proj1 (store_lookup env _ a3 _) eq_refl).
      destruct (FetchLibs.left_by env a3); [reflexivity | ].
      rewrite (proj2 (store_lookup env _ a2 _)) by congruence.
      apply (proj2 (store_lookup env _ a1 _)). congruence.
  - intros name Hname.
    assert (Hn1 : name <> FetchLibs.out a1)
      by (intros ->; apply Hname; left; reflexivity).
    assert (Hn2 : name <> FetchLibs.out a2)
      by (intros ->; apply Hname; right; left; reflexivity).
    assert (Hn3 : name <> FetchLibs.out a3)
      by (intros ->; apply Hname; right; right; left; reflexivity).
    rewrite (proj2 (store_lookup env _ a3 name) Hn3).
    rewrite (proj2 (store_lookup env _ a2 name) Hn2).
    exact (proj2 (store_lookup env _ a1 name) Hn1).
Qed.

Lemma fetch_run_fields (env : FetchLibs.Env) (w : FetchLibs.World)
    (version : jsstring) :
  FetchLibs.getDiff2HtmlVersion env = FetchLibs.Ok version ->
  FetchLibs.mkdir_error env = None ->
  FetchLibs.libs (snd (FetchLibs.run env w))
  = fold_left (FetchLibs.store env) (FetchLibs.assets version) (FetchLibs.libs w)
  /\ fst (FetchLibs.run env w)
     = match (if forallb (fun a => match FetchLibs.fetched env a with
                                   | Some _ => true
                                   | None => false
                                   end) (FetchLibs.assets version)
              then FetchLibs.exitCode w else Some 1%Z) with
       | Some code => code
       | None => 0%Z
       end.
Proof.
  intros Hv Hmk. unfold FetchLibs.run, FetchLibs.main. rewrite Hv, Hmk. cbv zeta.
  destruct (fetch_all_fields env (FetchLibs.assets version)
              (FetchLibs.console_log (str "Fetching assets to libs ...") w))
    as (_ & Hl & He & _).
  cbn [fst snd FetchLibs.libs FetchLibs.exitCode FetchLibs.console_log
       FetchLibs.write_stdout] in *.
  rewrite Hl, He. split; reflexivity.
Qed.

(** X22.  What a fetch leaves in the libs directory.  An asset whose
    response is ok and whose write succeeds is stored under its name with the
    body of the response.  An asset whose fetch is rejected or whose response
    is not ok leaves the file of that name as it was.  An asset whose write
    fails leaves the file as it was when it could not be opened, and
    otherwise leaves it with what the failed write left of it: what the file
    held before is then lost.  No file of another name is touched. *)
Theorem fetch_stores_what_it_got (env : FetchLibs.Env) (w : FetchLibs.World)
    (version : jsstring) :
  FetchLibs.getDiff2HtmlVersion env = FetchLibs.Ok version ->
  FetchLibs.mkdir_error env = None ->
  (forall a, In a (FetchLibs.assets version) ->
     FetchLibs.libs (snd (FetchLibs.run env w)) !! FetchLibs.out a
     = match FetchLibs.fetch env (FetchLibs.url a) with
       | FetchLibs.Response true _ _ body =>
           match FetchLibs.write_error env (FetchLibs.out a) with
           | None => Some body
           | Some failure =>
               match failure_leaves failure with
               | Some text => Some text
               | None => FetchLibs.libs w !! FetchLibs.out a
               end
           end
       | FetchLibs.Response false _ _ _ | FetchLibs.Rejected _ =>
           FetchLibs.libs w !! FetchLibs.out a
       end)
  /\ (forall name,
        ~ In name (map FetchLibs.out (FetchLibs.assets version)) ->
        FetchLibs.libs (snd (FetchLibs.run env w)) !! name
        = FetchLibs.libs w !! name).
Proof.
  intros Hv Hmk.
  destruct (fetch_run_fields env w version Hv Hmk) as [-> _].
  destruct (store_assets_lookup env (FetchLibs.libs w) version) as [Hin Hout].
  split; [ | exact Hout].
  intros a Ha. rewrite (Hin a Ha). unfold FetchLibs.left_by.
  destruct (FetchLibs.fetch env (FetchLibs.url a)) as [m | [] st tx body];
    [reflexivity | | reflexivity].
  destruct (FetchLibs.write_error env (FetchLibs.out a)) as [failure | ];
    reflexivity.
Qed.

(** X22 on the network that lacks the highlight theme, with a disk that fills
    up, in a directory that holds an earlier fetch: the script is replaced,
    the style sheet is emptied, the theme and the other file are as they
    were. *)
Lemma fetch_stores_what_it_got_witness :
  FetchLibs.libs (snd (FetchLibs.run flaky_network earlier_libs))
    !! str "diff2html-ui.min.js"
  = Some (str "https://cdn.jsdelivr.net/npm/diff2html@3.4.48/bundles/js/diff2html-ui.min.js")
  /\ FetchLibs.libs (snd (FetchLibs.run flaky_network earlier_libs))
       !! str "diff2html.min.css"
     = Some []
  /\ FetchLibs.libs (snd (FetchLibs.run flaky_network earlier_libs))
       !! str "highlightjs-github.min.css"
     = Some (str "old theme")
  /\ FetchLibs.libs (snd (FetchLibs.run flaky_network earlier_libs))
       !! str "README"
     = Some (str "keep").
Proof.
  destruct (fetch_stores_what_it_got flaky_network earlier_libs (str "3.4.48")
              eq_refl eq_refl) as [Hin Hout].
  split; [ | split; [ | split]].
  - exact (Hin _ (or_introl eq_refl)).
  - exact (Hin _ (or_intror (or_introl eq_refl))).
  - exact (Hin _ (or_intror (or_intror (or_introl eq_refl)))).
  - rewrite Hout; [reflexivity | ].
    intros H. vm_compute in H.
    repeat (destruct H as [H | H]; [discriminate | ]). exact H.
Defined.

(** X23.  The script and the tool agree: a fetch that ends with status 0
    leaves in the libs directory the three files [generateHtml] asks for, so
    the tool, run on that directory, finds no library missing and makes its
    page, whatever the commit. *)
Theorem fetched_libraries_suffice (fetcher : FetchLibs.Env)
    (w : FetchLibs.World) (version : jsstring) (env : Env) :
  FetchLibs.getDiff2HtmlVersion fetcher = FetchLibs.Ok version ->
  FetchLibs.mkdir_error fetcher = None ->
  FetchLibs.exitCode w = None ->
  fst (FetchLibs.run fetcher w) = 0%Z ->
  first_missing (env_with_libs (FetchLibs.libs (snd (FetchLibs.run fetcher w))) env)
  = None
  /\ forall commit commitMessage diffOutput w0,
       exists html,
         generateHtml
           (env_with_libs (FetchLibs.libs (snd (FetchLibs.run fetcher w))) env)
           commit commitMessage diffOutput w0
         = (Ret html, w0).
Proof.
  intros Hv Hmk Hcode Hzero.
  destruct (fetch_run_fields fetcher w version Hv Hmk) as [Hlibs Hstatus].
  rewrite Hstatus, Hcode in Hzero.
  destruct (forallb _ (FetchLibs.assets version)) eqn:Hall; [ | discriminate].
  rewrite forallb_forall in Hall.
  set (e := env_with_libs _ env).
  assert (Hnone : first_missing e = None).
  { destruct (first_missing_cases e)
      as [[Hnone _] | (file & _ & Hin & Hmissing & _)]; [exact Hnone | exfalso].
    unfold e in Hmissing. cbn [readLib env_with_libs] in Hmissing.
    rewrite Hlibs in Hmissing.
    destruct (store_assets_lookup fetcher (FetchLibs.libs w) version) as [Hlookup _].
    assert (Ha : exists a, In a (FetchLibs.assets version) /\ FetchLibs.out a = file).
    { unfold FetchLibs.assets.
      destruct Hin as [<- | [<- | [<- | []]]]; eexists.
      - split; [right; right; left; reflexivity | reflexivity].
      - split; [right; left; reflexivity | reflexivity].
      - split; [left; reflexivity | reflexivity]. }
    destruct Ha as (a & Ha & <-).
    rewrite (Hlookup a Ha) in Hmissing. specialize (Hall a Ha).
    destruct (FetchLibs.fetched fetcher a) as [body | ] eqn:Hbody;
      [ | discriminate].
    rewrite (fetched_left_by fetcher a body Hbody) in Hmissing.
    discriminate. }
  split; [exact Hnone | ].
  intros commit commitMessage diffOutput w0.
  destruct (generateHtml_cases e commit commitMessage diffOutput w0)
    as [(a & b & c & _ & _ & _ & Heq) | (line & Heq)]; [eauto | exfalso].
  destruct (first_missing_cases e)
    as [(_ & a & b & c & Ha & Hb & Hc) | (file & Hsome & _)]; [ | congruence].
  revert Heq. unfold generateHtml, readLibRequired, bind, ret. cbv zeta.
  rewrite Ha, Hb, Hc. discriminate.
Qed.

(** X23 on the good network. *)
Lemma fetched_libraries_suffice_witness :
  first_missing
    (env_with_libs (FetchLibs.libs (snd (FetchLibs.run good_network empty_libs)))
       bad_ref_env) = None
  /\ forall commit commitMessage diffOutput w0,
       exists html,
         generateHtml
           (env_with_libs
              (FetchLibs.libs (snd (FetchLibs.run good_network empty_libs)))
              bad_ref_env)
           commit commitMessage diffOutput w0
         = (Ret html, w0).
Proof.
  apply (fetched_libraries_suffice good_network empty_libs (str "3.4.48"));
    reflexivity.
Defined.

(** X24.  When package.json cannot be read, or the libs directory cannot be
    made, the script ends with status 1 before any request: it prints the
    error and nothing else, and the libs directory is as it was. *)
Theorem fetch_stops_before_network (env : FetchLibs.Env) (w : FetchLibs.World) :
  FetchLibs.package_json env = None
  \/ (exists message, FetchLibs.mkdir_error env = Some message) ->
  fst (FetchLibs.run env w) = 1%Z
  /\ FetchLibs.requests (snd (FetchLibs.run env w)) = FetchLibs.requests w
  /\ FetchLibs.libs (snd (FetchLibs.run env w)) = FetchLibs.libs w
  /\ FetchLibs.stdout (snd (FetchLibs.run env w)) = FetchLibs.stdout w
  /\ length (FetchLibs.stderr (snd (FetchLibs.run env w)))
     = S (length (FetchLibs.stderr w)).
Proof.
  intros H. unfold FetchLibs.run, FetchLibs.main.
  destruct (FetchLibs.getDiff2HtmlVersion env) as [version | message] eqn:Hv.
  - destruct H as [Hp | [message Hm]].
    + unfold FetchLibs.getDiff2HtmlVersion in Hv. rewrite Hp in Hv. discriminate.
    + rewrite Hm. cbn. rewrite length_app. cbn [length].
      repeat split; try reflexivity. lia.
  - cbn. rewrite length_app. cbn [length]. repeat split; try reflexivity. lia.
Qed.

(** X24 in a directory without package.json. *)
Lemma fetch_stops_before_network_witness :
  fst (FetchLibs.run
         {| FetchLibs.package_json := None; FetchLibs.installed_version := None;
            FetchLibs.mkdir_error := None;
            FetchLibs.fetch := FetchLibs.fetch good_network;
            FetchLibs.write_error := fun _ => None |} empty_libs) = 1%Z
  /\ FetchLibs.requests
       (snd (FetchLibs.run
               {| FetchLibs.package_json := None;
                  FetchLibs.installed_version := None;
                  FetchLibs.mkdir_error := None;
                  FetchLibs.fetch := FetchLibs.fetch good_network;
                  FetchLibs.write_error := fun _ => None |} empty_libs))
     = FetchLibs.requests empty_libs.
Proof.
  destruct (fetch_stops_before_network
              {| FetchLibs.package_json := None; FetchLibs.installed_version := None;
                 FetchLibs.mkdir_error := None;
                 FetchLibs.fetch := FetchLibs.fetch good_network;
                 FetchLibs.write_error := fun _ => None |} empty_libs)
    as (H1 & H2 & _).
  - left. reflexivity.
  - split; [exact H1 | exact H2].
Defined.
